(** * The classifier base classes of the Adversarial Robustness Toolbox

    A shallow embedding of [art/classifiers/classifier.py]: the metaclass
    [input_filter], the constructor and the pre- and postprocessing pipelines
    of [Classifier], the constructor, [fit_generator] and [layer_names] of
    [ClassifierNeuralNetwork], the backward pipeline of [ClassifierGradients],
    and the body of the abstract methods.

    Python exceptions are values of [exn] and a call that may raise returns a
    [result].  Calls the classes make to collaborators (defences, the data
    generator, the abstract methods of the concrete classifier) act on a
    [world] and are recorded, in the order they happen, in a log of [event]s.
    NumPy arrays are values, except in [_apply_postprocessing], whose contract
    is about not mutating its argument: there arrays are objects in a store. *)

From Stdlib Require Import ZArith Lia.
From Stdlib.Floats Require Import SpecFloat.
From stdpp Require Import base option list gmap strings.

Local Open Scope Z_scope.

(** ** Python exceptions and results *)

(** The exceptions the module raises or lets through.  [Unmodelled] is not a
    Python exception: it marks an input outside the fragment of Python and
    NumPy that is modelled below (object arrays, operations on two different
    dtypes, casts whose result depends on the platform or on the NumPy
    version). *)
Inductive exn : Type :=
| ValueError
| TypeError
| IndexError
| KeyError
| ZeroDivisionError
| OverflowError
| NotImplementedError
| Unmodelled.

Inductive result (A : Type) : Type :=
| Ok (a : A)
| Raise (e : exn).
Arguments Ok {A} a.
Arguments Raise {A} e.

#[global] Instance exn_eq_dec : EqDecision exn.
Proof. solve_decision. Defined.

#[global] Instance result_ret : MRet result := λ A a, Ok a.
#[global] Instance result_bind : MBind result := λ A B f m,
  match m with Ok a => f a | Raise e => Raise e end.
#[global] Instance result_fmap : FMap result := λ A B f m,
  match m with Ok a => Ok (f a) | Raise e => Raise e end.

Definition is_ok {A} (r : result A) : bool :=
  match r with Ok _ => true | Raise _ => false end.

(** ** Floating point

    Python floats are IEEE binary64 numbers, here the [spec_float]s of the
    format with 53 bits of precision.  [float_of_Z] rounds an integer to the
    nearest float of a format. *)

Definition float_of_Z (prec emax z : Z) : spec_float :=
  binary_normalize prec emax z 0 false.

(** Rounding of a float to the format [(prec, emax)]; exact when the value is
    representable there. *)
Definition round_float (prec emax : Z) (f : spec_float) : spec_float :=
  match f with
  | S754_finite s m e => binary_normalize prec emax (cond_Zopp s (Zpos m)) e s
  | _ => f
  end.

(** The integer part of [m * 2 ^ e], for [m] positive. *)
Definition integer_part (m e : Z) : Z :=
  if 0 <=? e then Z.shiftl m e else Z.shiftr m (- e).

(** [int(f)] of Python: truncation toward zero. *)
Definition py_int (f : spec_float) : result Z :=
  match f with
  | S754_zero _ => Ok 0
  | S754_finite s m e => Ok (cond_Zopp s (integer_part (Zpos m) e))
  | S754_infinity _ => Raise OverflowError
  | S754_nan => Raise ValueError
  end.

(** [a / b] on Python ints under [from __future__ import division]: the
    correctly rounded binary64 quotient. *)
Definition py_truediv (a b : Z) : result spec_float :=
  if b =? 0 then Raise ZeroDivisionError
  else if a =? 0 then Ok (S754_zero (b <? 0))
  else
    let '(mz, ez, lz) := SFdiv_core_binary 53 1024 (Z.abs a) 0 (Z.abs b) 0 in
    match binary_round_aux 53 1024 (xorb (a <? 0) (b <? 0)) mz ez lz with
    | S754_infinity _ => Raise OverflowError
    | q => Ok q
    end.

(** ** The fragment of NumPy the module uses *)

Inductive dtype : Type :=
| bool_
| uint8 | uint16 | uint32 | uint64
| int8 | int16 | int32 | int64
| float16 | float32 | float64.

#[global] Instance dtype_eq_dec : EqDecision dtype.
Proof. solve_decision. Defined.

Inductive kind : Type :=
| KBool
| KUInt (bits : Z)
| KInt (bits : Z)
| KFloat (prec emax : Z).

Definition kind_of (dt : dtype) : kind :=
  match dt with
  | bool_ => KBool
  | uint8 => KUInt 8 | uint16 => KUInt 16 | uint32 => KUInt 32 | uint64 => KUInt 64
  | int8 => KInt 8 | int16 => KInt 16 | int32 => KInt 32 | int64 => KInt 64
  | float16 => KFloat 11 16 | float32 => KFloat 24 128 | float64 => KFloat 53 1024
  end.

(** An array element: an integer (also used for booleans, 0 and 1) or a float
    of the array's format. *)
Inductive elt : Type :=
| EInt (z : Z)
| EFloat (f : spec_float).

Record ndarray : Type := mk_ndarray {
  arr_dtype : dtype;
  arr_shape : list nat;
  arr_data : list elt;
}.

(** Python values that reach the module's entry points. *)
#[warnings="-register-all"]
Inductive pyval : Type :=
| PyNone
| PyBool (b : bool)
| PyInt (z : Z)
| PyFloat (f : spec_float)
| PyStr (s : string)
| PySeq (l : list pyval)
| PyArr (a : ndarray).

Definition isinstance_ndarray (v : pyval) : bool :=
  match v with PyArr _ => true | _ => false end.

(** Wrap-around of an integer into the range of an integer kind. *)
Definition wrap (k : kind) (z : Z) : Z :=
  match k with
  | KUInt n => z mod 2 ^ n
  | KInt n => (z + 2 ^ (n - 1)) mod 2 ^ n - 2 ^ (n - 1)
  | _ => z
  end.

Definition elt_float (prec emax : Z) (x : elt) : spec_float :=
  match x with
  | EInt z => float_of_Z prec emax z
  | EFloat f => round_float prec emax f
  end.

Definition elt_int (x : elt) : Z :=
  match x with
  | EInt z => z
  | EFloat f => match py_int f with Ok z => z | Raise _ => - 2 ^ 63 end
  end.

Definition elt_nonzero (x : elt) : bool :=
  match x with
  | EInt z => negb (z =? 0)
  | EFloat (S754_zero _) => false
  | EFloat _ => true
  end.

(** [astype]: the element-wise C cast of an array.  Integers wrap around
    into an integer type.  A float goes to an integer type by truncation when
    its integer part is in the range of the type; for a NaN, an infinity or
    an integer part out of range the C conversion has no defined result (what
    comes out depends on the platform), so these are left outside the model. *)
Definition cast_elt (k : kind) (x : elt) : result elt :=
  match k, x with
  | KBool, _ => Ok (EInt (if elt_nonzero x then 1 else 0))
  | (KUInt _ | KInt _), EInt z => Ok (EInt (wrap k z))
  | (KUInt _ | KInt _), EFloat f =>
      match py_int f with
      | Ok z => if wrap k z =? z then Ok (EInt z) else Raise Unmodelled
      | Raise _ => Raise Unmodelled
      end
  | KFloat p em, _ => Ok (EFloat (elt_float p em x))
  end.

Fixpoint cast_all (k : kind) (l : list elt) : result (list elt) :=
  match l with
  | [] => Ok []
  | x :: l' => y ← cast_elt k x; r ← cast_all k l'; Ok (y :: r)
  end.

(** Storing a Python scalar into an array of kind [k], as [np.asarray(v,
    dtype=...)] does.  Into an integer type, a float goes through [int(v)]
    (which raises on a NaN or an infinity) and the integer must be in the
    range of the type, or [OverflowError] is raised.  Into a floating-point
    type, a Python int goes through [float(v)], which raises [OverflowError]
    when the int is too large, and the binary64 number is then rounded to the
    type. *)
Definition cast_scalar (k : kind) (x : elt) : result elt :=
  match k, x with
  | KBool, _ => Ok (EInt (if elt_nonzero x then 1 else 0))
  | (KUInt _ | KInt _), EFloat f =>
      z ← py_int f;
      if wrap k z =? z then Ok (EInt z) else Raise OverflowError
  | (KUInt _ | KInt _), EInt z =>
      if wrap k z =? z then Ok (EInt z) else Raise OverflowError
  | KFloat p em, EInt z =>
      match float_of_Z 53 1024 z with
      | S754_infinity _ => Raise OverflowError
      | f => Ok (EFloat (round_float p em f))
      end
  | KFloat p em, EFloat f => Ok (EFloat (round_float p em f))
  end.

(** *** Broadcasting *)

Fixpoint broadcast_rev (s1 s2 : list nat) : option (list nat) :=
  match s1, s2 with
  | [], s | s, [] => Some s
  | a :: s1', b :: s2' =>
      if (a =? b)%nat then cons a <$> broadcast_rev s1' s2'
      else if (a =? 1)%nat then cons b <$> broadcast_rev s1' s2'
      else if (b =? 1)%nat then cons a <$> broadcast_rev s1' s2'
      else None
  end.

Definition broadcast_shapes (s1 s2 : list nat) : option (list nat) :=
  reverse <$> broadcast_rev (reverse s1) (reverse s2).

(** The position, in the data of an operand of (reversed) shape [sh], of the
    element that lands at flat index [i] of the result of (reversed) shape
    [out]. *)
Fixpoint offset_rev (out sh : list nat) (i : nat) : nat :=
  match out, sh with
  | o :: out', d :: sh' =>
      ((if (d =? 1)%nat then 0 else i mod o) + d * offset_rev out' sh' (i / o))%nat
  | _, _ => 0%nat
  end.

Definition numel (sh : list nat) : nat := foldr Nat.mul 1%nat sh.

Definition item (a : ndarray) (out : list nat) (i : nat) : elt :=
  default (EInt 0) (arr_data a !! offset_rev (reverse out) (reverse (arr_shape a)) i).

Definition broadcast2 {A} (f : elt → elt → A) (a b : ndarray) : result (list nat * list A) :=
  match broadcast_shapes (arr_shape a) (arr_shape b) with
  | None => Raise ValueError
  | Some sh => Ok (sh, (λ i, f (item a sh i) (item b sh i)) <$> seq 0 (numel sh))
  end.

(** *** Arithmetic on arrays of one dtype

    The classifier casts the standardisation constants to the dtype of the
    data before it computes with them, so both operands always have the same
    dtype; NumPy's promotion of mixed dtypes is outside the model. *)

Definition sub_elt (k : kind) (x y : elt) : elt :=
  match k with
  | KFloat p em => EFloat (SFsub p em (elt_float p em x) (elt_float p em y))
  | _ => EInt (wrap k (elt_int x - elt_int y))
  end.

Definition div_elt (k : kind) (x y : elt) : elt :=
  match k with
  | KFloat p em => EFloat (SFdiv p em (elt_float p em x) (elt_float p em y))
  | _ => EFloat (SFdiv 53 1024 (elt_float 53 1024 x) (elt_float 53 1024 y))
  end.

(** [a - b]; NumPy refuses to subtract booleans. *)
Definition np_subtract (a b : ndarray) : result ndarray :=
  if decide (arr_dtype a = arr_dtype b) then
    match kind_of (arr_dtype a) with
    | KBool => Raise TypeError
    | k =>
        '(sh, d) ← broadcast2 (sub_elt k) a b;
        Ok (mk_ndarray (arr_dtype a) sh d)
    end
  else Raise Unmodelled.

(** [a / b], true division: floats keep their dtype, integers and booleans
    give [float64]. *)
Definition np_true_divide (a b : ndarray) : result ndarray :=
  if decide (arr_dtype a = arr_dtype b) then
    let k := kind_of (arr_dtype a) in
    '(sh, d) ← broadcast2 (div_elt k) a b;
    Ok (mk_ndarray (match k with KFloat _ _ => arr_dtype a | _ => float64 end) sh d)
  else Raise Unmodelled.

(** *** Building arrays *)

Definition scalar_array (dt : dtype) (x : elt) : ndarray := mk_ndarray dt [] [x].

(** [np.asarray(v, dtype=dt)] for the values a standardisation pair or a clip
    bound may hold: a Python number or an array. *)
Definition np_asarray (v : pyval) (dt : dtype) : result ndarray :=
  match v with
  | PyFloat f => scalar_array dt <$> cast_scalar (kind_of dt) (EFloat f)
  | PyInt z => scalar_array dt <$> cast_scalar (kind_of dt) (EInt z)
  | PyBool b => scalar_array dt <$> cast_scalar (kind_of dt) (EInt (if b then 1 else 0))
  | PyArr a => mk_ndarray dt (arr_shape a) <$> cast_all (kind_of dt) (arr_data a)
  | _ => Raise Unmodelled
  end.

(** The dtype NumPy gives to a sequence of Python numbers. *)
Definition common_dtype (dts : list dtype) : result dtype :=
  match dts with
  | [] => Ok float64
  | dt :: rest =>
      if forallb (λ d, bool_decide (d = dt)) rest then Ok dt
      else if forallb (λ d, bool_decide (d ∈ [bool_; int64; float64])) dts then
        Ok (if existsb (λ d, bool_decide (d = float64)) dts then float64 else int64)
      else Raise Unmodelled
  end.

Fixpoint cast_rows (k : kind) (rows : list ndarray) : result (list elt) :=
  match rows with
  | [] => Ok []
  | a :: rows' => d ← cast_all k (arr_data a); r ← cast_rows k rows'; Ok (d ++ r)
  end.

Definition np_stack (rows : list ndarray) : result ndarray :=
  match rows with
  | [] => Ok (mk_ndarray float64 [0%nat] [])
  | r :: rest =>
      if forallb (λ a, bool_decide (arr_shape a = arr_shape r)) rest then
        dt ← common_dtype (arr_dtype <$> rows);
        mk_ndarray dt (length rows :: arr_shape r) <$> cast_rows (kind_of dt) rows
      else Raise ValueError
  end.

(** [np.array(v)]: an array is kept, a number becomes a 0-d array, a nested
    sequence of numbers an array of one more dimension. *)
Fixpoint np_array (v : pyval) : result ndarray :=
  match v with
  | PyArr a => Ok a
  | PyFloat f => Ok (scalar_array float64 (EFloat f))
  | PyInt z =>
      if wrap (KInt 64) z =? z then Ok (scalar_array int64 (EInt z)) else Raise Unmodelled
  | PyBool b => Ok (scalar_array bool_ (EInt (if b then 1 else 0)))
  | PySeq l =>
      rows ← (fix go (l : list pyval) : result (list ndarray) :=
                match l with
                | [] => Ok []
                | v :: l' => a ← np_array v; r ← go l'; Ok (a :: r)
                end) l;
      np_stack rows
  | PyNone | PyStr _ => Raise Unmodelled
  end.

(** [a.any()] *)
Definition np_any (a : ndarray) : bool := existsb elt_nonzero (arr_data a).

(** *** Comparison of clip bounds *)

(** The order of the integer [z] and the number [f] stands for, both taken
    exactly; there is none when [f] is a NaN. *)
Definition compare_Z_float (z : Z) (f : spec_float) : option comparison :=
  match f with
  | S754_nan => None
  | S754_infinity s => Some (if s then Gt else Lt)
  | S754_zero _ => Some (z ?= 0)
  | S754_finite s m e =>
      let v := cond_Zopp s (Zpos m) in
      Some (if 0 <=? e then z ?= v * 2 ^ e else z * 2 ^ (- e) ?= v)
  end.

(** [x >= y] and [x < y] on two numbers.  An integer and a float are
    compared by their exact values, as Python does; two floats as IEEE
    numbers, so every comparison with a NaN is false. *)
Definition ge_elt (x y : elt) : bool :=
  match x, y with
  | EInt a, EInt b => b <=? a
  | EInt a, EFloat g =>
      match compare_Z_float a g with Some (Eq | Gt) => true | _ => false end
  | EFloat f, EInt b =>
      match compare_Z_float b f with Some (Eq | Lt) => true | _ => false end
  | EFloat f, EFloat g => SFleb (round_float 53 1024 g) (round_float 53 1024 f)
  end.

Definition lt_elt (x y : elt) : bool :=
  match x, y with
  | EInt a, EInt b => a <? b
  | EInt a, EFloat g =>
      match compare_Z_float a g with Some Lt => true | _ => false end
  | EFloat f, EInt b =>
      match compare_Z_float b f with Some Gt => true | _ => false end
  | EFloat f, EFloat g => SFltb (round_float 53 1024 f) (round_float 53 1024 g)
  end.

Definition number (v : pyval) : option elt :=
  match v with
  | PyBool b => Some (EInt (if b then 1 else 0))
  | PyInt z => Some (EInt z)
  | PyFloat f => Some (EFloat f)
  | _ => None
  end.

(** The operand of a comparison with an array, as an array: a number counts
    as 0-d (the dtype written here plays no part, see [comparison_casts]).
    [None] cannot be ordered with anything; strings and sequences have an
    order of their own, which is outside the model. *)
Definition operand (v : pyval) : result ndarray :=
  match v with
  | PyArr a => Ok a
  | PySeq _ | PyStr _ => Raise Unmodelled
  | _ => match number v with Some x => Ok (scalar_array float64 x) | None => Raise TypeError end
  end.

Definition bool_array (sh : list nat) (bs : list bool) : ndarray :=
  mk_ndarray bool_ sh ((λ b : bool, EInt (if b then 1 else 0)) <$> bs).

Definition to_float64 (x : elt) : elt := EFloat (elt_float 53 1024 x).

(** What NumPy converts the elements of an array of dtype [dt] and a Python
    number [v] to before it compares them: the conversion of the elements
    first, that of the number second.
    - A Python float meets a [float64] array as it is, and turns an integer
      or boolean array into [float64], which rounds 64-bit integers.
    - A Python int in the range of an integer array is compared exactly; one
      in the range of [int64] is compared exactly with a boolean array and is
      rounded to [float64] with a [float64] array.
    - A Python bool counts as a boolean 0-d array.
    The other combinations (Python ints out of range, [float16] and [float32]
    arrays against Python numbers) do not come out the same in every NumPy
    version and are outside the model. *)
Definition scalar_casts (dt : dtype) (v : pyval) : result ((elt → elt) * (elt → elt)) :=
  match v, kind_of dt with
  | PyBool _, KBool => Ok (id, id)
  | PyInt z, (KUInt _ | KInt _) =>
      if wrap (kind_of dt) z =? z then Ok (id, id) else Raise Unmodelled
  | PyInt z, KBool =>
      if wrap (KInt 64) z =? z then Ok (id, id) else Raise Unmodelled
  | PyInt z, KFloat _ _ =>
      if bool_decide (dt = float64) && (wrap (KInt 64) z =? z)
      then Ok (id, to_float64) else Raise Unmodelled
  | PyFloat _, KFloat _ _ =>
      if bool_decide (dt = float64) then Ok (id, id) else Raise Unmodelled
  | PyFloat _, (KBool | KUInt _ | KInt _) => Ok (to_float64, id)
  | _, _ => Raise Unmodelled
  end.

(** The conversions of the left and of the right operand of a comparison in
    which an array takes part.  Two arrays of one dtype are compared as they
    are; NumPy's promotion of two different dtypes is outside the model. *)
Definition comparison_casts (a b : pyval) : result ((elt → elt) * (elt → elt)) :=
  match a, b with
  | PyArr x, PyArr y =>
      if decide (arr_dtype x = arr_dtype y) then Ok (id, id) else Raise Unmodelled
  | PyArr x, v => scalar_casts (arr_dtype x) v
  | v, PyArr y => '(f, g) ← scalar_casts (arr_dtype y) v; Ok (g, f)
  | _, _ => Raise Unmodelled
  end.

(** [a >= b]: a Python bool for two numbers, a boolean array when an array is
    involved; the shapes are broadcast, the elements converted and then
    compared. *)
Definition py_ge (a b : pyval) : result pyval :=
  match number a, number b with
  | Some x, Some y => Ok (PyBool (ge_elt x y))
  | _, _ =>
      x ← operand a; y ← operand b;
      '(sh, ps) ← broadcast2 pair x y;
      '(f, g) ← comparison_casts a b;
      Ok (PyArr (bool_array sh ((λ p : elt * elt, ge_elt (f p.1) (g p.2)) <$> ps)))
  end.

(** [t[i]] on a tuple or list. *)
Definition getitem {A} (t : list A) (i : nat) : result A :=
  match t !! i with Some v => Ok v | None => Raise IndexError end.

(** [a, b = t] *)
Definition unpack2 {A} (t : list A) : result (A * A) :=
  match t with [a; b] => Ok (a, b) | _ => Raise ValueError end.

(** A defence argument of the constructor: one defence or a list. *)
Inductive one_or_list (A : Type) : Type :=
| Single (a : A)
| Many (l : list A).
Arguments Single {A} a.
Arguments Many {A} l.

Definition as_list {A} (d : option (one_or_list A)) : option (list A) :=
  match d with
  | Some (Single a) => Some [a]
  | Some (Many l) => Some l
  | None => None
  end.

(** ** Collaborators, events and the monad of the embedding *)

Section Embedding.
Context {B : Type}.

(** The store of array objects and the state [B] of whatever lies behind the
    abstract methods, the defences and the data generator. *)
Definition loc := positive.

Record world : Type := mk_world {
  w_heap : gmap loc ndarray;
  w_ext : B;
}.

(** A call into a collaborator: it may change the world and may raise. *)
Definition ext (A : Type) : Type := world → result A * world.

(** A preprocessing defence: [defence(x, y)], [defence.estimate_gradient(x,
    gradients)] and the two flags. *)
Record Preprocessor : Type := {
  pre_apply_fit : bool;
  pre_apply_predict : bool;
  pre_call : ndarray → option ndarray → ext (ndarray * option ndarray);
  pre_estimate_gradient : ndarray → ndarray → ext ndarray;
}.

(** A postprocessing defence: [defence(preds)] on an array object. *)
Record Postprocessor : Type := {
  post_apply_fit : bool;
  post_apply_predict : bool;
  post_call : loc → ext loc;
}.

(** What the classes do that can be observed from outside: calls to the
    defences ([defence(x, y)], [defence.estimate_gradient(x, gradients)],
    [defence(preds)]), the arithmetic of standardisation ([np.asarray(v,
    dtype=dt)], [a - b], [a / b]), and calls to [self.nb_classes()],
    [self.layer_names], [generator.get_batch()] and [self.fit(x, y,
    nb_epochs=..., batch_size=..., **kwargs)]. *)
Inductive event : Type :=
| EvDefence (d : Preprocessor)
| EvEstimateGradient (d : Preprocessor)
| EvPostDefence (d : Postprocessor)
| EvAsarray (v : pyval) (dt : dtype)
| EvSubtract (a b : ndarray)
| EvTrueDivide (a b : ndarray)
| EvNbClasses
| EvLayerNames
| EvGetBatch
| EvFit (x : ndarray) (y : option ndarray) (batch_size nb_epochs : Z)
    (kwargs : gmap string pyval).

(** A computation: from a world to a result, the world it leaves and the
    events it caused, oldest first.  An exception ends the computation and
    keeps the world and the events reached. *)
Definition M (A : Type) : Type := world → result A * world * list event.

#[global] Instance M_ret : MRet M := λ A a w, (Ok a, w, []).
#[global] Instance M_bind : MBind M := λ A A' f m w,
  match m w with
  | (Ok a, w', t) => let '(r, w'', t') := f a w' in (r, w'', t ++ t')
  | (Raise e, w', t) => (Raise e, w', t)
  end.

Definition raise {A} (e : exn) : M A := λ w, (Raise e, w, []).
Definition lift {A} (r : result A) : M A := λ w, (r, w, []).

(** A call to a collaborator, logged as [e]. *)
Definition call {A} (e : event) (f : ext A) : M A :=
  λ w, let '(r, w') := f w in (r, w', [e]).

(** A NumPy operation on array values, logged as [e]. *)
Definition numpy {A} (e : event) (r : result A) : M A := λ w, (r, w, [e]).

Definition outcome {A} (x : result A * world * list event) : result A := x.1.1.
Definition final {A} (x : result A * world * list event) : world := x.1.2.
Definition events {A} (x : result A * world * list event) : list event := x.2.

(** [for a in l: s = body(a, s)] *)
Fixpoint for_each {A S} (l : list A) (body : A → S → M S) (s : S) : M S :=
  match l with
  | [] => mret s
  | a :: l' => s' ← body a s; for_each l' body s'
  end.

(** [for _ in range(n): body] *)
Fixpoint repeatM (n : nat) (body : M unit) : M unit :=
  match n with
  | O => mret ()
  | S n' => body;; repeatM n' body
  end.

Definition for_range (n : Z) (body : M unit) : M unit := repeatM (Z.to_nat n) body.

(** ** The classes *)

(** What the concrete classifier supplies: the abstract methods
    [nb_classes] and [fit], and its own [layer_names] if it overrides the
    property. *)
Record Subclass : Type := {
  impl_nb_classes : ext Z;
  impl_fit : ndarray → option ndarray → Z → Z → gmap string pyval → ext unit;
  impl_layer_names : option (ext (list string));
}.

(** The attributes [Classifier.__init__] sets. *)
Record Classifier : Type := {
  cls : Subclass;
  _clip_values : option (list pyval);
  preprocessing_defences : option (list Preprocessor);
  postprocessing_defences : option (list Postprocessor);
  preprocessing : option (list pyval);
}.

(** The data generator: [size], [batch_size] and [get_batch()]. *)
Record DataGenerator : Type := {
  gen_size : Z;
  gen_batch_size : Z;
  get_batch : ext (ndarray * ndarray);
}.

(** *** [Classifier.__init__] *)

Definition Classifier__init__ (k : Subclass)
    (clip_values : option (list pyval))
    (preprocessing_defences : option (one_or_list Preprocessor))
    (postprocessing_defences : option (one_or_list Postprocessor))
    (preprocessing : option (list pyval)) : result Classifier :=
  match clip_values with
  | Some cv =>
      if negb (length cv =? 2)%nat then Raise ValueError
      else
        lo ← getitem cv 0;
        hi ← getitem cv 1;
        c ← py_ge lo hi;
        a ← np_array c;
        if np_any a then Raise ValueError else Ok ()
  | None => Ok ()
  end;;
  match preprocessing with
  | Some p => if negb (length p =? 2)%nat then Raise ValueError else Ok ()
  | None => Ok ()
  end;;
  Ok {| cls := k;
        _clip_values := clip_values;
        preprocessing_defences := as_list preprocessing_defences;
        postprocessing_defences := as_list postprocessing_defences;
        preprocessing := preprocessing |}.

(** *** The forward pipeline *)

(** [check_and_transform_label_format] of [art.utils], which this file of the
    repository imports. *)
Context (check_and_transform_label_format : option ndarray → Z → result (option ndarray)).

Definition _apply_preprocessing_defences (self : Classifier)
    (x : ndarray) (y : option ndarray) (fit : bool) : M (ndarray * option ndarray) :=
  match preprocessing_defences self with
  | Some ds =>
      for_each ds (λ defence '(x, y),
        if fit then
          if pre_apply_fit defence
          then call (EvDefence defence) (pre_call defence x y)
          else mret (x, y)
        else
          if pre_apply_predict defence
          then call (EvDefence defence) (pre_call defence x y)
          else mret (x, y)) (x, y)
  | None => mret (x, y)
  end.

Definition _apply_preprocessing_standardisation (self : Classifier)
    (x : ndarray) : M ndarray :=
  if bool_decide (arr_dtype x ∈ [uint8; uint16; uint32; uint64]) then raise TypeError
  else
    match preprocessing self with
    | Some p =>
        '(sub, div) ← lift (unpack2 p);
        sub ← numpy (EvAsarray sub (arr_dtype x)) (np_asarray sub (arr_dtype x));
        div ← numpy (EvAsarray div (arr_dtype x)) (np_asarray div (arr_dtype x));
        res ← numpy (EvSubtract x sub) (np_subtract x sub);
        res ← numpy (EvTrueDivide res div) (np_true_divide res div);
        mret res
    | None => mret x
    end.

Definition _apply_preprocessing (self : Classifier)
    (x : ndarray) (y : option ndarray) (fit : bool) : M (ndarray * option ndarray) :=
  n ← call EvNbClasses (impl_nb_classes (cls self));
  y ← lift (check_and_transform_label_format y n);
  '(x_preprocessed, y_preprocessed) ← _apply_preprocessing_defences self x y fit;
  x_preprocessed ← _apply_preprocessing_standardisation self x_preprocessed;
  mret (x_preprocessed, y_preprocessed).

(** *** The postprocessing pipeline, on array objects *)

(** [preds.copy()]: a new array object with the same contents. *)
Definition ndarray_copy (l : loc) : M loc := λ w,
  match w_heap w !! l with
  | Some a =>
      let l' := fresh (dom (w_heap w)) in
      (Ok l', mk_world (<[l' := a]> (w_heap w)) (w_ext w), [])
  | None => (Raise Unmodelled, w, [])
  end.

Definition _apply_postprocessing (self : Classifier) (preds : loc) (fit : bool) : M loc :=
  post_preds ← ndarray_copy preds;
  match postprocessing_defences self with
  | Some ds =>
      for_each ds (λ defence post_preds,
        if fit then
          if post_apply_fit defence
          then call (EvPostDefence defence) (post_call defence post_preds)
          else mret post_preds
        else
          if post_apply_predict defence
          then call (EvPostDefence defence) (post_call defence post_preds)
          else mret post_preds) post_preds
  | None => mret post_preds
  end.

(** *** [ClassifierNeuralNetwork] *)

(** The loop bound [int(generator.size / generator.batch_size)]. *)
Definition nb_batches (generator : DataGenerator) : result Z :=
  q ← py_truediv (gen_size generator) (gen_batch_size generator);
  py_int q.

(** The call [self.fit(x, y, nb_epochs=1, batch_size=batch_size, **kwargs)].
    Python refuses the call, before [fit] is entered, when [kwargs] names
    [nb_epochs] or [batch_size] a second time.  [self.fit] is then the method
    of the concrete classifier behind the wrapper of [input_filter]; the
    wrapper leaves the positional arrays as they are, and would rewrite
    keyword arguments called [x] and [y], which are outside the model. *)
Definition call_fit (self : Classifier) (x : ndarray) (y : option ndarray)
    (batch_size : Z) (kwargs : gmap string pyval) : M unit :=
  if bool_decide (is_Some (kwargs !! "nb_epochs") ∨ is_Some (kwargs !! "batch_size"))
  then raise TypeError
  else if bool_decide (is_Some (kwargs !! "x") ∨ is_Some (kwargs !! "y"))
  then raise Unmodelled
  else call (EvFit x y batch_size 1 kwargs) (impl_fit (cls self) x y batch_size 1 kwargs).

Definition fit_generator (self : Classifier) (generator : DataGenerator)
    (nb_epochs : Z) (kwargs : gmap string pyval) : M unit :=
  for_range nb_epochs (
    n ← lift (nb_batches generator);
    for_range n (
      '(x, y) ← call EvGetBatch (get_batch generator);
      '(x_preprocessed, y_preprocessed) ← _apply_preprocessing self x (Some y) true;
      call_fit self x_preprocessed y_preprocessed (gen_batch_size generator) kwargs)).

(** [ClassifierNeuralNetwork.__init__(self, channel_index=None, **kwargs)] in
    a class whose next constructor in the method resolution order is that of
    [Classifier], as in [ClassifierNeuralNetworkType]: it keeps
    [channel_index] and calls [super().__init__()] without arguments, so what
    [kwargs] holds goes no further and [Classifier.__init__] runs on its
    defaults. *)
Record InitKwargs : Type := {
  kw_clip_values : option (list pyval);
  kw_preprocessing_defences : option (one_or_list Preprocessor);
  kw_postprocessing_defences : option (one_or_list Postprocessor);
  kw_preprocessing : option (list pyval);
}.

Record NeuralNetwork : Type := {
  classifier : Classifier;
  _channel_index : option Z;
}.

Definition ClassifierNeuralNetwork__init__ (k : Subclass)
    (channel_index : option Z) (kwargs : InitKwargs) : result NeuralNetwork :=
  self ← Classifier__init__ k None None None None;
  Ok {| classifier := self; _channel_index := channel_index |}.

(** The property as [ClassifierNeuralNetwork] defines it. *)
Definition ClassifierNeuralNetwork_layer_names : M (list string) :=
  raise NotImplementedError.

(** Reading [self.layer_names]: the override of the concrete class if it has
    one, the definition of the base class otherwise. *)
Definition layer_names (self : Classifier) : M (list string) :=
  match impl_layer_names (cls self) with
  | Some f => call EvLayerNames f
  | None => ClassifierNeuralNetwork_layer_names
  end.

(** *** [ClassifierGradients]: the backward pipeline *)

Definition _apply_preprocessing_defences_gradient (self : Classifier)
    (x gradients : ndarray) (fit : bool) : M ndarray :=
  match preprocessing_defences self with
  | Some ds =>
      for_each (reverse ds) (λ defence gradients,
        if fit then
          if pre_apply_fit defence
          then call (EvEstimateGradient defence) (pre_estimate_gradient defence x gradients)
          else mret gradients
        else
          if pre_apply_predict defence
          then call (EvEstimateGradient defence) (pre_estimate_gradient defence x gradients)
          else mret gradients) gradients
  | None => mret gradients
  end.

Definition _apply_preprocessing_normalization_gradient (self : Classifier)
    (gradients : ndarray) : M ndarray :=
  match preprocessing self with
  | Some p =>
      '(_, div) ← lift (unpack2 p);
      div ← numpy (EvAsarray div (arr_dtype gradients)) (np_asarray div (arr_dtype gradients));
      res ← numpy (EvTrueDivide gradients div) (np_true_divide gradients div);
      mret res
  | None => mret gradients
  end.

Definition _apply_preprocessing_gradient (self : Classifier)
    (x gradients : ndarray) : M ndarray :=
  gradients ← _apply_preprocessing_normalization_gradient self gradients;
  gradients ← _apply_preprocessing_defences_gradient self x gradients false;
  mret gradients.

(** *** The metaclass [input_filter]

    A method takes the positional and the keyword arguments of a call; the
    receiver [self] is passed through unchanged and is left out. *)
Definition method : Type := list pyval → gmap string pyval → M pyval.

Definition is_none (v : pyval) : bool :=
  match v with PyNone => true | _ => false end.

(** [make_replacement(fdict, func_name, has_y)]: the function it returns.
    [lst] is bound only when there are positional arguments; it is read only
    after [args[0]] or [args[1]] was, which raises when there are none. *)
Definition make_replacement (fdict : gmap string method) (func_name : string)
    (has_y : bool) : method := λ args kwargs,
  let lst := args in
  '(lst, kwargs) ←
    match kwargs !! "x" with
    | Some vx =>
        if negb (isinstance_ndarray vx)
        then a ← lift (np_array vx); mret (lst, <["x" := PyArr a]> kwargs)
        else mret (lst, kwargs)
    | None =>
        a0 ← lift (getitem args 0);
        if negb (isinstance_ndarray a0)
        then a ← lift (np_array a0); mret (<[0%nat := PyArr a]> lst, kwargs)
        else mret (lst, kwargs)
    end;
  '(lst, kwargs) ←
    match kwargs !! "y" with
    | Some vy =>
        if negb (is_none vy) && negb (isinstance_ndarray vy)
        then a ← lift (np_array vy); mret (lst, <["y" := PyArr a]> kwargs)
        else mret (lst, kwargs)
    | None =>
        if has_y then
          a1 ← lift (getitem args 1);
          if negb (isinstance_ndarray a1)
          then a ← lift (np_array a1); mret (<[1%nat := PyArr a]> lst, kwargs)
          else mret (lst, kwargs)
        else mret (lst, kwargs)
    end;
  let args := if (0 <? length args)%nat then lst else args in
  match fdict !! func_name with
  | Some f => f args kwargs
  | None => raise KeyError
  end.

Definition replacement_list_no_y : list string :=
  ["predict"; "get_activations"; "class_gradient"]%string.
Definition replacement_list_has_y : list string :=
  ["fit"; "loss_gradient"]%string.

(** [input_filter.__init__(cls, name, bases, clsdict)]: the attributes of the
    class once the metaclass has run. *)
Definition input_filter (clsdict : gmap string method) : gmap string method :=
  let replace (has_y : bool) (attrs : gmap string method) (item : string) :=
    if bool_decide (is_Some (clsdict !! item))
    then <[item := make_replacement clsdict item has_y]> attrs
    else attrs in
  foldl (replace true) (foldl (replace false) clsdict replacement_list_no_y)
    replacement_list_has_y.

(** The body the base classes give to [predict], [fit], [get_activations],
    [class_gradient] and [loss_gradient] (and to their other abstract
    methods): [raise NotImplementedError]. *)
Definition abstract_method : method := λ _ _, raise NotImplementedError.

End Embedding.

(** ** What a run shows

    The vocabulary of the properties: which defences a pipeline selects, and
    which collaborators a list of events says were called, in order. *)

Section Observations.
Context {B : Type}.

(** The flag test of the pipelines: [apply_fit] in fit mode, [apply_predict]
    otherwise. *)
Definition pre_selected (fit : bool) (d : @Preprocessor B) : bool :=
  if fit then pre_apply_fit d else pre_apply_predict d.

Definition post_selected (fit : bool) (d : @Postprocessor B) : bool :=
  if fit then post_apply_fit d else post_apply_predict d.

(** The configured defences; none when the attribute is [None]. *)
Definition defences_of (self : @Classifier B) : list Preprocessor :=
  default [] (preprocessing_defences self).

Definition post_defences_of (self : @Classifier B) : list Postprocessor :=
  default [] (postprocessing_defences self).

(** The preprocessing defences called forward, oldest first. *)
Definition applied (evs : list (@event B)) : list Preprocessor :=
  omap (λ e, match e with EvDefence d => Some d | _ => None end) evs.

(** The defences whose [estimate_gradient] was called, oldest first. *)
Definition estimated (evs : list (@event B)) : list Preprocessor :=
  omap (λ e, match e with EvEstimateGradient d => Some d | _ => None end) evs.

(** The postprocessing defences called, oldest first. *)
Definition post_applied (evs : list (@event B)) : list Postprocessor :=
  omap (λ e, match e with EvPostDefence d => Some d | _ => None end) evs.

(** Whether an event is arithmetic on arrays. *)
Definition is_arithmetic (e : @event B) : bool :=
  match e with
  | EvAsarray _ _ | EvSubtract _ _ | EvTrueDivide _ _ => true
  | _ => false
  end.

(** A loop body that calls a collaborator for the selected items and skips
    the others. *)
Definition guarded {A S} (sel : A → bool) (ev : A → @event B)
    (act : A → S → ext S) : A → S → M S :=
  λ a s, if sel a then call (ev a) (act a s) else mret s.

(** The dtypes the standardisation step refuses, and those it computes on. *)
Definition is_unsigned (dt : dtype) : Prop := dt ∈ [uint8; uint16; uint32; uint64].
Definition is_signed_numeric (dt : dtype) : Prop :=
  dt ∈ [int8; int16; int32; int64; float16; float32; float64].

(** [(x - subtract) / divide], with [subtract] and [divide] cast to the
    element type of [x]. *)
Definition standardise (subtract divide : pyval) (x : ndarray) : result ndarray :=
  s ← np_asarray subtract (arr_dtype x);
  d ← np_asarray divide (arr_dtype x);
  r ← np_subtract x s;
  np_true_divide r d.

(** The pairs of numbers that [lo >= hi] compares: one pair for two Python
    numbers; when an array is involved, the broadcast pairs of elements after
    NumPy's conversion of the two sides. *)
Definition pairs (lo hi : pyval) : result (list (elt * elt)) :=
  match number lo, number hi with
  | Some x, Some y => Ok [(x, y)]
  | _, _ =>
      x ← operand lo; y ← operand hi;
      ps ← snd <$> broadcast2 pair x y;
      '(f, g) ← comparison_casts lo hi;
      Ok ((λ p : elt * elt, (f p.1, g p.2)) <$> (ps : list (elt * elt)))
  end.

(** A clip bound or standardisation constant of the documented type: a number
    or an array. *)
Definition is_bound (v : pyval) : bool :=
  match v with
  | PyBool _ | PyInt _ | PyFloat _ | PyArr _ => true
  | _ => false
  end.

(** How a caller passes the primary input [x] of [predict],
    [get_activations] and [class_gradient]: positionally, possibly followed
    by further positional arguments, or by keyword. *)
Inductive passing : Type := Positional | Keyword.

Definition call_x (px : passing) (x : pyval) (rest : list pyval)
    (kw : gmap string pyval) : list pyval * gmap string pyval :=
  match px with
  | Positional => (x :: rest, kw)
  | Keyword => ([], <["x" := x]> kw)
  end.

(** How a caller passes [x] and [y] to [fit] and [loss_gradient]: both
    positionally, [x] positionally and [y] by keyword, or both by keyword. *)
Inductive passing_xy : Type := BothPositional | KeywordY | BothKeyword.

Definition call_xy (form : passing_xy) (x y : pyval) (rest : list pyval)
    (kw : gmap string pyval) : list pyval * gmap string pyval :=
  match form with
  | BothPositional => (x :: y :: rest, kw)
  | KeywordY => ([x], <["y" := y]> kw)
  | BothKeyword => ([], <["x" := x]> (<["y" := y]> kw))
  end.

(** One round of [fit_generator]: pull a batch, run it through the forward
    pipeline in fit mode, fit on it with [nb_epochs=1] and the batch size of
    the generator. *)
Definition train_on_batch
    (label_format : option ndarray → Z → result (option ndarray))
    (self : @Classifier B) (generator : @DataGenerator B)
    (kwargs : gmap string pyval) : M unit :=
  '(x, y) ← call EvGetBatch (get_batch generator);
  '(x_preprocessed, y_preprocessed) ← _apply_preprocessing label_format self x (Some y) true;
  call_fit self x_preprocessed y_preprocessed (gen_batch_size generator) kwargs.

(** The keyword arguments [fit_generator] passes to [fit] itself. *)
Definition passed_twice (kwargs : gmap string pyval) : Prop :=
  is_Some (kwargs !! "nb_epochs") ∨ is_Some (kwargs !! "batch_size").

(** The number of batches pulled, and the [(batch_size, nb_epochs)] of the
    calls to [fit], oldest first. *)
Definition pulls (evs : list (@event B)) : nat :=
  length (omap (λ e, match e with EvGetBatch => Some () | _ => None end) evs).

Definition fits (evs : list (@event B)) : list (Z * Z) :=
  omap (λ e, match e with EvFit _ _ bs ne _ => Some (bs, ne) | _ => None end) evs.

(** A postprocessing defence that keeps to its argument: it writes to no
    array object other than the one it is given and those it creates, and it
    returns one of these. *)
Definition keeps_to_argument (d : @Postprocessor B) : Prop :=
  ∀ l w,
    (∀ k, k ≠ l → is_Some (w_heap w !! k) →
       w_heap (post_call d l w).2 !! k = w_heap w !! k) ∧
    (∀ l', (post_call d l w).1 = Ok l' → l' = l ∨ w_heap w !! l' = None).

(** The events the forward pipeline can cause. *)
Definition is_pipeline_event (e : @event B) : bool :=
  match e with
  | EvNbClasses | EvDefence _ | EvAsarray _ _ | EvSubtract _ _ | EvTrueDivide _ _ => true
  | _ => false
  end.

(** Where a replacement function looks for the primary input: under the
    keyword [x] if it is given, in the first positional argument otherwise. *)
Definition found_x (args : list pyval) (kwargs : gmap string pyval) : option pyval :=
  match kwargs !! "x" with
  | Some v => Some v
  | None => args !! 0%nat
  end.

(** A call in which a replacement function finds nothing to convert: the
    primary input is an array, and the labels, looked for under the keyword
    [y] and, for [fit] and [loss_gradient], in the second positional argument
    otherwise, are an array or the keyword value [None]. *)
Definition nothing_to_coerce (has_y : bool) (args : list pyval)
    (kwargs : gmap string pyval) : bool :=
  match found_x args kwargs with
  | Some v => isinstance_ndarray v
  | None => false
  end &&
  match kwargs !! "y" with
  | Some v => is_none v || isinstance_ndarray v
  | None =>
      if has_y then
        match args !! 1%nat with
        | Some v => isinstance_ndarray v
        | None => false
        end
      else true
  end.

(** The arguments a replacement function hands to the method it wraps:
    the primary input and then the labels, where they are looked for, are
    converted with [np.array] unless they are arrays (or the keyword [y] is
    [None]). *)
Definition coerced_x (args : list pyval) (kwargs : gmap string pyval)
    : result (list pyval * gmap string pyval) :=
  match kwargs !! "x" with
  | Some vx =>
      if isinstance_ndarray vx then Ok (args, kwargs)
      else a ← np_array vx; Ok (args, <["x" := PyArr a]> kwargs)
  | None =>
      a0 ← getitem args 0;
      if isinstance_ndarray a0 then Ok (args, kwargs)
      else a ← np_array a0; Ok (<[0%nat := PyArr a]> args, kwargs)
  end.

Definition coerced_y (has_y : bool) (args lst : list pyval) (kwargs : gmap string pyval)
    : result (list pyval * gmap string pyval) :=
  match kwargs !! "y" with
  | Some vy =>
      if is_none vy || isinstance_ndarray vy then Ok (lst, kwargs)
      else a ← np_array vy; Ok (lst, <["y" := PyArr a]> kwargs)
  | None =>
      if has_y then
        a1 ← getitem args 1;
        if isinstance_ndarray a1 then Ok (lst, kwargs)
        else a ← np_array a1; Ok (<[1%nat := PyArr a]> lst, kwargs)
      else Ok (lst, kwargs)
  end.

Definition coerced (has_y : bool) (args : list pyval) (kwargs : gmap string pyval)
    : result (list pyval * gmap string pyval) :=
  '(lst, kwargs) ← coerced_x args kwargs;
  coerced_y has_y args lst kwargs.

(** An element that is an infinity or a NaN. *)
Definition not_finite (v : elt) : bool :=
  match v with
  | EFloat (S754_infinity _) | EFloat S754_nan => true
  | _ => false
  end.

(** The classifier [self] with [ds] as its list of preprocessing defences. *)
Definition with_defences (self : @Classifier B) (ds : list Preprocessor) : Classifier :=
  {| cls := cls self;
     _clip_values := _clip_values self;
     preprocessing_defences := Some ds;
     postprocessing_defences := postprocessing_defences self;
     preprocessing := preprocessing self |}.

End Observations.

(** ** Concrete collaborators and inputs

    A world with no state behind the collaborators, used to run the
    embedding on the scenarios of the specification. *)

(** The binary64 number [m * 2 ^ e]. *)
Definition f64 (m e : Z) : spec_float := binary_normalize 53 1024 m e false.

Definition ex_world : @world unit := mk_world ∅ ().

(** A classifier with two classes whose [fit] does nothing and which does not
    override [layer_names]. *)
Definition ex_backend : @Subclass unit :=
  {| impl_nb_classes := λ w, (Ok 2, w);
     impl_fit := λ _ _ _ _ _ w, (Ok (), w);
     impl_layer_names := None |}.

Definition one_hot (nb_classes : Z) (label : elt) : list elt :=
  (λ j : nat, EFloat (if Z.of_nat j =? elt_int label
                      then S754_finite false 8388608 (-23)
                      else S754_zero false)) <$> seq 0 (Z.to_nat nb_classes).

(** Modelled from the spec: [check_and_transform_label_format] of
    [art.utils], which is not among the sources.  The specification says that
    it normalises an index-encoded label array of length [N] to an [N x C]
    one-hot array given the class count [C], that it leaves a one-hot array
    unchanged, and that it does nothing when [y] is absent. *)
Definition check_and_transform_label_format (y : option ndarray) (nb_classes : Z)
    : result (option ndarray) :=
  match y with
  | None => Ok None
  | Some a =>
      match arr_shape a with
      | [n] =>
          Ok (Some (mk_ndarray float32 [n; Z.to_nat nb_classes]
                      (concat (one_hot nb_classes <$> arr_data a))))
      | [_; _] => Ok (Some a)
      | _ => Raise ValueError
      end
  end.

(** The scenario of the specification: [clip_values=(0.0, 1.0)], no defences,
    [preprocessing=(0.5, 0.5)]. *)
Definition scenario_classifier : @Classifier unit :=
  {| cls := ex_backend;
     _clip_values := Some [PyFloat (S754_zero false); PyFloat (f64 1 0)];
     preprocessing_defences := None;
     postprocessing_defences := None;
     preprocessing := Some [PyFloat (f64 1 (-1)); PyFloat (f64 1 (-1))] |}.

(** [x = [[1.0, 0.0]]] as the caller writes it, and as an array. *)
Definition scenario_input : pyval :=
  PySeq [PySeq [PyFloat (f64 1 0); PyFloat (S754_zero false)]].
Definition scenario_x : ndarray :=
  mk_ndarray float64 [1; 2]%nat [EFloat (f64 1 0); EFloat (S754_zero false)].

(** [[[1.0, -1.0]]] *)
Definition scenario_expected : ndarray :=
  mk_ndarray float64 [1; 2]%nat [EFloat (f64 1 0); EFloat (f64 (-1) 0)].

(** The same input as bytes, [dtype=uint8]. *)
Definition ex_uint8 : ndarray := mk_ndarray uint8 [1; 2]%nat [EInt 255; EInt 0].

(** The scenario's classifier without a standardisation pair. *)
Definition ex_plain_classifier : @Classifier unit :=
  {| cls := ex_backend;
     _clip_values := None;
     preprocessing_defences := None;
     postprocessing_defences := None;
     preprocessing := None |}.

(** Two preprocessing defences active in both modes: [scenario_D1] returns
    its input, [scenario_D2] casts it to [float32]; their gradient estimates
    pass the gradient on. *)
Definition scenario_D1 : @Preprocessor unit :=
  {| pre_apply_fit := true;
     pre_apply_predict := true;
     pre_call := λ x y w, (Ok (x, y), w);
     pre_estimate_gradient := λ x g w, (Ok g, w) |}.

Definition scenario_D2 : @Preprocessor unit :=
  {| pre_apply_fit := true;
     pre_apply_predict := true;
     pre_call := λ x y w,
       (Ok (mk_ndarray float32 (arr_shape x)
              ((λ v, EFloat (elt_float 24 128 v)) <$> arr_data x), y), w);
     pre_estimate_gradient := λ x g w, (Ok g, w) |}.

(** A defence applied when fitting only. *)
Definition ex_fit_only : @Preprocessor unit :=
  {| pre_apply_fit := true;
     pre_apply_predict := false;
     pre_call := λ x y w, (Ok (x, y), w);
     pre_estimate_gradient := λ x g w, (Raise NotImplementedError, w) |}.

Definition ex_two_defences : @Classifier unit :=
  {| cls := ex_backend;
     _clip_values := None;
     preprocessing_defences := Some [scenario_D1; scenario_D2];
     postprocessing_defences := None;
     preprocessing := Some [PyFloat (f64 1 (-1)); PyFloat (f64 1 (-1))] |}.

Definition ex_mixed_defences : @Classifier unit :=
  {| cls := ex_backend;
     _clip_values := None;
     preprocessing_defences := Some [scenario_D1; ex_fit_only];
     postprocessing_defences := None;
     preprocessing := None |}.

(** A class that defines [predict] and [fit]; both return the array they are
    given as [x], wherever it was passed. *)
Definition ex_method : @method unit := λ args kwargs,
  lift (match kwargs !! "x" with Some v => Ok v | None => getitem args 0 end).

Definition ex_clsdict : gmap string (@method unit) :=
  <["predict" := ex_method]> (<["fit" := ex_method]> ∅).

(** Index labels [[1]] for the one sample of the scenario, as the caller
    writes them and as an array. *)
Definition ex_labels_input : pyval := PySeq [PyInt 1].
Definition ex_labels : ndarray := mk_ndarray int64 [1%nat] [EInt 1].

(** A generator of ten samples in batches of three that always yields the
    scenario's sample, and one that reports a very large data set. *)
Definition ex_generator : @DataGenerator unit :=
  {| gen_size := 10;
     gen_batch_size := 3;
     get_batch := λ w, (Ok (scenario_x, ex_labels), w) |}.

Definition ex_huge_generator : @DataGenerator unit :=
  {| gen_size := 13510798882111490;
     gen_batch_size := 3;
     get_batch := λ w, (Ok (scenario_x, ex_labels), w) |}.

(** A postprocessing defence that overwrites the array it is given with
    zeros, in place, and returns it. *)
Definition zero_out (a : ndarray) : ndarray :=
  mk_ndarray (arr_dtype a) (arr_shape a) ((λ _, EFloat (S754_zero false)) <$> arr_data a).

Definition ex_in_place : @Postprocessor unit :=
  {| post_apply_fit := false;
     post_apply_predict := true;
     post_call := λ l w, (Ok l, mk_world (alter zero_out l (w_heap w)) (w_ext w)) |}.

Definition ex_post_classifier : @Classifier unit :=
  {| cls := ex_backend;
     _clip_values := None;
     preprocessing_defences := None;
     postprocessing_defences := Some [ex_in_place];
     preprocessing := None |}.

(** What the constructor returns for one preprocessing and one
    postprocessing defence given on their own. *)
Definition ex_single_defences : @Classifier unit :=
  {| cls := ex_backend;
     _clip_values := None;
     preprocessing_defences := Some [scenario_D1];
     postprocessing_defences := Some [ex_in_place];
     preprocessing := None |}.

(** A world in which the backend's prediction is the array object 1. *)
Definition ex_preds_world : @world unit := mk_world {[ 1%positive := scenario_x ]} ().

(** A defence that rejects every input. *)
Definition ex_failing : @Preprocessor unit :=
  {| pre_apply_fit := true;
     pre_apply_predict := true;
     pre_call := λ x y w, (Raise ValueError, w);
     pre_estimate_gradient := λ x g w, (Ok g, w) |}.

(** A defence applied when predicting only. *)
Definition ex_predict_only : @Preprocessor unit :=
  {| pre_apply_fit := false;
     pre_apply_predict := true;
     pre_call := λ x y w, (Ok (x, y), w);
     pre_estimate_gradient := λ x g w, (Ok g, w) |}.

Definition ex_predict_only_classifier : @Classifier unit :=
  {| cls := ex_backend;
     _clip_values := None;
     preprocessing_defences := Some [ex_predict_only];
     postprocessing_defences := None;
     preprocessing := None |}.

(** A concrete class that calls the base class for its number of classes. *)
Definition ex_unfinished_backend : @Subclass unit :=
  {| impl_nb_classes := λ w, (Raise NotImplementedError, w);
     impl_fit := λ _ _ _ _ _ w, (Ok (), w);
     impl_layer_names := None |}.

Definition ex_unfinished_classifier : @Classifier unit :=
  {| cls := ex_unfinished_backend;
     _clip_values := None;
     preprocessing_defences := None;
     postprocessing_defences := None;
     preprocessing := None |}.

(** Labels with one dimension too many. *)
Definition ex_bad_labels : ndarray := mk_ndarray int64 [1; 1; 1]%nat [EInt 1].

(** Generators with a batch size of 0, with fewer samples than a batch
    holds, and with batches of bytes. *)
Definition ex_zero_batch_generator : @DataGenerator unit :=
  {| gen_size := 10;
     gen_batch_size := 0;
     get_batch := λ w, (Ok (scenario_x, ex_labels), w) |}.

Definition ex_small_generator : @DataGenerator unit :=
  {| gen_size := 2;
     gen_batch_size := 3;
     get_batch := λ w, (Ok (scenario_x, ex_labels), w) |}.

Definition ex_uint8_generator : @DataGenerator unit :=
  {| gen_size := 10;
     gen_batch_size := 3;
     get_batch := λ w, (Ok (ex_uint8, ex_labels), w) |}.

(** The scenario's input as booleans and as 32-bit integers, and an array
    of the scenario's shape that holds 0.5 everywhere. *)
Definition ex_bool : ndarray := mk_ndarray bool_ [1; 2]%nat [EInt 1; EInt 0].
Definition ex_int32 : ndarray := mk_ndarray int32 [1; 2]%nat [EInt 1; EInt 0].
Definition ex_half : ndarray :=
  mk_ndarray float64 [1; 2]%nat [EFloat (f64 1 (-1)); EFloat (f64 1 (-1))].

(** Clip bounds for two and for three features. *)
Definition ex_bounds2 : ndarray :=
  mk_ndarray float64 [2]%nat [EFloat (S754_zero false); EFloat (S754_zero false)].
Definition ex_bounds3 : ndarray :=
  mk_ndarray float64 [3]%nat [EFloat (f64 1 0); EFloat (f64 1 0); EFloat (f64 1 0)].

(** A classifier with the neutral standardisation pair [(0, 1)]. *)
Definition ex_neutral_classifier : @Classifier unit :=
  {| cls := ex_backend;
     _clip_values := None;
     preprocessing_defences := None;
     postprocessing_defences := None;
     preprocessing := Some [PyInt 0; PyInt 1] |}.

(** A classifier with one mean and one scale per feature,
    [preprocessing=(np.array([[0.5, 0.5]]), np.array([[0.5, 0.5]]))]. *)
Definition ex_per_feature_classifier : @Classifier unit :=
  {| cls := ex_backend;
     _clip_values := None;
     preprocessing_defences := None;
     postprocessing_defences := None;
     preprocessing := Some [PyArr ex_half; PyArr ex_half] |}.

(** The keyword arguments of [K(clip_values=(1.0, 0.0))] and of
    [K(clip_values=(0.0, 1.0, 2.0), preprocessing=(0.5,))]. *)
Definition ex_reversed_bounds : @InitKwargs unit :=
  {| kw_clip_values := Some [PyFloat (f64 1 0); PyFloat (S754_zero false)];
     kw_preprocessing_defences := None;
     kw_postprocessing_defences := None;
     kw_preprocessing := None |}.
Definition ex_wrong_lengths : @InitKwargs unit :=
  {| kw_clip_values := Some [PyFloat (S754_zero false); PyFloat (f64 1 0); PyFloat (f64 2 0)];
     kw_preprocessing_defences := None;
     kw_postprocessing_defences := None;
     kw_preprocessing := Some [PyFloat (f64 1 (-1))] |}.

(** A class that leaves [predict] abstract and defines [save]. *)
Definition ex_abstract_clsdict : gmap string (@method unit) :=
  <["predict" := abstract_method]> (<["save" := ex_method]> ∅).

(** A defence whose gradient estimate is that of [scenario_D1] at a
    [float64] input, such as the scenario's, and fails elsewhere. *)
Definition ex_estimate_at_scenario : @Preprocessor unit :=
  {| pre_apply_fit := true;
     pre_apply_predict := true;
     pre_call := λ x y w, (Ok (x, y), w);
     pre_estimate_gradient := λ x g w,
       if bool_decide (arr_dtype x = float64) then (Ok g, w)
       else (Raise ValueError, w) |}.

(** * Properties *)

Section Properties.
Context {B : Type}.
Context (label_format : option ndarray → Z → result (option ndarray)).
Implicit Types (w : @world B) (d : @Preprocessor B) (self : @Classifier B).

(** ** Running computations *)

Ltac run :=
  unfold mbind, M_bind, mret, M_ret, numpy, lift, raise, call,
    events, outcome, final; cbn -[method M np_array].

Lemma run_bind {A A'} (m : M A) (f : A → M A') w :
  (m ≫= f) w =
  match m w with
  | (Ok a, w', t) => let '(r, w'', t') := f a w' in (r, w'', t ++ t')
  | (Raise e, w', t) => (Raise e, w', t)
  end.
Proof. reflexivity. Qed.

Lemma events_bind {A A'} (m : M A) (f : A → M A') w :
  events ((m ≫= f) w) =
  events (m w) ++
  match outcome (m w) with
  | Ok a => events (f a (final (m w)))
  | Raise _ => []
  end.
Proof.
  rewrite run_bind. destruct (m w) as [[[a|e] w'] t]; cbn.
  - destruct (f a w') as [[r w''] t']. reflexivity.
  - symmetry. apply app_nil_r.
Qed.

Lemma outcome_bind {A A'} (m : M A) (f : A → M A') w :
  outcome ((m ≫= f) w) =
  match outcome (m w) with
  | Ok a => outcome (f a (final (m w)))
  | Raise e => Raise e
  end.
Proof.
  rewrite run_bind. destruct (m w) as [[[a|e] w'] t]; cbn; [|reflexivity].
  destruct (f a w') as [[r w''] t']. reflexivity.
Qed.

Lemma final_bind {A A'} (m : M A) (f : A → M A') w :
  final ((m ≫= f) w) =
  match outcome (m w) with
  | Ok a => final (f a (final (m w)))
  | Raise e => final (m w)
  end.
Proof.
  rewrite run_bind. destruct (m w) as [[[a|e] w'] t]; cbn; [|reflexivity].
  destruct (f a w') as [[r w''] t']. reflexivity.
Qed.

Lemma for_each_ext {A S} (l : list A) (body body' : A → S → @M B S) :
  (∀ a s w, body a s w = body' a s w) →
  ∀ s w, for_each l body s w = for_each l body' s w.
Proof.
  intros Hb. induction l as [|a l IH]; intros s w; cbn; [reflexivity|].
  rewrite !run_bind, Hb. destruct (body' a s w) as [[[s'|e] w'] t]; [|reflexivity].
  rewrite IH. reflexivity.
Qed.

Lemma guarded_run {A S} (sel : A → bool) (ev : A → @event B)
    (act : A → S → ext S) a s w :
  guarded sel ev act a s w =
  if sel a then (let '(r, w') := act a s w in (r, w', [ev a])) else (Ok s, w, []).
Proof. unfold guarded, call. destruct (sel a); reflexivity. Qed.

Lemma for_each_guarded_events_ok {A S} (sel : A → bool) (ev : A → @event B)
    (act : A → S → ext S) (l : list A) s w :
  is_ok (outcome (for_each l (guarded sel ev act) s w)) = true →
  events (for_each l (guarded sel ev act) s w) = ev <$> filter (λ a, sel a = true) l.
Proof.
  revert s w. induction l as [|a l IH]; intros s w Hok; [reflexivity|].
  cbn [for_each] in *. rewrite events_bind. rewrite outcome_bind in Hok.
  rewrite guarded_run in *. rewrite filter_cons. destruct (sel a) eqn:Ha.
  - rewrite decide_True by reflexivity.
    destruct (act a s w) as [[s'|e] w'] eqn:Hact; cbn in *; [|discriminate].
    f_equal. apply IH, Hok.
  - rewrite decide_False by discriminate. cbn in *. apply IH, Hok.
Qed.

Lemma for_each_guarded_events_in {A S} (sel : A → bool) (ev : A → @event B)
    (act : A → S → ext S) (l : list A) s w e :
  e ∈ events (for_each l (guarded sel ev act) s w) →
  ∃ a, a ∈ l ∧ sel a = true ∧ e = ev a.
Proof.
  revert s w. induction l as [|a l IH]; intros s w He.
  - cbn in He. inversion He.
  - cbn [for_each] in He. rewrite events_bind in He.
    rewrite guarded_run in He.
    apply elem_of_app in He as [He|He].
    + destruct (sel a) eqn:Ha.
      * destruct (act a s w) as [r w']; cbn in He.
        apply list_elem_of_singleton in He. exists a. split; [left|]. done.
      * cbn in He. inversion He.
    + destruct (sel a) eqn:Ha.
      * destruct (act a s w) as [[s'|?] w']; cbn in He; [|inversion He].
        destruct (IH _ _ He) as (a' & Hin & Hsel & ->).
        exists a'. split; [right|]; done.
      * cbn in He. destruct (IH _ _ He) as (a' & Hin & Hsel & ->).
        exists a'. split; [right|]; done.
Qed.

(** ** The pipelines as guarded loops *)

Lemma forward_loop self x y fit w :
  _apply_preprocessing_defences self x y fit w =
  for_each (defences_of self)
    (guarded (pre_selected fit) EvDefence (λ d '(x, y), pre_call d x y)) (x, y) w.
Proof.
  unfold _apply_preprocessing_defences, defences_of.
  destruct (preprocessing_defences self) as [ds|]; [|reflexivity].
  apply for_each_ext. intros d [x' y'] w'.
  unfold guarded, pre_selected. destruct fit; reflexivity.
Qed.

Lemma backward_loop self x g fit w :
  _apply_preprocessing_defences_gradient self x g fit w =
  for_each (reverse (defences_of self))
    (guarded (pre_selected fit) EvEstimateGradient
       (λ d g, pre_estimate_gradient d x g)) g w.
Proof.
  unfold _apply_preprocessing_defences_gradient, defences_of.
  destruct (preprocessing_defences self) as [ds|]; [|reflexivity].
  apply for_each_ext. intros d g' w'.
  unfold guarded, pre_selected. destruct fit; reflexivity.
Qed.

Lemma applied_fmap (l : list (@Preprocessor B)) : applied (EvDefence <$> l) = l.
Proof. induction l; cbn; [reflexivity|]. f_equal. assumption. Qed.

Lemma estimated_fmap (l : list (@Preprocessor B)) :
  estimated (EvEstimateGradient <$> l) = l.
Proof. induction l; cbn; [reflexivity|]. f_equal. assumption. Qed.

Lemma estimated_app (l1 l2 : list (@event B)) :
  estimated (l1 ++ l2) = estimated l1 ++ estimated l2.
Proof. apply omap_app. Qed.

Lemma filter_all {A} (P : A → bool) (l : list A) :
  forallb P l = true → filter (λ a, P a = true) l = l.
Proof.
  induction l as [|a l IH]; [reflexivity|].
  intros H. cbn in H. apply andb_true_iff in H as [Ha Hl].
  rewrite filter_cons, decide_True by assumption.
  f_equal. auto.
Qed.

(** The backward step through standardisation only does arithmetic. *)
Lemma normalization_gradient_events self g w :
  Forall (λ e, is_arithmetic e = true)
    (events (_apply_preprocessing_normalization_gradient self g w)).
Proof.
  unfold _apply_preprocessing_normalization_gradient.
  destruct (preprocessing self) as [p|]; [|constructor].
  run. destruct (unpack2 p) as [[s dv]|]; cbn; [|constructor].
  destruct (np_asarray dv (arr_dtype g)) as [dv'|]; cbn; [|repeat constructor].
  destruct (np_true_divide g dv'); cbn; repeat constructor.
Qed.

Lemma estimated_arithmetic (evs : list (@event B)) :
  Forall (λ e, is_arithmetic e = true) evs → estimated evs = [].
Proof.
  induction 1 as [|e evs He _ IH]; [reflexivity|].
  cbn. destruct e; try discriminate; exact IH.
Qed.

Lemma applied_arithmetic (evs : list (@event B)) :
  Forall (λ e, is_arithmetic e = true) evs → applied evs = [].
Proof.
  induction 1 as [|e evs He _ IH]; [reflexivity|].
  cbn. destruct e; try discriminate; exact IH.
Qed.

(** What [_apply_preprocessing_gradient] estimates is what its loop over the
    defences does, in predict mode. *)
Lemma gradient_estimated self x g w :
  estimated (events (_apply_preprocessing_gradient self x g w)) =
  match outcome (_apply_preprocessing_normalization_gradient self g w) with
  | Ok g' =>
      estimated (events (_apply_preprocessing_defences_gradient self x g' false
        (final (_apply_preprocessing_normalization_gradient self g w))))
  | Raise _ => []
  end.
Proof.
  unfold _apply_preprocessing_gradient. rewrite events_bind, estimated_app.
  rewrite (estimated_arithmetic _ (normalization_gradient_events self g w)).
  destruct (outcome _) as [g'|]; [|reflexivity].
  cbn [app]. rewrite events_bind. cbn.
  destruct (outcome _); cbn; rewrite app_nil_r; reflexivity.
Qed.

Lemma gradient_ok self x g w :
  is_ok (outcome (_apply_preprocessing_gradient self x g w)) = true →
  ∃ g', outcome (_apply_preprocessing_normalization_gradient self g w) = Ok g' ∧
    is_ok (outcome (_apply_preprocessing_defences_gradient self x g' false
      (final (_apply_preprocessing_normalization_gradient self g w)))) = true.
Proof.
  unfold _apply_preprocessing_gradient. rewrite outcome_bind.
  destruct (outcome _) as [g'|]; [|discriminate].
  rewrite outcome_bind. intros H. exists g'. split; [reflexivity|].
  destruct (outcome _); [reflexivity|discriminate].
Qed.

(** ** C1: the backward pipeline reverses the forward order *)

(** C1. When every configured preprocessing defence is selected by the flag
    of the forward mode and by [apply_predict], and both pipelines return, the
    forward pipeline [_apply_preprocessing_defences] has called the defences
    in list order and [_apply_preprocessing_gradient] has called their
    [estimate_gradient] in exactly the reverse of that order. *)
Theorem backward_order_reverses_forward self x y g fit w1 w2 :
  forallb (λ d, pre_selected fit d && pre_apply_predict d) (defences_of self) = true →
  is_ok (outcome (_apply_preprocessing_defences self x y fit w1)) = true →
  is_ok (outcome (_apply_preprocessing_gradient self x g w2)) = true →
  applied (events (_apply_preprocessing_defences self x y fit w1)) = defences_of self ∧
  estimated (events (_apply_preprocessing_gradient self x g w2)) =
    reverse (applied (events (_apply_preprocessing_defences self x y fit w1))).
Proof.
  intros Hall Hfwd Hbwd.
  assert (Hsel : forallb (pre_selected fit) (defences_of self) = true).
  { clear -Hall. induction (defences_of self) as [|d l IH]; [reflexivity|].
    cbn in *. apply andb_true_iff in Hall as [[-> _]%andb_true_iff Hl]. auto. }
  assert (Hpred : forallb (pre_selected false) (reverse (defences_of self)) = true).
  { clear -Hall. apply forallb_forall. intros d Hd.
    rewrite <- list_elem_of_In, elem_of_reverse, list_elem_of_In in Hd.
    rewrite forallb_forall in Hall. apply Hall in Hd.
    apply andb_true_iff in Hd as [_ Hd]. exact Hd. }
  assert (Happ : applied (events (_apply_preprocessing_defences self x y fit w1))
                 = defences_of self).
  { rewrite forward_loop in *.
    rewrite for_each_guarded_events_ok by assumption.
    rewrite applied_fmap. apply filter_all, Hsel. }
  split; [exact Happ|]. rewrite Happ, gradient_estimated.
  destruct (gradient_ok _ _ _ _ Hbwd) as (g' & -> & Hloop).
  rewrite backward_loop in *.
  rewrite for_each_guarded_events_ok by assumption.
  rewrite estimated_fmap. apply filter_all, Hpred.
Qed.

(** ** C10: the backward pipeline filters by [apply_predict] *)

(** C10. [_apply_preprocessing_gradient] never calls [estimate_gradient] of a
    preprocessing defence whose [apply_predict] flag is false, whatever its
    [apply_fit] flag and whatever the run does: the entry point passes no
    [fit] argument, so the loop runs in predict mode. *)
Theorem gradient_skips_defences_not_applied_at_predict self x g w d :
  pre_apply_predict d = false →
  EvEstimateGradient d ∉ events (_apply_preprocessing_gradient self x g w).
Proof.
  intros Hd Hin. unfold _apply_preprocessing_gradient in Hin.
  rewrite events_bind in Hin. apply elem_of_app in Hin as [Hin|Hin].
  - pose proof (normalization_gradient_events self g w) as HF.
    rewrite Forall_forall in HF. apply HF in Hin. discriminate.
  - destruct (outcome _) as [g'|]; [|inversion Hin].
    rewrite events_bind in Hin. apply elem_of_app in Hin as [Hin|Hin].
    + rewrite backward_loop in Hin.
      apply for_each_guarded_events_in in Hin as (a & _ & Hsel & Heq).
      injection Heq as ->. unfold pre_selected in Hsel. congruence.
    + destruct (outcome _); cbn in Hin; inversion Hin.
Qed.

(** ** C3, C9: unsigned input *)

Lemma standardisation_unsigned self x w :
  is_unsigned (arr_dtype x) →
  _apply_preprocessing_standardisation self x w = (Raise TypeError, w, []).
Proof.
  intros Hu. unfold _apply_preprocessing_standardisation.
  rewrite bool_decide_eq_true_2 by exact Hu. reflexivity.
Qed.

Lemma forward_events_not_arithmetic self x y fit w :
  Forall (λ e, is_arithmetic e = false)
    (events (_apply_preprocessing_defences self x y fit w)).
Proof.
  apply Forall_forall. intros e He. rewrite forward_loop in He.
  apply for_each_guarded_events_in in He as (a & _ & _ & ->). reflexivity.
Qed.

(** The pipeline up to the standardisation step: if the class count, the
    label format and the defences return, the outcome is that of the
    standardisation of the array the defences hand over. *)
Lemma preprocessing_stages self x0 y fit w n w1 y1 x y' :
  impl_nb_classes (cls self) w = (Ok n, w1) →
  label_format y n = Ok y1 →
  outcome (_apply_preprocessing_defences self x0 y1 fit w1) = Ok (x, y') →
  let w2 := final (_apply_preprocessing_defences self x0 y1 fit w1) in
  outcome (_apply_preprocessing label_format self x0 y fit w) =
    (λ r, (r, y')) <$> outcome (_apply_preprocessing_standardisation self x w2) ∧
  final (_apply_preprocessing label_format self x0 y fit w) =
    final (_apply_preprocessing_standardisation self x w2) ∧
  events (_apply_preprocessing label_format self x0 y fit w) =
    EvNbClasses :: events (_apply_preprocessing_defences self x0 y1 fit w1) ++
    events (_apply_preprocessing_standardisation self x w2).
Proof.
  intros Hn Hy Hd w2. subst w2.
  destruct (_apply_preprocessing_defences self x0 y1 fit w1) as [[r w2] t] eqn:E.
  cbn in Hd. subst r. cbn [final outcome events fst snd].
  assert (Hrun : _apply_preprocessing label_format self x0 y fit w =
    let '(r, w3, t3) := _apply_preprocessing_standardisation self x w2 in
    ((λ r, (r, y')) <$> r, w3, EvNbClasses :: t ++ t3)).
  { unfold _apply_preprocessing.
    rewrite (run_bind (call _ _)). unfold call at 1. rewrite Hn.
    rewrite (run_bind (lift _)). unfold lift at 1. rewrite Hy.
    rewrite (run_bind (_apply_preprocessing_defences _ _ _ _)), E.
    rewrite (run_bind (_apply_preprocessing_standardisation _ _)).
    destruct (_apply_preprocessing_standardisation self x w2) as [[[r|e] w3] t3]; cbn.
    - rewrite app_nil_r. reflexivity.
    - reflexivity. }
  rewrite Hrun.
  destruct (_apply_preprocessing_standardisation self x w2) as [[r w3] t3].
  done.
Qed.

(** C3. With a standardisation pair configured, an input whose element type
    is an unsigned integer type makes the standardisation step raise
    [TypeError] at once: the world is unchanged and no event, so no
    subtraction or division, has happened.  In the whole forward pipeline,
    whenever the array that reaches the step is unsigned, the pipeline raises
    [TypeError] and has done no arithmetic. *)
Theorem unsigned_input_raises_before_arithmetic self p x :
  preprocessing self = Some p →
  is_unsigned (arr_dtype x) →
  (∀ w, _apply_preprocessing_standardisation self x w = (Raise TypeError, w, [])) ∧
  (∀ x0 y fit w n w1 y1 y',
     impl_nb_classes (cls self) w = (Ok n, w1) →
     label_format y n = Ok y1 →
     outcome (_apply_preprocessing_defences self x0 y1 fit w1) = Ok (x, y') →
     outcome (_apply_preprocessing label_format self x0 y fit w) = Raise TypeError ∧
     Forall (λ e, is_arithmetic e = false)
       (events (_apply_preprocessing label_format self x0 y fit w))).
Proof.
  intros _ Hu. split; [intros w; apply standardisation_unsigned, Hu|].
  intros x0 y fit w n w1 y1 y' Hn Hy Hd.
  destruct (preprocessing_stages self x0 y fit w n w1 y1 x y' Hn Hy Hd)
    as (Ho & _ & He).
  rewrite Ho, He, standardisation_unsigned by exact Hu. split; [reflexivity|].
  cbn. constructor; [reflexivity|]. rewrite app_nil_r.
  apply forward_events_not_arithmetic.
Qed.

(** C9. The check on the element type comes first: without a standardisation
    pair, the step still raises [TypeError] on an unsigned input, leaving the
    world unchanged and causing no event. *)
Theorem unsigned_input_raises_without_standardisation self x w :
  preprocessing self = None →
  is_unsigned (arr_dtype x) →
  _apply_preprocessing_standardisation self x w = (Raise TypeError, w, []).
Proof. intros _ Hu. apply standardisation_unsigned, Hu. Qed.

(** ** C2: standardisation of signed input *)

Lemma init_inv (k : @Subclass B) clip pre post prep self :
  Classifier__init__ k clip pre post prep = Ok self →
  self = {| cls := k; _clip_values := clip;
            preprocessing_defences := as_list pre;
            postprocessing_defences := as_list post;
            preprocessing := prep |} ∧
  (∀ cv, clip = Some cv → length cv = 2%nat) ∧
  (∀ p, prep = Some p → length p = 2%nat).
Proof.
  unfold Classifier__init__. intros H.
  assert (Hc : ∀ cv, clip = Some cv → length cv = 2%nat).
  { intros cv ->. destruct (length cv =? 2)%nat eqn:E; [by apply Nat.eqb_eq|].
    cbn in H. discriminate. }
  assert (Hp : ∀ p, prep = Some p → length p = 2%nat).
  { intros p ->. destruct (length p =? 2)%nat eqn:E; [by apply Nat.eqb_eq|].
    cbn in H. destruct (match clip with Some _ => _ | None => _ end); discriminate. }
  split; [|split; assumption].
  destruct (match clip with Some _ => _ | None => _ end); [|discriminate].
  cbn in H. destruct (match prep with Some _ => _ | None => _ end); [|discriminate].
  cbn in H. congruence.
Qed.

Lemma signed_not_unsigned dt : is_signed_numeric dt → ¬ is_unsigned dt.
Proof.
  unfold is_signed_numeric, is_unsigned. intros Hs Hu.
  rewrite list_elem_of_In in Hs, Hu. cbn in Hs, Hu. intuition congruence.
Qed.

Lemma signed_not_bool dt : is_signed_numeric dt → kind_of dt ≠ KBool.
Proof.
  unfold is_signed_numeric. intros H.
  repeat (apply elem_of_cons in H as [->|H]); try discriminate. inversion H.
Qed.

Lemma standardisation_signed self sub div x w :
  preprocessing self = Some [sub; div] →
  is_signed_numeric (arr_dtype x) →
  outcome (_apply_preprocessing_standardisation self x w) = standardise sub div x ∧
  final (_apply_preprocessing_standardisation self x w) = w.
Proof.
  intros Hp Hs. unfold _apply_preprocessing_standardisation, standardise.
  rewrite bool_decide_eq_false_2 by (apply signed_not_unsigned, Hs).
  rewrite Hp. run.
  destruct (np_asarray sub (arr_dtype x)) as [s|]; cbn; [|done].
  destruct (np_asarray div (arr_dtype x)) as [d|]; cbn; [|done].
  destruct (np_subtract x s) as [r|]; cbn; [|done].
  destruct (np_true_divide r d); done.
Qed.

(** C2. For a classifier constructed with a standardisation pair, the pair
    has two elements [subtract] and [divide], and on a signed-numeric input
    the standardisation step returns [(x - subtract) / divide] with both
    constants cast to the element type of [x], leaving the world as it was;
    the forward pipeline [_apply_preprocessing] returns that value for the
    array its defences hand over.  In the scenario of the specification
    ([clip_values=(0.0, 1.0)], no defences, [preprocessing=(0.5, 0.5)],
    [x=[[1.0, 0.0]]]) the result of [_apply_preprocessing] is
    [[[1.0, -1.0]]]. *)
Theorem standardisation_of_signed_input :
  (∀ (k : @Subclass B) clip pre post p self x,
     Classifier__init__ k clip pre post (Some p) = Ok self →
     is_signed_numeric (arr_dtype x) →
     ∃ subtract divide, p = [subtract; divide] ∧
       (∀ w,
          outcome (_apply_preprocessing_standardisation self x w)
            = standardise subtract divide x ∧
          final (_apply_preprocessing_standardisation self x w) = w) ∧
       (∀ x0 y fit w n w1 y1 y',
          impl_nb_classes (cls self) w = (Ok n, w1) →
          label_format y n = Ok y1 →
          outcome (_apply_preprocessing_defences self x0 y1 fit w1) = Ok (x, y') →
          outcome (_apply_preprocessing label_format self x0 y fit w)
            = (λ r, (r, y')) <$> standardise subtract divide x)) ∧
  (Classifier__init__ ex_backend
     (Some [PyFloat (S754_zero false); PyFloat (f64 1 0)]) None None
     (Some [PyFloat (f64 1 (-1)); PyFloat (f64 1 (-1))]) = Ok scenario_classifier ∧
   np_array scenario_input = Ok scenario_x ∧
   ∀ fit,
     outcome (_apply_preprocessing check_and_transform_label_format
                scenario_classifier scenario_x None fit ex_world)
       = Ok (scenario_expected, None)).
Proof.
  split.
  - intros k clip pre post p self x Hinit Hs.
    destruct (init_inv _ _ _ _ _ _ Hinit) as (-> & _ & Hlen).
    specialize (Hlen p eq_refl).
    destruct p as [|subtract [|divide [|? ?]]]; try discriminate.
    exists subtract, divide. split; [reflexivity|]. split.
    + intros w. apply standardisation_signed; [reflexivity|exact Hs].
    + intros x0 y fit w n w1 y1 y' Hn Hy Hd.
      destruct (preprocessing_stages _ x0 y fit w n w1 y1 x y' Hn Hy Hd)
        as (-> & _ & _).
      f_equal. apply standardisation_signed; [reflexivity|exact Hs].
  - split; [reflexivity|]. split; [reflexivity|]. intros []; reflexivity.
Qed.

(** *** Standardisation element by element *)

Lemma numel_app sh1 sh2 : numel (sh1 ++ sh2) = (numel sh1 * numel sh2)%nat.
Proof.
  unfold numel. induction sh1 as [|n sh1 IH]; cbn; [lia|]. rewrite IH. lia.
Qed.

Lemma numel_reverse sh : numel (reverse sh) = numel sh.
Proof.
  induction sh as [|n sh IH]; [reflexivity|].
  rewrite reverse_cons, numel_app, IH. unfold numel. cbn. lia.
Qed.

Lemma offset_rev_same out i : (i < numel out)%nat → offset_rev out out i = i.
Proof.
  revert i. induction out as [|o out IH]; intros i Hi.
  - unfold numel in Hi. cbn in *. lia.
  - change (numel (o :: out)) with (o * numel out)%nat in Hi.
    assert (o ≠ 0%nat) by (intros ->; lia).
    assert (Hdiv : (i / o < numel out)%nat)
      by (apply Nat.Div0.div_lt_upper_bound; lia).
    cbn [offset_rev]. rewrite (IH _ Hdiv).
    pose proof (Nat.div_mod_eq i o).
    destruct (o =? 1)%nat eqn:Ho; [|lia].
    apply Nat.eqb_eq in Ho. subst o. rewrite Nat.div_1_r. lia.
Qed.

Lemma item_same a i :
  (i < numel (arr_shape a))%nat →
  item a (arr_shape a) i = default (EInt 0) (arr_data a !! i).
Proof.
  intros Hi. unfold item. rewrite offset_rev_same; [reflexivity|].
  rewrite numel_reverse. exact Hi.
Qed.

Lemma item_scalar dt x sh i : item (scalar_array dt x) sh i = x.
Proof. unfold item. cbn. destruct (reverse sh); reflexivity. Qed.

Lemma broadcast_shapes_scalar sh : broadcast_shapes sh [] = Some sh.
Proof.
  unfold broadcast_shapes. change (reverse []) with (@nil nat).
  assert (H : broadcast_rev (reverse sh) [] = Some (reverse sh))
    by (destruct (reverse sh); reflexivity).
  rewrite H. cbn. rewrite reverse_involutive. reflexivity.
Qed.

Lemma fmap_seq_lookup {A} (g : elt → A) (l : list elt) :
  (λ i, g (default (EInt 0) (l !! i))) <$> seq 0 (length l) = g <$> l.
Proof.
  apply list_eq. intros i. rewrite !list_lookup_fmap.
  destruct (l !! i) as [x|] eqn:Hx.
  - rewrite lookup_seq_lt by (eapply lookup_lt_Some; eassumption).
    cbn. rewrite Hx. reflexivity.
  - rewrite lookup_seq_ge by (apply lookup_ge_None; assumption). reflexivity.
Qed.

Lemma broadcast2_scalar {A} (f : elt → elt → A) a dt c :
  length (arr_data a) = numel (arr_shape a) →
  broadcast2 f a (scalar_array dt c) = Ok (arr_shape a, (λ v, f v c) <$> arr_data a).
Proof.
  intros Hwf. unfold broadcast2.
  change (arr_shape (scalar_array dt c)) with (@nil nat).
  rewrite broadcast_shapes_scalar. f_equal. f_equal.
  rewrite <- (fmap_seq_lookup (λ v, f v c)), Hwf.
  apply list_eq. intros i. rewrite !list_lookup_fmap.
  destruct (decide (i < numel (arr_shape a))%nat) as [Hi|Hi].
  - rewrite lookup_seq_lt by exact Hi. cbn.
    rewrite item_same, item_scalar by exact Hi. reflexivity.
  - rewrite lookup_seq_ge by lia. reflexivity.
Qed.

Lemma np_subtract_scalar x c :
  kind_of (arr_dtype x) ≠ KBool →
  length (arr_data x) = numel (arr_shape x) →
  np_subtract x (scalar_array (arr_dtype x) c) =
  Ok (mk_ndarray (arr_dtype x) (arr_shape x)
        ((λ v, sub_elt (kind_of (arr_dtype x)) v c) <$> arr_data x)).
Proof.
  intros Hk Hwf. unfold np_subtract.
  change (arr_dtype (scalar_array (arr_dtype x) c)) with (arr_dtype x).
  rewrite decide_True by reflexivity.
  destruct (kind_of (arr_dtype x)); try congruence;
    rewrite broadcast2_scalar by exact Hwf; reflexivity.
Qed.

Lemma np_true_divide_scalar x c :
  length (arr_data x) = numel (arr_shape x) →
  np_true_divide x (scalar_array (arr_dtype x) c) =
  Ok (mk_ndarray
        (match kind_of (arr_dtype x) with KFloat _ _ => arr_dtype x | _ => float64 end)
        (arr_shape x)
        ((λ v, div_elt (kind_of (arr_dtype x)) v c) <$> arr_data x)).
Proof.
  intros Hwf. unfold np_true_divide.
  change (arr_dtype (scalar_array (arr_dtype x) c)) with (arr_dtype x).
  rewrite decide_True by reflexivity.
  rewrite broadcast2_scalar by exact Hwf. reflexivity.
Qed.

(** X1. With a standardisation pair of Python floats [subtract] and [divide]
    that the element type of the input can hold (always, for a floating-point
    type; for an integer type their integer parts must be in its range), the
    standardisation step maps every element [v] of a signed-numeric array
    with one element per position of its shape to [(v - subtract) / divide]:
    computed in the element type for floats and, for integers, with the
    constants truncated, a wrapping subtraction and a binary64 division.  The
    shape is kept. *)
Theorem standardise_elementwise self x (subtract divide : spec_float) (s dv : elt) w :
  preprocessing self = Some [PyFloat subtract; PyFloat divide] →
  is_signed_numeric (arr_dtype x) →
  length (arr_data x) = numel (arr_shape x) →
  cast_scalar (kind_of (arr_dtype x)) (EFloat subtract) = Ok s →
  cast_scalar (kind_of (arr_dtype x)) (EFloat divide) = Ok dv →
  outcome (_apply_preprocessing_standardisation self x w) =
  Ok (mk_ndarray
        (match kind_of (arr_dtype x) with KFloat _ _ => arr_dtype x | _ => float64 end)
        (arr_shape x)
        ((λ v, div_elt (kind_of (arr_dtype x)) (sub_elt (kind_of (arr_dtype x)) v s) dv)
           <$> arr_data x)).
Proof.
  intros Hp Hsg Hwf Hs Hd.
  rewrite (proj1 (standardisation_signed self _ _ x w Hp Hsg)).
  unfold standardise, np_asarray. rewrite Hs, Hd.
  cbn [fmap result_fmap mbind result_bind].
  rewrite np_subtract_scalar by (try assumption; apply signed_not_bool, Hsg).
  cbn [mbind result_bind].
  set (r := mk_ndarray _ _ _).
  change (scalar_array (arr_dtype x) dv) with (scalar_array (arr_dtype r) dv).
  rewrite np_true_divide_scalar by (subst r; cbn; rewrite length_fmap; exact Hwf).
  subst r. cbn [arr_dtype arr_shape arr_data]. rewrite <- list_fmap_compose.
  reflexivity.
Qed.

(** ** Validation in [Classifier.__init__] *)

Lemma SFcompare_Lt_Gt a b : SFcompare a b = Some Lt → SFcompare b a = Some Gt.
Proof.
  destruct a as [[]|[]| |[] ma ea], b as [[]|[]| |[] mb eb]; cbn;
    try solve [intros; (discriminate || reflexivity)];
    rewrite (Z.compare_antisym ea eb);
    change (Pos.compare_cont Eq mb ma) with (mb ?= ma)%positive;
    change (Pos.compare_cont Eq ma mb) with (ma ?= mb)%positive;
    rewrite (Pos.compare_antisym ma mb);
    destruct (ea ?= eb); cbn; try solve [intros; (discriminate || reflexivity)];
    destruct (ma ?= mb)%positive; cbn; intros; (discriminate || reflexivity).
Qed.

Lemma lt_elt_not_ge x y : lt_elt x y = true → ge_elt x y = false.
Proof.
  assert (Hf : ∀ a b, SFltb a b = true → SFleb b a = false).
  { intros a b. unfold SFltb, SFleb.
    destruct (SFcompare a b) as [[]|] eqn:E; try discriminate.
    intros _. rewrite (SFcompare_Lt_Gt _ _ E). reflexivity. }
  destruct x as [a|f], y as [b|g]; cbn.
  - intros H. apply Z.ltb_lt in H. apply Z.leb_gt. exact H.
  - destruct (compare_Z_float a g) as [[]|]; (discriminate || reflexivity).
  - destruct (compare_Z_float b f) as [[]|]; (discriminate || reflexivity).
  - apply Hf.
Qed.

(** The constructor's test [np.array(lo >= hi).any()], on the pairs it
    compares. *)
Lemma clip_test lo hi :
  (c ← py_ge lo hi; a ← np_array c;
   if np_any a then Raise ValueError else Ok ()) =
  (ps ← pairs lo hi;
   if existsb (λ p, ge_elt p.1 p.2) ps then Raise ValueError else Ok ()).
Proof.
  unfold py_ge, pairs.
  assert (Hany : ∀ sh (f g : elt → elt) (ps : list (elt * elt)),
    np_any (bool_array sh ((λ p : elt * elt, ge_elt (f p.1) (g p.2)) <$> ps)) =
    existsb (λ p, ge_elt p.1 p.2) ((λ p : elt * elt, (f p.1, g p.2)) <$> ps)).
  { intros sh f g ps. unfold np_any, bool_array. cbn [arr_data].
    induction ps as [|p ps IH]; [reflexivity|].
    cbn. rewrite IH. destruct (ge_elt _ _); reflexivity. }
  assert (Harr : ∀ x y,
    ('(sh, ps) ← broadcast2 pair x y;
     '(f, g) ← comparison_casts lo hi;
     Ok (PyArr (bool_array sh ((λ p : elt * elt, ge_elt (f p.1) (g p.2)) <$> ps))))
      ≫= (λ c, a ← np_array c; if np_any a then Raise ValueError else Ok ()) =
    (ps ← snd <$> broadcast2 pair x y;
     '(f, g) ← comparison_casts lo hi;
     Ok ((λ p : elt * elt, (f p.1, g p.2)) <$> (ps : list (elt * elt))))
      ≫= (λ ps, if existsb (λ p, ge_elt p.1 p.2) ps then Raise ValueError else Ok ())).
  { intros x y. destruct (broadcast2 pair x y) as [[sh ps]|]; [|reflexivity].
    cbn [fmap result_fmap mbind result_bind snd].
    destruct (comparison_casts lo hi) as [[f g]|]; [|reflexivity].
    cbn [mbind result_bind np_array]. rewrite Hany. reflexivity. }
  destruct (number lo) as [x|] eqn:El, (number hi) as [y|] eqn:Eh.
  - cbn. destruct (ge_elt x y); reflexivity.
  - cbn [mbind result_bind]. destruct (operand lo); [|reflexivity].
    cbn [mbind result_bind]. destruct (operand hi); [|reflexivity]. apply Harr.
  - cbn [mbind result_bind]. destruct (operand lo); [|reflexivity].
    cbn [mbind result_bind]. destruct (operand hi); [|reflexivity]. apply Harr.
  - cbn [mbind result_bind]. destruct (operand lo); [|reflexivity].
    cbn [mbind result_bind]. destruct (operand hi); [|reflexivity]. apply Harr.
Qed.

Lemma init_run (k : @Subclass B) lo hi pre post prep :
  Classifier__init__ k (Some [lo; hi]) pre post prep =
  match pairs lo hi with
  | Ok ps =>
      if existsb (λ p, ge_elt p.1 p.2) ps then Raise ValueError
      else
        match prep with
        | Some p =>
            if negb (length p =? 2)%nat then Raise ValueError
            else Ok {| cls := k; _clip_values := Some [lo; hi];
                       preprocessing_defences := as_list pre;
                       postprocessing_defences := as_list post;
                       preprocessing := prep |}
        | None => Ok {| cls := k; _clip_values := Some [lo; hi];
                        preprocessing_defences := as_list pre;
                        postprocessing_defences := as_list post;
                        preprocessing := prep |}
        end
  | Raise e => Raise e
  end.
Proof.
  unfold Classifier__init__. cbn [length Nat.eqb negb getitem lookup list_lookup].
  cbn [mbind result_bind]. rewrite clip_test.
  destruct (pairs lo hi) as [ps|e]; [|reflexivity].
  cbn [mbind result_bind]. destruct (existsb _ ps); [reflexivity|].
  destruct prep as [p|]; [|reflexivity].
  destruct (negb (length p =? 2)%nat); reflexivity.
Qed.

(** X30. [Classifier.__init__], called with the configuration (as a subclass
    does that passes its arguments on), raises [ValueError] when the
    clip-bounds tuple does not have two elements, when some element of the
    lower bound is greater than or equal to the corresponding element of the
    upper bound, and when the standardisation tuple does not have two
    elements (the clip bounds, if given, being two that can be compared); with
    a lower bound below the upper bound everywhere and a standardisation tuple
    that is absent or has two elements, it returns the classifier with the
    attributes set.  It is a function of the configuration alone: no data is
    touched. *)
Theorem constructor_validates_configuration (k : @Subclass B) clip pre post prep :
  (∀ cv, clip = Some cv → length cv ≠ 2%nat →
     Classifier__init__ k clip pre post prep = Raise ValueError) ∧
  (∀ lo hi ps, clip = Some [lo; hi] → pairs lo hi = Ok ps →
     (∃ p, p ∈ ps ∧ ge_elt p.1 p.2 = true) →
     Classifier__init__ k clip pre post prep = Raise ValueError) ∧
  (∀ p, prep = Some p → length p ≠ 2%nat →
     (∀ lo hi, clip = Some [lo; hi] → is_ok (pairs lo hi) = true) →
     Classifier__init__ k clip pre post prep = Raise ValueError) ∧
  (∀ lo hi ps, clip = Some [lo; hi] → pairs lo hi = Ok ps →
     (∀ p, p ∈ ps → lt_elt p.1 p.2 = true) →
     (∀ p, prep = Some p → length p = 2%nat) →
     Classifier__init__ k clip pre post prep =
       Ok {| cls := k; _clip_values := clip;
             preprocessing_defences := as_list pre;
             postprocessing_defences := as_list post;
             preprocessing := prep |}).
Proof.
  repeat split.
  - intros cv -> Hlen. unfold Classifier__init__.
    apply Nat.eqb_neq in Hlen. rewrite Hlen. reflexivity.
  - intros lo hi ps -> Hps (p & Hin & Hge). rewrite init_run, Hps.
    assert (He : existsb (λ p, ge_elt p.1 p.2) ps = true).
    { apply existsb_exists. exists p. split; [by apply list_elem_of_In|exact Hge]. }
    rewrite He. reflexivity.
  - intros p -> Hlen Hb. apply Nat.eqb_neq in Hlen.
    destruct clip as [cv|]; [|unfold Classifier__init__; cbn; rewrite Hlen; reflexivity].
    destruct (decide (length cv = 2%nat)) as [Hcv|Hcv].
    + destruct cv as [|lo [|hi [|? ?]]]; try discriminate.
      specialize (Hb lo hi eq_refl). rewrite init_run.
      destruct (pairs lo hi) as [ps|]; [|discriminate].
      destruct (existsb _ ps); [reflexivity|]. rewrite Hlen. reflexivity.
    + unfold Classifier__init__. apply Nat.eqb_neq in Hcv. rewrite Hcv. reflexivity.
  - intros lo hi ps -> Hps Hlt Hlen. rewrite init_run, Hps.
    assert (He : existsb (λ p, ge_elt p.1 p.2) ps = false).
    { apply not_true_is_false. intros He. apply existsb_exists in He as (p & Hin & Hge).
      apply list_elem_of_In in Hin. apply Hlt, lt_elt_not_ge in Hin. congruence. }
    rewrite He. destruct prep as [p|]; [|reflexivity].
    rewrite (Hlen p eq_refl). reflexivity.
Qed.

(** ** C5: the wrappers installed by [input_filter] *)

Lemma input_filter_no_y (clsdict : gmap string (@method B)) name (f : @method B) :
  clsdict !! name = Some f →
  name ∈ replacement_list_no_y →
  input_filter clsdict !! name = Some (make_replacement clsdict name false).
Proof.
  intros Hf Hin. unfold input_filter, replacement_list_no_y, replacement_list_has_y in *.
  cbn [foldl].
  repeat (apply elem_of_cons in Hin as [->|Hin]); [..|inversion Hin];
    repeat case_bool_decide;
    try (match goal with
         | Hf : ?m !! ?n = Some _, H : ¬ is_Some (?m !! ?n) |- _ =>
             exfalso; apply H; eauto
         end);
    simplify_map_eq; done.
Qed.

Lemma input_filter_has_y (clsdict : gmap string (@method B)) name (f : @method B) :
  clsdict !! name = Some f →
  name ∈ replacement_list_has_y →
  input_filter clsdict !! name = Some (make_replacement clsdict name true).
Proof.
  intros Hf Hin. unfold input_filter, replacement_list_no_y, replacement_list_has_y in *.
  cbn [foldl].
  repeat (apply elem_of_cons in Hin as [->|Hin]); [..|inversion Hin];
    repeat case_bool_decide;
    try (match goal with
         | Hf : ?m !! ?n = Some _, H : ¬ is_Some (?m !! ?n) |- _ =>
             exfalso; apply H; eauto
         end);
    simplify_map_eq; done.
Qed.

Ltac lookups :=
  repeat first [rewrite lookup_insert_eq | rewrite lookup_insert_ne by done].

Lemma wrapper_x (fdict : gmap string (@method B)) name (f : @method B)
    px lx xa rest kw w :
  fdict !! name = Some f →
  np_array (PySeq lx) = Ok xa →
  kw !! "x" = None → kw !! "y" = None →
  let raw := call_x px (PySeq lx) rest kw in
  let coerced := call_x px (PyArr xa) rest kw in
  make_replacement fdict name false raw.1 raw.2 w = f coerced.1 coerced.2 w ∧
  make_replacement fdict name false coerced.1 coerced.2 w = f coerced.1 coerced.2 w.
Proof.
  intros Hf Hx Hkx Hky.
  assert (Hf' : @lookup string (list pyval → gmap string pyval → M pyval) _ _
                  name fdict = Some f) by exact Hf.
  destruct px; cbn [call_x fst snd]; unfold make_replacement; split;
    do 3 (run; lookups; rewrite ?Hkx, ?Hky, ?Hx, ?Hf', ?insert_insert_eq);
    by destruct (f _ _ w) as [[? ?] ?].
Qed.

Lemma wrapper_xy (fdict : gmap string (@method B)) name (f : @method B)
    form lx ly xa ya rest kw w :
  fdict !! name = Some f →
  np_array (PySeq lx) = Ok xa →
  np_array (PySeq ly) = Ok ya →
  kw !! "x" = None → kw !! "y" = None →
  let raw := call_xy form (PySeq lx) (PySeq ly) rest kw in
  let coerced := call_xy form (PyArr xa) (PyArr ya) rest kw in
  make_replacement fdict name true raw.1 raw.2 w = f coerced.1 coerced.2 w ∧
  make_replacement fdict name true coerced.1 coerced.2 w = f coerced.1 coerced.2 w.
Proof.
  intros Hf Hx Hy Hkx Hky.
  assert (Hf' : @lookup string (list pyval → gmap string pyval → M pyval) _ _
                  name fdict = Some f) by exact Hf.
  destruct form; cbn [call_xy fst snd]; unfold make_replacement; split;
    do 4 (run; lookups; rewrite ?Hkx, ?Hky, ?Hx, ?Hy, ?Hf', ?insert_insert_eq);
    rewrite ?(insert_insert_ne _ "y" "x"), ?insert_insert_eq by done;
    by destruct (f _ _ w) as [[? ?] ?].
Qed.

(** C5. For each of [predict], [get_activations] and [class_gradient] that a
    class defines, the metaclass installs a wrapper such that a call with the
    primary input given as a nested sequence, positionally or by keyword,
    behaves exactly as the call with the array [np.array] makes of it, and
    that call is the class's own method applied to the array.  For [fit] and
    [loss_gradient] the same holds with the labels [y] coerced as well, in
    each way of passing [x] and [y]. *)
Theorem input_filter_coerces_inputs (clsdict : gmap string (@method B)) name
    (f : @method B) :
  clsdict !! name = Some f →
  (name ∈ replacement_list_no_y →
   ∃ m, input_filter clsdict !! name = Some m ∧
     ∀ px lx xa rest kw w,
       np_array (PySeq lx) = Ok xa →
       kw !! "x" = None → kw !! "y" = None →
       let raw := call_x px (PySeq lx) rest kw in
       let coerced := call_x px (PyArr xa) rest kw in
       m raw.1 raw.2 w = m coerced.1 coerced.2 w ∧
       m coerced.1 coerced.2 w = f coerced.1 coerced.2 w) ∧
  (name ∈ replacement_list_has_y →
   ∃ m, input_filter clsdict !! name = Some m ∧
     ∀ form lx ly xa ya rest kw w,
       np_array (PySeq lx) = Ok xa →
       np_array (PySeq ly) = Ok ya →
       kw !! "x" = None → kw !! "y" = None →
       let raw := call_xy form (PySeq lx) (PySeq ly) rest kw in
       let coerced := call_xy form (PyArr xa) (PyArr ya) rest kw in
       m raw.1 raw.2 w = m coerced.1 coerced.2 w ∧
       m coerced.1 coerced.2 w = f coerced.1 coerced.2 w).
Proof.
  intros Hf. split; intros Hin.
  - exists (make_replacement clsdict name false).
    split; [by eapply input_filter_no_y|].
    intros px lx xa rest kw w Hx Hkx Hky.
    destruct (wrapper_x clsdict name f px lx xa rest kw w Hf Hx Hkx Hky) as [H1 H2].
    cbn zeta. rewrite H1, H2. done.
  - exists (make_replacement clsdict name true).
    split; [by eapply input_filter_has_y|].
    intros form lx ly xa ya rest kw w Hx Hy Hkx Hky.
    destruct (wrapper_xy clsdict name f form lx ly xa ya rest kw w Hf Hx Hy Hkx Hky)
      as [H1 H2].
    cbn zeta. rewrite H1, H2. done.
Qed.

(** ** The loops of [fit_generator] *)

(** *** The loop bound: truncated binary64 division of small integers

    For operands below [2 ^ 53] the quotient handed to rounding has 53 or 54
    bits and lies at least two units below the next multiple of [2 ^ s], so
    rounding to nearest cannot reach the next integer: truncating the rounded
    quotient gives the integer quotient. *)

Lemma digits2_pos_bounds p :
  2 ^ (Zpos (digits2_pos p) - 1) <= Zpos p < 2 ^ Zpos (digits2_pos p).
Proof.
  induction p as [p IH|p IH|]; cbn [digits2_pos].
  - rewrite Pos2Z.inj_succ. replace (Z.succ (Z.pos (digits2_pos p)) - 1) with (Z.pos (digits2_pos p)) by lia.
    rewrite Z.pow_succ_r by lia.
    replace (2 ^ Z.pos (digits2_pos p)) with (2 * 2 ^ (Z.pos (digits2_pos p) - 1)) in * by (rewrite <- Z.pow_succ_r by lia; f_equal; lia).
    lia.
  - rewrite Pos2Z.inj_succ. replace (Z.succ (Z.pos (digits2_pos p)) - 1) with (Z.pos (digits2_pos p)) by lia.
    rewrite Z.pow_succ_r by lia.
    replace (2 ^ Z.pos (digits2_pos p)) with (2 * 2 ^ (Z.pos (digits2_pos p) - 1)) in * by (rewrite <- Z.pow_succ_r by lia; f_equal; lia).
    lia.
  - cbn. lia.
Qed.

Lemma Zdigits2_unique x n :
  2 ^ (n - 1) <= x < 2 ^ n → 0 < n → Zdigits2 x = n.
Proof.
  intros [Hlo Hhi] Hn.
  assert (0 < x) by (pose proof (Z.pow_pos_nonneg 2 (n - 1)); lia).
  destruct x as [|p|p]; try lia. cbn [Zdigits2].
  pose proof (digits2_pos_bounds p) as [Hl Hh].
  set (d := Z.pos (digits2_pos p)) in *.
  destruct (Z.lt_trichotomy d n) as [Hlt|[Heq|Hgt]]; [|exact Heq|].
  - assert (2 ^ d <= 2 ^ (n - 1)) by (apply Z.pow_le_mono_r; lia). lia.
  - assert (2 ^ n <= 2 ^ (d - 1)) by (apply Z.pow_le_mono_r; lia). lia.
Qed.

Lemma integer_part_scaled m e S :
  0 <= S → 0 <= e + S → integer_part m e = (m * 2 ^ (e + S)) / 2 ^ S.
Proof.
  intros HS HeS. unfold integer_part. destruct (0 <=? e) eqn:He.
  - apply Z.leb_le in He. rewrite Z.shiftl_mul_pow2 by lia.
    rewrite Z.pow_add_r by lia. rewrite Z.mul_assoc.
    rewrite Z.div_mul; [reflexivity|]. pose proof (Z.pow_pos_nonneg 2 S). lia.
  - apply Z.leb_gt in He. rewrite Z.shiftr_div_pow2 by lia.
    replace S with ((e + S) + (- e)) at 2 by lia.
    rewrite (Z.pow_add_r 2 (e + S) (- e)) by lia.
    rewrite (Z.mul_comm m). rewrite Z.div_mul_cancel_l; [reflexivity| |].
    + pose proof (Z.pow_pos_nonneg 2 (- e)). lia.
    + pose proof (Z.pow_pos_nonneg 2 (e + S)). lia.
Qed.

Lemma shr_fexp_53 m e l :
  Zdigits2 m = 53 → -1074 <= e →
  shr_fexp 53 1024 m e l = (shr_record_of_loc m l, e).
Proof.
  intros Hd He. unfold shr_fexp, fexp, emin. rewrite Hd.
  replace (Z.max (53 + e - 53) (3 - 1024 - 53) - e) with 0 by lia. reflexivity.
Qed.

Lemma shr_fexp_54 m e l :
  Zdigits2 m = 54 → -1075 <= e →
  shr_fexp 53 1024 m e l = (shr_1 (shr_record_of_loc m l), e + 1).
Proof.
  intros Hd He. unfold shr_fexp, fexp, emin. rewrite Hd.
  replace (Z.max (54 + e - 53) (3 - 1024 - 53) - e) with 1 by lia. reflexivity.
Qed.

Lemma round_of_loc m l :
  let mrs := shr_record_of_loc m l in
  round_nearest_even (shr_m mrs) (loc_of_shr_record mrs) = m ∨
  round_nearest_even (shr_m mrs) (loc_of_shr_record mrs) = m + 1.
Proof.
  destruct l as [|[]]; cbn; auto. destruct (Z.even m); auto.
Qed.

Lemma round_of_shr_1 q l :
  0 < q →
  let mrs := shr_1 (shr_record_of_loc q l) in
  round_nearest_even (shr_m mrs) (loc_of_shr_record mrs) = q / 2 ∨
  (round_nearest_even (shr_m mrs) (loc_of_shr_record mrs) = q / 2 + 1 ∧
   q = 2 * (q / 2) + 1).
Proof.
  intros Hq. destruct q as [|p|p]; try lia.
  assert (Hdiv : ∀ p', Z.pos p'~1 / 2 = Z.pos p' ∧ Z.pos p'~0 / 2 = Z.pos p').
  { intros p'. split.
    - symmetry. apply (Z.div_unique (Z.pos p'~1) 2 (Z.pos p') 1);
        [lia|rewrite Pos2Z.inj_xI; lia].
    - symmetry. apply (Z.div_unique (Z.pos p'~0) 2 (Z.pos p') 0);
        [lia|rewrite Pos2Z.inj_xO; lia]. }
  destruct p as [p'|p'|].
  - destruct (Hdiv p') as [-> _].
    assert (Z.pos p'~1 = 2 * Z.pos p' + 1) by apply Pos2Z.inj_xI.
    destruct l as [|[]]; cbn; try (right; split; [reflexivity|assumption]);
      destruct p'; auto.
  - destruct (Hdiv p') as [_ ->].
    destruct l as [|[]]; cbn; auto.
  - change (1 / 2) with 0. destruct l as [|[]]; cbn; auto.
Qed.

Lemma second_shift m e :
  2 ^ 52 <= m <= 2 ^ 53 → -1074 <= e →
  ∃ m' e', shr_fexp 53 1024 m e loc_Exact
            = ({| shr_m := Zpos m'; shr_r := false; shr_s := false |}, e') ∧
           e <= e' <= e + 1 ∧
           ∀ S, 0 <= S → 0 <= e + S → Zpos m' * 2 ^ (e' + S) = m * 2 ^ (e + S).
Proof.
  intros [Hlo Hhi] He.
  destruct (Z.eq_dec m (2 ^ 53)) as [->|Hne].
  - exists (4503599627370496%positive), (e + 1). split; [|split; [lia|]].
    + rewrite shr_fexp_54; [reflexivity|reflexivity|lia].
    + intros S HS HeS. replace (e + 1 + S) with (Z.succ (e + S)) by lia.
      rewrite Z.pow_succ_r by lia. lia.
  - assert (Hd : Zdigits2 m = 53) by (apply Zdigits2_unique; lia).
    assert (0 < m) by lia. destruct m as [|p|p]; try lia.
    exists p, e. split; [|split; [lia|reflexivity]].
    rewrite shr_fexp_53 by assumption. reflexivity.
Qed.

Lemma div_between V c Q : 0 < c → Q * c <= V < (Q + 1) * c → V / c = Q.
Proof.
  intros Hc [Hlo Hhi]. symmetry. apply (Z.div_unique V c Q (V - Q * c)); lia.
Qed.

Lemma Zdigits2_bounds x :
  0 < x → 0 < Zdigits2 x ∧ 2 ^ (Zdigits2 x - 1) <= x < 2 ^ Zdigits2 x.
Proof.
  intros Hx. destruct x as [|p|p]; try lia. cbn [Zdigits2].
  split; [lia|apply digits2_pos_bounds].
Qed.

(** The quotient digits [q] that the division hands to rounding, and what
    they say about the integer quotient. *)
Lemma scaled_quotient a b s :
  0 < a → 0 < b → b < 2 ^ s → 0 <= s →
  let q := (a * 2 ^ s) / b in
  (a / b) * 2 ^ s <= q ∧ q + 2 <= (a / b + 1) * 2 ^ s.
Proof.
  intros Ha Hb Hs Hs0 q.
  set (P := 2 ^ s) in *. set (Q := a / b).
  assert (HQ : a = b * Q + a mod b) by apply Z.div_mod, Z.neq_sym, Z.lt_neq, Hb.
  assert (Hra : 0 <= a mod b < b) by (apply Z.mod_pos_bound; exact Hb).
  assert (Hq : a * P = b * q + (a * P) mod b) by apply Z.div_mod, Z.neq_sym, Z.lt_neq, Hb.
  assert (Hr : 0 <= (a * P) mod b < b) by (apply Z.mod_pos_bound; exact Hb).
  assert (HP : 0 < P) by (apply Z.pow_pos_nonneg; lia).
  assert (0 <= Q) by (apply Z.div_pos; lia).
  split.
  - assert (b * (Q * P) < b * (q + 1)) by nia.
    assert (Q * P < q + 1) by (apply (Z.mul_lt_mono_pos_l b); assumption). lia.
  - assert (b * (q + 1) < b * ((Q + 1) * P)) by nia.
    assert (q + 1 < (Q + 1) * P) by (apply (Z.mul_lt_mono_pos_l b); assumption). lia.
Qed.

Lemma quotient_digits a b :
  0 < a < 2 ^ 53 → 0 < b < 2 ^ 53 →
  let s := 53 + Zdigits2 b - Zdigits2 a in
  0 < s <= 105 ∧ b < 2 ^ s ∧ 2 ^ 52 <= (a * 2 ^ s) / b < 2 ^ 54.
Proof.
  intros [Ha Ha'] [Hb Hb'] s.
  destruct (Zdigits2_bounds a Ha) as (Hd1 & Hal & Hah).
  destruct (Zdigits2_bounds b Hb) as (Hd2 & Hbl & Hbh).
  set (d1 := Zdigits2 a) in *. set (d2 := Zdigits2 b) in *.
  assert (d1 <= 53).
  { destruct (Z.le_gt_cases d1 53) as [|Hgt]; [assumption|].
    assert (2 ^ 53 <= 2 ^ (d1 - 1)) by (apply Z.pow_le_mono_r; lia). lia. }
  assert (d2 <= 53).
  { destruct (Z.le_gt_cases d2 53) as [|Hgt]; [assumption|].
    assert (2 ^ 53 <= 2 ^ (d2 - 1)) by (apply Z.pow_le_mono_r; lia). lia. }
  assert (Hs : 0 < s <= 105) by (subst s; lia).
  assert (Hbs : b < 2 ^ s).
  { assert (2 ^ d2 <= 2 ^ s) by (apply Z.pow_le_mono_r; subst s; lia). lia. }
  split; [exact Hs|]. split; [exact Hbs|].
  assert (Hlo : 2 ^ 52 * 2 ^ d2 <= a * 2 ^ s).
  { rewrite <- Z.pow_add_r by lia.
    replace (52 + d2) with ((d1 - 1) + s) by (subst s; lia).
    rewrite Z.pow_add_r by lia. apply Z.mul_le_mono_nonneg_r; [|exact Hal].
    apply Z.pow_nonneg. lia. }
  assert (Hhi : a * 2 ^ s < 2 ^ 54 * 2 ^ (d2 - 1)).
  { rewrite <- Z.pow_add_r by lia.
    replace (54 + (d2 - 1)) with (d1 + s) by (subst s; lia).
    rewrite Z.pow_add_r by lia. apply Z.mul_lt_mono_pos_r; [|exact Hah].
    apply Z.pow_pos_nonneg; lia. }
  assert (0 < 2 ^ d2) by (apply Z.pow_pos_nonneg; lia).
  split.
  - apply Z.div_le_lower_bound; [exact Hb|]. nia.
  - apply Z.div_lt_upper_bound; [exact Hb|]. nia.
Qed.

Lemma truediv_floor a b :
  0 < a < 2 ^ 53 → 0 < b < 2 ^ 53 →
  py_truediv a b ≫= py_int = Ok (a / b).
Proof.
  intros Ha Hb. destruct (quotient_digits a b Ha Hb) as (Hs & Hbs & Hq).
  destruct (scaled_quotient a b (53 + Zdigits2 b - Zdigits2 a)) as [HQl HQh];
    [lia|lia|exact Hbs|lia|].
  unfold py_truediv.
  replace (b =? 0) with false by (symmetry; apply Z.eqb_neq; lia).
  replace (a =? 0) with false by (symmetry; apply Z.eqb_neq; lia).
  replace (a <? 0) with false by (symmetry; apply Z.ltb_ge; lia).
  replace (b <? 0) with false by (symmetry; apply Z.ltb_ge; lia).
  rewrite !Z.abs_eq by lia. cbn [xorb].
  unfold SFdiv_core_binary.
  set (s := 53 + Zdigits2 b - Zdigits2 a) in *.
  replace (Z.min (fexp 53 1024 (Zdigits2 a + 0 - (Zdigits2 b + 0))) (0 - 0))
    with (- s) by (unfold fexp, emin; subst s; lia).
  replace (0 - 0 - - s) with s by lia.
  assert (Hm : match s with
               | 0 => a
               | Z.pos _ => Z.shiftl a s
               | Z.neg _ => 0
               end = a * 2 ^ s).
  { destruct s; try lia. apply Z.shiftl_mul_pow2. lia. }
  rewrite Hm. clear Hm.
  assert (Hdiv : Z.div_eucl (a * 2 ^ s) b = ((a * 2 ^ s) / b, (a * 2 ^ s) mod b)).
  { unfold Z.div, Z.modulo. destruct (Z.div_eucl (a * 2 ^ s) b). reflexivity. }
  rewrite Hdiv. clear Hdiv.
  set (q := (a * 2 ^ s) / b) in *. set (l := new_location b _).
  set (Q := a / b) in *.
  assert (HP : 0 < 2 ^ s) by (apply Z.pow_pos_nonneg; lia).
  unfold binary_round_aux.
  destruct (Z.lt_ge_cases q (2 ^ 53)) as [Hq53|Hq54].
  - (* 53 digits: no shift before rounding *)
    rewrite shr_fexp_53 by (try apply Zdigits2_unique; lia).
    pose proof (round_of_loc q l) as Hr. cbn zeta in Hr.
    set (m2 := round_nearest_even _ _) in *.
    destruct (second_shift m2 (- s)) as (m' & e' & -> & He' & Hv); [lia|lia|].
    cbn [shr_m].
    replace (e' <=? 1024 - 53) with true by (symmetry; apply Z.leb_le; lia).
    cbn [mbind result_bind py_int cond_Zopp]. f_equal.
    change (integer_part (Z.pos m') e' = Q).
    rewrite (integer_part_scaled _ _ s) by lia. rewrite (Hv s) by lia.
    replace (- s + s) with 0 by lia. rewrite Z.mul_1_r.
    apply div_between; lia.
  - (* 54 digits: one bit is shifted out before rounding *)
    rewrite shr_fexp_54 by (try apply Zdigits2_unique; lia).
    pose proof (round_of_shr_1 q l) as Hr. cbn zeta in Hr.
    set (m2 := round_nearest_even _ _) in *.
    assert (Hq2 : 2 ^ 52 <= q / 2 < 2 ^ 53).
    { split; [apply Z.div_le_lower_bound; lia|apply Z.div_lt_upper_bound; lia]. }
    assert (Hqq : 2 * (q / 2) <= q) by (apply Z.mul_div_le; lia).
    assert (Hqq' : q < 2 * (q / 2) + 2).
    { pose proof (Z.mod_pos_bound q 2). pose proof (Z.div_mod q 2). lia. }
    destruct (second_shift m2 (- s + 1)) as (m' & e' & -> & He' & Hv); [lia|lia|].
    cbn [shr_m].
    replace (e' <=? 1024 - 53) with true by (symmetry; apply Z.leb_le; lia).
    cbn [mbind result_bind py_int cond_Zopp]. f_equal.
    change (integer_part (Z.pos m') e' = Q).
    rewrite (integer_part_scaled _ _ s) by lia. rewrite (Hv s) by lia.
    replace (- s + 1 + s) with 1 by lia. change (2 ^ 1) with 2.
    assert (Heven : Q * 2 ^ s = 2 * (Q * 2 ^ (s - 1))).
    { replace s with (Z.succ (s - 1)) at 1 by lia.
      rewrite Z.pow_succ_r by lia. ring. }
    apply div_between; lia.
Qed.

(** *** The loops *)

Lemma bind_assoc {A1 A2 A3} (m : @M B A1) (f : A1 → M A2) (g : A2 → M A3) w :
  ((m ≫= f) ≫= g) w = (m ≫= λ a, f a ≫= g) w.
Proof.
  rewrite !run_bind. destruct (m w) as [[[a|e] w'] t]; [|reflexivity].
  rewrite run_bind. destruct (f a w') as [[[b|e] w''] t']; [|reflexivity].
  destruct (g b w'') as [[r w3] t3]. rewrite app_assoc. reflexivity.
Qed.

Lemma bind_ext {A1 A2} (m : @M B A1) (f g : A1 → M A2) w :
  (∀ a w', f a w' = g a w') → (m ≫= f) w = (m ≫= g) w.
Proof.
  intros H. rewrite !run_bind. destruct (m w) as [[[a|e] w'] t]; [|reflexivity].
  rewrite H. reflexivity.
Qed.

Lemma repeatM_ext n (m m' : @M B unit) :
  (∀ w, m w = m' w) → ∀ w, repeatM n m w = repeatM n m' w.
Proof.
  intros H. induction n as [|n IH]; intros w; [reflexivity|].
  cbn [repeatM]. rewrite !run_bind, H.
  destruct (m' w) as [[[[]|e] w'] t]; [|reflexivity]. rewrite IH. reflexivity.
Qed.

Lemma repeatM_add a b (m : @M B unit) w :
  repeatM (a + b) m w = (repeatM a m;; repeatM b m) w.
Proof.
  revert w. induction a as [|a IH]; intros w.
  - cbn [repeatM Nat.add]. rewrite run_bind. cbn.
    destruct (repeatM b m w) as [[r w'] t]. reflexivity.
  - cbn [repeatM Nat.add]. rewrite bind_assoc. apply bind_ext.
    intros [] w'. apply IH.
Qed.

Lemma repeatM_mul a b (m : @M B unit) w :
  repeatM a (repeatM b m) w = repeatM (a * b) m w.
Proof.
  revert w. induction a as [|a IH]; intros w; [reflexivity|].
  cbn [repeatM Nat.mul]. rewrite repeatM_add. apply bind_ext.
  intros [] w'. apply IH.
Qed.

Lemma fit_generator_flat self generator nb_epochs kwargs k w :
  nb_batches generator = Ok k →
  fit_generator label_format self generator nb_epochs kwargs w =
  repeatM (Z.to_nat nb_epochs * Z.to_nat k)
    (train_on_batch label_format self generator kwargs) w.
Proof.
  intros Hk. unfold fit_generator, for_range. rewrite <- repeatM_mul.
  apply repeatM_ext. intros w'. rewrite run_bind. unfold lift. rewrite Hk.
  unfold for_range, train_on_batch.
  destruct (repeatM (Z.to_nat k) _ w') as [[r w''] t]. reflexivity.
Qed.

Lemma pulls_app (l1 l2 : list (@event B)) : pulls (l1 ++ l2) = (pulls l1 + pulls l2)%nat.
Proof. unfold pulls. rewrite omap_app, length_app. reflexivity. Qed.

Lemma fits_app (l1 l2 : list (@event B)) : fits (l1 ++ l2) = fits l1 ++ fits l2.
Proof. apply omap_app. Qed.

Lemma pipeline_events_silent (evs : list (@event B)) :
  Forall (λ e, is_pipeline_event e = true) evs → pulls evs = 0%nat ∧ fits evs = [].
Proof.
  induction 1 as [|e evs He _ [IH1 IH2]]; [done|].
  unfold pulls, fits in *. destruct e; try discriminate; cbn; auto.
Qed.

Lemma standardisation_events self x w :
  Forall (λ e, is_arithmetic e = true)
    (events (_apply_preprocessing_standardisation self x w)).
Proof.
  unfold _apply_preprocessing_standardisation.
  case_bool_decide; [constructor|].
  destruct (preprocessing self) as [p|]; [|constructor].
  run. destruct (unpack2 p) as [[s d]|]; cbn; [|constructor].
  destruct (np_asarray s (arr_dtype x)) as [s'|]; cbn; [|repeat constructor].
  destruct (np_asarray d (arr_dtype x)) as [d'|]; cbn; [|repeat constructor].
  destruct (np_subtract x s') as [r|]; cbn; [|repeat constructor].
  destruct (np_true_divide r d'); cbn; repeat constructor.
Qed.

Lemma preprocessing_events self x y fit w :
  Forall (λ e, is_pipeline_event e = true)
    (events (_apply_preprocessing label_format self x y fit w)).
Proof.
  unfold _apply_preprocessing. rewrite events_bind. apply Forall_app. split.
  { unfold call. destruct (impl_nb_classes (cls self) w). repeat constructor. }
  destruct (outcome _) as [n|]; [|constructor].
  rewrite events_bind. apply Forall_app. split; [constructor|].
  destruct (outcome (lift _ _)) as [y1|]; [|constructor].
  rewrite events_bind. apply Forall_app. split.
  { apply Forall_forall. intros e He. rewrite forward_loop in He.
    apply for_each_guarded_events_in in He as (a & _ & _ & ->). reflexivity. }
  destruct (outcome _) as [[x' y']|]; [|constructor].
  rewrite events_bind. apply Forall_app. split.
  { eapply Forall_impl; [apply standardisation_events|].
    intros e He. destruct e; done. }
  destruct (outcome _); constructor.
Qed.

Lemma call_fit_events self x y bs kwargs w :
  events (call_fit self x y bs kwargs w) = [] ∧
  is_ok (outcome (call_fit self x y bs kwargs w)) = false ∨
  events (call_fit self x y bs kwargs w) = [EvFit x y bs 1 kwargs].
Proof.
  unfold call_fit. repeat case_bool_decide; [left; done..|right].
  unfold call. destruct (impl_fit _ _ _ _ _ _ _). reflexivity.
Qed.

Lemma call_fit_passed_twice self x y bs kwargs w :
  passed_twice kwargs → call_fit self x y bs kwargs w = (Raise TypeError, w, []).
Proof. intros H. unfold call_fit. rewrite bool_decide_eq_true_2 by exact H. reflexivity. Qed.

Lemma train_on_batch_run self generator kwargs w :
  train_on_batch label_format self generator kwargs w =
  match get_batch generator w with
  | (Ok (x, y), w1) =>
      match _apply_preprocessing label_format self x (Some y) true w1 with
      | (Ok (xp, yp), w2, tpre) =>
          let '(r, w3, tfit) := call_fit self xp yp (gen_batch_size generator) kwargs w2 in
          (r, w3, EvGetBatch :: tpre ++ tfit)
      | (Raise e, w2, tpre) => (Raise e, w2, EvGetBatch :: tpre)
      end
  | (Raise e, w1) => (Raise e, w1, [EvGetBatch])
  end.
Proof.
  unfold train_on_batch. rewrite run_bind. unfold call at 1.
  destruct (get_batch generator w) as [[[x y]|e] w1]; [|reflexivity].
  rewrite run_bind.
  destruct (_apply_preprocessing label_format self x (Some y) true w1)
    as [[[[xp yp]|e] w2] tpre]; [|reflexivity].
  destruct (call_fit _ _ _ _ _ _) as [[r w3] tfit]. reflexivity.
Qed.

Lemma train_on_batch_counts self generator kwargs w :
  is_ok (outcome (train_on_batch label_format self generator kwargs w)) = true →
  pulls (events (train_on_batch label_format self generator kwargs w)) = 1%nat ∧
  fits (events (train_on_batch label_format self generator kwargs w))
    = [(gen_batch_size generator, 1)].
Proof.
  rewrite train_on_batch_run.
  destruct (get_batch generator w) as [[[x y]|e] w1]; [|discriminate].
  pose proof (preprocessing_events self x (Some y) true w1) as Hpre.
  destruct (_apply_preprocessing label_format self x (Some y) true w1)
    as [[[[xp yp]|e] w2] tpre]; [|discriminate].
  pose proof (call_fit_events self xp yp (gen_batch_size generator) kwargs w2) as Hfit.
  destruct (call_fit _ _ _ _ _ _) as [[r w3] tfit].
  cbn [events outcome fst snd] in *. intros Hok.
  destruct Hfit as [[_ Hno]| ->]; [congruence|].
  destruct (pipeline_events_silent _ Hpre) as [Hp Hf].
  change (EvGetBatch :: tpre ++ [EvFit xp yp (gen_batch_size generator) 1 kwargs])
    with ([EvGetBatch] ++ tpre ++ [EvFit xp yp (gen_batch_size generator) 1 kwargs]).
  rewrite !pulls_app, !fits_app, Hp, Hf. done.
Qed.

(** A round in which a keyword is passed twice pulls its batch and fails
    without a call to [fit]. *)
Lemma train_on_batch_passed_twice self generator kwargs w :
  passed_twice kwargs →
  is_ok (outcome (train_on_batch label_format self generator kwargs w)) = false ∧
  pulls (events (train_on_batch label_format self generator kwargs w)) = 1%nat ∧
  fits (events (train_on_batch label_format self generator kwargs w)) = [].
Proof.
  intros Hk. rewrite train_on_batch_run.
  destruct (get_batch generator w) as [[[x y]|e] w1]; [|done].
  pose proof (preprocessing_events self x (Some y) true w1) as Hpre.
  destruct (_apply_preprocessing label_format self x (Some y) true w1)
    as [[[[xp yp]|e] w2] tpre]; cbn [events snd] in Hpre;
    destruct (pipeline_events_silent _ Hpre) as [Hp Hf].
  - rewrite call_fit_passed_twice by exact Hk. cbn [events outcome fst snd].
    change (EvGetBatch :: tpre ++ []) with ([EvGetBatch] ++ tpre ++ []).
    rewrite !pulls_app, !fits_app, Hp, Hf. done.
  - cbn [events outcome fst snd].
    change (EvGetBatch :: tpre) with ([EvGetBatch] ++ tpre).
    rewrite !pulls_app, !fits_app, Hp, Hf. done.
Qed.

Lemma repeatM_counts n (m : @M B unit) c w :
  (∀ w, is_ok (outcome (m w)) = true →
        pulls (events (m w)) = 1%nat ∧ fits (events (m w)) = [c]) →
  is_ok (outcome (repeatM n m w)) = true →
  pulls (events (repeatM n m w)) = n ∧ fits (events (repeatM n m w)) = replicate n c.
Proof.
  intros Hm. revert w. induction n as [|n IH]; intros w; [done|].
  cbn [repeatM]. rewrite outcome_bind, events_bind, pulls_app, fits_app.
  specialize (Hm w). destruct (outcome (m w)) as [[]|]; [|discriminate].
  intros Hok. destruct (Hm eq_refl) as [-> ->].
  destruct (IH _ Hok) as [-> ->]. done.
Qed.

Lemma repeatM_ok n (m : @M B unit) :
  (∀ w, is_ok (outcome (m w)) = true) → ∀ w, is_ok (outcome (repeatM n m w)) = true.
Proof.
  intros Hm. induction n as [|n IH]; intros w; [reflexivity|].
  cbn [repeatM]. rewrite outcome_bind. specialize (Hm w).
  destruct (outcome (m w)) as [[]|]; [apply IH|discriminate].
Qed.

Lemma nb_batches_floor (generator : @DataGenerator B) :
  0 <= gen_size generator < 2 ^ 53 →
  0 < gen_batch_size generator < 2 ^ 53 →
  nb_batches generator = Ok (gen_size generator / gen_batch_size generator).
Proof.
  intros Ha Hb. unfold nb_batches.
  destruct (Z.eq_dec (gen_size generator) 0) as [->|Hne].
  - unfold py_truediv.
    replace (gen_batch_size generator =? 0) with false
      by (symmetry; apply Z.eqb_neq; lia).
    reflexivity.
  - apply truediv_floor; lia.
Qed.

(** X29. With [0 <= generator.size < 2 ^ 53] and
    [0 < generator.batch_size < 2 ^ 53], [fit_generator] is
    [nb_epochs * floor(size / batch_size)] rounds of: pull one batch with
    [get_batch], run it through the forward pipeline in fit mode, call [fit]
    on the result with [nb_epochs=1] and the batch size of the generator.  If
    no call raises, exactly that many batches are pulled and [fit] is called
    exactly that many times, each time with these arguments.  If [kwargs]
    itself names [nb_epochs] or [batch_size] and there is a round to run, the
    first round pulls its batch and the run fails there, without any call to
    [fit]. *)
Theorem fit_generator_rounds self generator nb_epochs kwargs w :
  0 <= gen_size generator < 2 ^ 53 →
  0 < gen_batch_size generator < 2 ^ 53 →
  let rounds :=
    (Z.to_nat nb_epochs * Z.to_nat (gen_size generator / gen_batch_size generator))%nat in
  fit_generator label_format self generator nb_epochs kwargs w =
    repeatM rounds (train_on_batch label_format self generator kwargs) w ∧
  (is_ok (outcome (fit_generator label_format self generator nb_epochs kwargs w))
     = true →
   pulls (events (fit_generator label_format self generator nb_epochs kwargs w))
     = rounds ∧
   fits (events (fit_generator label_format self generator nb_epochs kwargs w))
     = replicate rounds (gen_batch_size generator, 1)) ∧
  (passed_twice kwargs → (0 < rounds)%nat →
   is_ok (outcome (fit_generator label_format self generator nb_epochs kwargs w))
     = false ∧
   pulls (events (fit_generator label_format self generator nb_epochs kwargs w))
     = 1%nat ∧
   fits (events (fit_generator label_format self generator nb_epochs kwargs w)) = []).
Proof.
  intros Hsize Hbatch rounds. subst rounds.
  rewrite (fit_generator_flat _ _ _ _ _ _ (nb_batches_floor _ Hsize Hbatch)).
  split; [reflexivity|]. split.
  - apply repeatM_counts. intros w'. apply train_on_batch_counts.
  - intros Hk Hpos.
    destruct (Z.to_nat nb_epochs * Z.to_nat (gen_size generator / gen_batch_size generator))%nat
      as [|n]; [lia|].
    cbn [repeatM]. rewrite outcome_bind, events_bind.
    destruct (train_on_batch_passed_twice self generator kwargs w Hk) as (Hno & Hp & Hf).
    destruct (outcome (train_on_batch label_format self generator kwargs w));
      [discriminate|].
    rewrite app_nil_r. done.
Qed.

(** ** C7: postprocessing works on a copy *)

Lemma post_applied_fmap (l : list (@Postprocessor B)) :
  post_applied (EvPostDefence <$> l) = l.
Proof. induction l; cbn; [reflexivity|]. f_equal. assumption. Qed.

Lemma postprocessing_loop self (cur : loc) (fit : bool) w :
  match postprocessing_defences self with
  | Some ds =>
      for_each ds (λ defence post_preds,
        if fit then
          if post_apply_fit defence
          then call (EvPostDefence defence) (post_call defence post_preds)
          else mret post_preds
        else
          if post_apply_predict defence
          then call (EvPostDefence defence) (post_call defence post_preds)
          else mret post_preds) cur
  | None => mret cur
  end w =
  for_each (post_defences_of self)
    (guarded (post_selected fit) EvPostDefence post_call) cur w.
Proof.
  unfold post_defences_of.
  destruct (postprocessing_defences self) as [ds|]; [|reflexivity].
  apply for_each_ext. intros d l w'.
  unfold guarded, post_selected. destruct fit; reflexivity.
Qed.

(** The loop over defences that keep to their argument never touches an
    array object other than the current one and those created on the way. *)
Lemma post_loop_frame (ds : list (@Postprocessor B)) sel preds a cur w :
  Forall keeps_to_argument ds →
  cur ≠ preds →
  w_heap w !! preds = Some a →
  let run := for_each ds (guarded sel EvPostDefence post_call) cur w in
  w_heap (final run) !! preds = Some a ∧
  ∀ l, outcome run = Ok l → l ≠ preds.
Proof.
  intros Hds. revert cur w. induction Hds as [|d ds Hd _ IH]; intros cur w Hne Hp.
  - cbn. split; [exact Hp|]. intros l [= <-]. exact Hne.
  - cbn zeta. cbn [for_each]. rewrite final_bind, outcome_bind, guarded_run.
    destruct (sel d).
    + destruct (Hd cur w) as [Hframe Hres].
      destruct (post_call d cur w) as [[l'|e] w'] eqn:Hcall; cbn in *.
      * assert (Hp' : w_heap w' !! preds = Some a).
        { rewrite Hframe; [exact Hp|congruence|rewrite Hp; eauto]. }
        assert (Hne' : l' ≠ preds).
        { destruct (Hres l' eq_refl) as [->|Hnone]; [exact Hne|congruence]. }
        apply (IH l' w' Hne' Hp').
      * split; [|discriminate].
        rewrite Hframe; [exact Hp|congruence|rewrite Hp; eauto].
    + cbn. apply (IH cur w Hne Hp).
Qed.

(** C7. [_apply_postprocessing] leaves the array object [preds] as it was,
    whether it returns or raises, provided every configured defence keeps to
    its argument: the defences only ever receive the copy or what an earlier
    defence returned.  When it returns, the result is another array object
    than [preds], and the defences called are, in list order, those whose
    flag for the current mode is set. *)
Theorem postprocessing_leaves_preds_unchanged self preds fit w a :
  w_heap w !! preds = Some a →
  Forall keeps_to_argument (post_defences_of self) →
  w_heap (final (_apply_postprocessing self preds fit w)) !! preds = Some a ∧
  ∀ l, outcome (_apply_postprocessing self preds fit w) = Ok l →
    l ≠ preds ∧
    post_applied (events (_apply_postprocessing self preds fit w))
      = filter (λ q, post_selected fit q = true) (post_defences_of self).
Proof.
  intros Hp Hds. unfold _apply_postprocessing.
  set (l0 := fresh (dom (w_heap w))).
  set (w0 := mk_world (<[l0:=a]> (w_heap w)) (w_ext w)).
  assert (Hcopy : ndarray_copy preds w = (Ok l0, w0, [])).
  { unfold ndarray_copy. rewrite Hp. reflexivity. }
  assert (Hl0 : l0 ≠ preds).
  { intros Heq. apply (is_fresh (dom (w_heap w))). fold l0. rewrite Heq.
    apply elem_of_dom. eauto. }
  assert (Hp0 : w_heap w0 !! preds = Some a).
  { cbn. rewrite lookup_insert_ne by exact Hl0. exact Hp. }
  rewrite final_bind, outcome_bind, events_bind, Hcopy.
  cbn [outcome final events fst snd app]. rewrite postprocessing_loop.
  destruct (post_loop_frame _ (post_selected fit) preds a l0 w0 Hds Hl0 Hp0) as [Hf Hr].
  split; [exact Hf|]. intros l Hl. split; [exact (Hr l Hl)|].
  rewrite for_each_guarded_events_ok by (rewrite Hl; reflexivity).
  apply post_applied_fmap.
Qed.

(** ** C8: [layer_names] *)

(** C8 (amended). Reading [layer_names] on a classifier whose class does not
    override the property raises [NotImplementedError], with no effect on the
    world; on a class that overrides it, reading it runs the override. *)
Theorem layer_names_of_base_class_raises self :
  (impl_layer_names (cls self) = None →
   ∀ w, layer_names self w = (Raise NotImplementedError, w, [])) ∧
  (∀ f, impl_layer_names (cls self) = Some f →
   ∀ w, outcome (layer_names self w) = (f w).1 ∧ final (layer_names self w) = (f w).2).
Proof.
  unfold layer_names. split.
  - intros -> w. reflexivity.
  - intros f -> w. unfold call. destruct (f w). done.
Qed.

(** ** Further properties of the constructor and the backward pipeline *)

(** X3. A defence given to the constructor on its own is stored as a list of
    one defence. *)
Theorem init_wraps_single_defence (k : @Subclass B) clip p q prep self :
  Classifier__init__ k clip (Some (Single p)) (Some (Single q)) prep = Ok self →
  preprocessing_defences self = Some [p] ∧ postprocessing_defences self = Some [q].
Proof.
  intros H. destruct (init_inv _ _ _ _ _ _ H) as (-> & _ & _). done.
Qed.

(** X2. The backward step through standardisation divides the gradients by
    [divide], cast to their element type, and does not subtract; without a
    standardisation pair it returns the gradients as they are. *)
Theorem normalization_gradient_divides self g w :
  (∀ subtract divide, preprocessing self = Some [subtract; divide] →
     outcome (_apply_preprocessing_normalization_gradient self g w)
       = (dv ← np_asarray divide (arr_dtype g); np_true_divide g dv) ∧
     final (_apply_preprocessing_normalization_gradient self g w) = w) ∧
  (preprocessing self = None →
     _apply_preprocessing_normalization_gradient self g w = (Ok g, w, [])).
Proof.
  unfold _apply_preprocessing_normalization_gradient. split.
  - intros subtract divide ->. run.
    destruct (np_asarray divide (arr_dtype g)) as [dv|]; cbn; [|done].
    destruct (np_true_divide g dv); done.
  - intros ->. reflexivity.
Qed.

(** ** The defence loops in general *)

Lemma for_each_app {A S} (l1 l2 : list A) (body : A → S → @M B S) s w :
  for_each (l1 ++ l2) body s w = (for_each l1 body s ≫= for_each l2 body) w.
Proof.
  revert s w. induction l1 as [|a l1 IH]; intros s w.
  - cbn [app for_each]. rewrite run_bind. cbn.
    destruct (for_each l2 body s w) as [[r w'] t]. reflexivity.
  - cbn [app for_each]. rewrite bind_assoc. apply bind_ext. intros s' w'. apply IH.
Qed.

Lemma defences_of_with self (l : list (@Preprocessor B)) :
  defences_of (with_defences self l) = l.
Proof. reflexivity. Qed.

Lemma forward_compose self l1 l2 x y fit w :
  _apply_preprocessing_defences (with_defences self (l1 ++ l2)) x y fit w =
    ('(x', y') ← _apply_preprocessing_defences (with_defences self l1) x y fit;
     _apply_preprocessing_defences (with_defences self l2) x' y' fit) w.
Proof.
  rewrite forward_loop, defences_of_with, for_each_app, !run_bind.
  rewrite forward_loop, defences_of_with.
  destruct (for_each l1 _ _ w) as [[[[x' y']|e] w'] t]; [|reflexivity].
  rewrite forward_loop. reflexivity.
Qed.

(** X4. The defence pipelines compose: running the forward pipeline over the
    list [l1 ++ l2] is running it over [l1] and then over [l2] on what the
    first run returns; the backward pipeline over [l1 ++ l2] goes through
    [l2] first and then through [l1]. *)
Theorem defence_pipelines_compose self l1 l2 x y g fit w :
  _apply_preprocessing_defences (with_defences self (l1 ++ l2)) x y fit w =
    ('(x', y') ← _apply_preprocessing_defences (with_defences self l1) x y fit;
     _apply_preprocessing_defences (with_defences self l2) x' y' fit) w ∧
  _apply_preprocessing_defences_gradient (with_defences self (l1 ++ l2)) x g fit w =
    (g' ← _apply_preprocessing_defences_gradient (with_defences self l2) x g fit;
     _apply_preprocessing_defences_gradient (with_defences self l1) x g' fit) w.
Proof.
  split; [apply forward_compose|].
  rewrite backward_loop, defences_of_with, reverse_app, for_each_app, !run_bind.
  rewrite backward_loop, defences_of_with.
  destruct (for_each (reverse l2) _ _ w) as [[[g'|e] w'] t]; [|reflexivity].
  rewrite backward_loop. reflexivity.
Qed.

(** X5. Whatever the flags, when a defence loop returns it has called exactly
    the defences whose flag for the mode is set: the forward loop in list
    order, the backward loop, in fit mode as in predict mode, in the reverse
    of the list order. *)
Theorem defence_loops_follow_flags self x y g fit w :
  (is_ok (outcome (_apply_preprocessing_defences self x y fit w)) = true →
   events (_apply_preprocessing_defences self x y fit w)
     = EvDefence <$> filter (λ d, pre_selected fit d = true) (defences_of self)) ∧
  (is_ok (outcome (_apply_preprocessing_defences_gradient self x g fit w)) = true →
   events (_apply_preprocessing_defences_gradient self x g fit w)
     = EvEstimateGradient <$>
         reverse (filter (λ d, pre_selected fit d = true) (defences_of self))).
Proof.
  split; intros Hok.
  - rewrite forward_loop in *. apply for_each_guarded_events_ok, Hok.
  - rewrite backward_loop in *. rewrite <- filter_reverse.
    apply for_each_guarded_events_ok, Hok.
Qed.

(** X6. A defence that raises ends the forward pipeline: when the defences
    before it return and the defence, selected for the mode, raises [e], the
    pipeline raises [e] in the world the defence leaves, and no defence after
    it in the list is called. *)
Theorem failing_defence_stops_the_pipeline self l1 l2 d x y fit w x' y' w' t e w'' :
  _apply_preprocessing_defences (with_defences self l1) x y fit w = (Ok (x', y'), w', t) →
  pre_selected fit d = true →
  pre_call d x' y' w' = (Raise e, w'') →
  _apply_preprocessing_defences (with_defences self (l1 ++ d :: l2)) x y fit w
    = (Raise e, w'', t ++ [EvDefence d]).
Proof.
  intros Hl1 Hsel Hd.
  rewrite forward_compose, run_bind, Hl1, forward_loop, defences_of_with.
  cbn [for_each]. rewrite run_bind, guarded_run, Hsel, Hd. reflexivity.
Qed.

(** ** Which defences a run can reach *)

Lemma preprocessing_defence_events self x y fit w d :
  EvDefence d ∈ events (_apply_preprocessing label_format self x y fit w) →
  d ∈ defences_of self ∧ pre_selected fit d = true.
Proof.
  unfold _apply_preprocessing. rewrite events_bind. intros [He|He]%elem_of_app.
  { unfold call in He. destruct (impl_nb_classes (cls self) w).
    apply list_elem_of_singleton in He. discriminate. }
  destruct (outcome _) as [n|]; [|inversion He].
  rewrite events_bind in He. apply elem_of_app in He as [He|He]; [inversion He|].
  destruct (outcome (lift _ _)) as [y1|]; [|inversion He].
  rewrite events_bind in He. apply elem_of_app in He as [He|He].
  { rewrite forward_loop in He.
    apply for_each_guarded_events_in in He as (a & Hin & Hsel & [= ->]). done. }
  destruct (outcome _) as [[x' y']|]; [|inversion He].
  rewrite events_bind in He. apply elem_of_app in He as [He|He].
  { pose proof (standardisation_events self x'
      (final (_apply_preprocessing_defences self x y1 fit
                (final (lift (label_format y n)
                   (final (call EvNbClasses (impl_nb_classes (cls self)) w))))))) as HF.
    rewrite Forall_forall in HF. apply HF in He. discriminate. }
  destruct (outcome _); inversion He.
Qed.

Lemma repeatM_events_in n (m : @M B unit) w e :
  e ∈ events (repeatM n m w) → ∃ w', e ∈ events (m w').
Proof.
  revert w. induction n as [|n IH]; intros w He; [inversion He|].
  cbn [repeatM] in He. rewrite events_bind in He.
  apply elem_of_app in He as [He|He]; [eauto|].
  destruct (outcome (m w)) as [[]|]; [eauto|inversion He].
Qed.

Lemma fit_generator_events_in self generator nb_epochs kwargs w e :
  e ∈ events (fit_generator label_format self generator nb_epochs kwargs w) →
  ∃ w', e ∈ events (train_on_batch label_format self generator kwargs w').
Proof.
  unfold fit_generator, for_range. intros He.
  apply repeatM_events_in in He as [w1 He].
  rewrite events_bind in He. apply elem_of_app in He as [He|He]; [inversion He|].
  destruct (outcome (lift _ _)) as [n|]; [|inversion He].
  apply repeatM_events_in in He as [w2 He]. exists w2. exact He.
Qed.

(** X7. The forward pipeline never calls a preprocessing defence whose flag
    for the mode is off, whatever the run does; in particular no round of
    [fit_generator] calls a defence whose [apply_fit] is false. *)
Theorem forward_skips_unselected_defences self d :
  (∀ x y fit w, pre_selected fit d = false →
     EvDefence d ∉ events (_apply_preprocessing label_format self x y fit w)) ∧
  (∀ generator nb_epochs kwargs w, pre_apply_fit d = false →
     EvDefence d ∉ events (fit_generator label_format self generator nb_epochs kwargs w)).
Proof.
  split.
  - intros x y fit w Hd He. apply preprocessing_defence_events in He as [_ He]. congruence.
  - intros generator nb_epochs kwargs w Hd He.
    apply fit_generator_events_in in He as [w' He].
    rewrite train_on_batch_run in He.
    destruct (get_batch generator w') as [[[x y]|e] w1].
    + pose proof (preprocessing_defence_events self x (Some y) true w1 d) as Hpre.
      destruct (_apply_preprocessing label_format self x (Some y) true w1)
        as [[[[xp yp]|e] w2] tpre].
      * pose proof (call_fit_events self xp yp (gen_batch_size generator) kwargs w2) as Hfit.
        destruct (call_fit _ _ _ _ _ _) as [[r w3] tfit]. cbn [events snd] in *.
        apply elem_of_cons in He as [He|He]; [discriminate|].
        apply elem_of_app in He as [He|He].
        -- apply Hpre in He as [_ He]. cbn in He. congruence.
        -- destruct Hfit as [[-> _]| ->]; [inversion He|].
           apply list_elem_of_singleton in He. discriminate.
      * cbn [events snd] in *. apply elem_of_cons in He as [He|He]; [discriminate|].
        apply Hpre in He as [_ He]. cbn in He. congruence.
    + cbn in He. apply list_elem_of_singleton in He. discriminate.
Qed.

(** X8. [_apply_preprocessing] asks for the number of classes and puts the
    labels into shape before anything else: when [nb_classes()] raises, or
    when the labels are refused, the pipeline raises that exception having
    called no defence and done no arithmetic. *)
Theorem preprocessing_checks_labels_first self x y fit w :
  (∀ e w1, impl_nb_classes (cls self) w = (Raise e, w1) →
     _apply_preprocessing label_format self x y fit w = (Raise e, w1, [EvNbClasses])) ∧
  (∀ n w1 e, impl_nb_classes (cls self) w = (Ok n, w1) →
     label_format y n = Raise e →
     _apply_preprocessing label_format self x y fit w = (Raise e, w1, [EvNbClasses])).
Proof.
  split.
  - intros e w1 Hn. unfold _apply_preprocessing.
    rewrite run_bind. unfold call at 1. rewrite Hn. reflexivity.
  - intros n w1 e Hn Hy. unfold _apply_preprocessing.
    rewrite run_bind. unfold call at 1. rewrite Hn.
    rewrite run_bind. unfold lift at 1. rewrite Hy. reflexivity.
Qed.

Lemma for_each_none_selected {A S} (sel : A → bool) (ev : A → @event B)
    (act : A → S → ext S) (l : list A) s w :
  Forall (λ a, sel a = false) l →
  for_each l (guarded sel ev act) s w = (Ok s, w, []).
Proof.
  induction 1 as [|a l Ha _ IH]; [reflexivity|].
  cbn [for_each]. rewrite run_bind, guarded_run, Ha, IH. reflexivity.
Qed.

(** X9. With no standardisation pair and no defence selected for the mode,
    the pipelines hand back what they are given: the forward pipeline returns
    [x] itself, provided its element type is not unsigned, with the labels in
    the shape [check_and_transform_label_format] gives them, and the backward
    pipeline returns the gradients, without any call or arithmetic. *)
Theorem unconfigured_pipelines_return_their_input self :
  preprocessing self = None →
  (∀ x y fit w n w1 y1,
     Forall (λ d, pre_selected fit d = false) (defences_of self) →
     ¬ is_unsigned (arr_dtype x) →
     impl_nb_classes (cls self) w = (Ok n, w1) →
     label_format y n = Ok y1 →
     _apply_preprocessing label_format self x y fit w = (Ok (x, y1), w1, [EvNbClasses])) ∧
  (∀ x g w,
     Forall (λ d, pre_apply_predict d = false) (defences_of self) →
     _apply_preprocessing_gradient self x g w = (Ok g, w, [])).
Proof.
  intros Hp. split.
  - intros x y fit w n w1 y1 Hsel Hu Hn Hy. unfold _apply_preprocessing.
    rewrite run_bind. unfold call at 1. rewrite Hn.
    rewrite run_bind. unfold lift at 1. rewrite Hy.
    rewrite run_bind, forward_loop, for_each_none_selected by exact Hsel.
    rewrite run_bind. unfold _apply_preprocessing_standardisation.
    rewrite bool_decide_eq_false_2 by exact Hu. rewrite Hp. reflexivity.
  - intros x g w Hsel. unfold _apply_preprocessing_gradient.
    rewrite run_bind. unfold _apply_preprocessing_normalization_gradient at 1.
    rewrite Hp. cbn [mret M_ret]. rewrite run_bind, backward_loop.
    rewrite for_each_none_selected; [reflexivity|].
    apply Forall_reverse. exact Hsel.
Qed.

(** ** Postprocessing in general *)

(** X10. With no postprocessing defence selected for the mode,
    [_apply_postprocessing] returns a new array object that holds the
    contents of [preds] and changes nothing else. *)
Theorem postprocessing_without_selected_defence_copies self preds fit w a :
  w_heap w !! preds = Some a →
  Forall (λ q, post_selected fit q = false) (post_defences_of self) →
  let l := fresh (dom (w_heap w)) in
  _apply_postprocessing self preds fit w
    = (Ok l, mk_world (<[l := a]> (w_heap w)) (w_ext w), []) ∧
  l ≠ preds ∧ w_heap w !! l = None.
Proof.
  intros Hp Hsel l. split; [|split].
  - unfold _apply_postprocessing. rewrite run_bind.
    unfold ndarray_copy at 1. rewrite Hp. fold l.
    rewrite postprocessing_loop, for_each_none_selected by exact Hsel. reflexivity.
  - intros Heq. apply (is_fresh (dom (w_heap w))). fold l. rewrite Heq.
    apply elem_of_dom. eauto.
  - apply not_elem_of_dom, is_fresh.
Qed.

(** X11. [_apply_postprocessing] never calls a postprocessing defence whose
    flag for the mode is off, whatever the run does. *)
Theorem postprocessing_skips_unselected_defences self preds fit w (q : @Postprocessor B) :
  post_selected fit q = false →
  EvPostDefence q ∉ events (_apply_postprocessing self preds fit w).
Proof.
  intros Hq He. unfold _apply_postprocessing in He. rewrite events_bind in He.
  apply elem_of_app in He as [He|He].
  { unfold ndarray_copy in He. destruct (w_heap w !! preds); inversion He. }
  destruct (outcome (ndarray_copy preds w)) as [l|]; [|inversion He].
  rewrite postprocessing_loop in He.
  apply for_each_guarded_events_in in He as (a & _ & Hsel & [= ->]). congruence.
Qed.

(** ** [fit_generator] at its edges *)

(** X12. Three ways in which [fit_generator] trains on nothing.  With
    [nb_epochs <= 0] it returns at once, without looking at the generator (so
    even a batch size of 0 goes unnoticed).  With at least one epoch and a
    batch size of 0 it raises [ZeroDivisionError] before any batch is pulled.
    With fewer samples than one batch holds it returns without pulling a
    batch or calling [fit], whatever the number of epochs. *)
Theorem fit_generator_trains_on_nothing self generator nb_epochs kwargs w :
  (nb_epochs <= 0 →
   fit_generator label_format self generator nb_epochs kwargs w = (Ok (), w, [])) ∧
  (0 < nb_epochs → gen_batch_size generator = 0 →
   fit_generator label_format self generator nb_epochs kwargs w
     = (Raise ZeroDivisionError, w, [])) ∧
  (0 <= gen_size generator < gen_batch_size generator →
   gen_batch_size generator < 2 ^ 53 →
   fit_generator label_format self generator nb_epochs kwargs w = (Ok (), w, [])).
Proof.
  split; [|split].
  - intros Hn. unfold fit_generator, for_range.
    replace (Z.to_nat nb_epochs) with 0%nat by lia. reflexivity.
  - intros Hn Hb. unfold fit_generator, for_range.
    destruct (Z.to_nat nb_epochs) as [|n] eqn:E; [lia|].
    cbn [repeatM]. rewrite !run_bind. unfold lift, nb_batches, py_truediv.
    rewrite Hb. reflexivity.
  - intros Hs Hb.
    assert (Hk : nb_batches generator = Ok 0).
    { rewrite nb_batches_floor by lia. rewrite Z.div_small by lia. reflexivity. }
    rewrite (fit_generator_flat _ _ _ _ _ _ Hk).
    rewrite Nat.mul_0_r. reflexivity.
Qed.

(** X13. Training on unsigned data stops at the first batch: when the
    generator yields a batch whose element type is unsigned and no defence
    applied at fit time stands before the standardisation step,
    [fit_generator] raises [TypeError] after pulling that one batch and asking
    for the number of classes; [fit] is never called. *)
Theorem fit_generator_stops_at_unsigned_batch self generator nb_epochs kwargs
    w k x y w1 n w2 y1 :
  0 < nb_epochs →
  nb_batches generator = Ok k → 0 < k →
  get_batch generator w = (Ok (x, y), w1) →
  impl_nb_classes (cls self) w1 = (Ok n, w2) →
  label_format (Some y) n = Ok y1 →
  Forall (λ d, pre_apply_fit d = false) (defences_of self) →
  is_unsigned (arr_dtype x) →
  fit_generator label_format self generator nb_epochs kwargs w
    = (Raise TypeError, w2, [EvGetBatch; EvNbClasses]).
Proof.
  intros Hn Hk Hk0 Hb Hc Hy Hsel Hu.
  rewrite (fit_generator_flat _ _ _ _ _ _ Hk).
  destruct (Z.to_nat nb_epochs * Z.to_nat k)%nat as [|r] eqn:E; [nia|].
  cbn [repeatM]. rewrite run_bind, train_on_batch_run, Hb.
  assert (Hpre : _apply_preprocessing label_format self x (Some y) true w1
                 = (Raise TypeError, w2, [EvNbClasses])).
  { unfold _apply_preprocessing.
    rewrite run_bind. unfold call at 1. rewrite Hc.
    rewrite run_bind. unfold lift at 1. rewrite Hy.
    rewrite run_bind, forward_loop, for_each_none_selected by exact Hsel.
    rewrite run_bind, standardisation_unsigned by exact Hu. reflexivity. }
  rewrite Hpre. reflexivity.
Qed.

(** ** Standardisation: element types *)

Lemma np_asarray_dtype v dt a : np_asarray v dt = Ok a → arr_dtype a = dt.
Proof.
  destruct v; cbn [np_asarray]; try discriminate.
  - destruct (cast_scalar _ _); cbn; [intros [= <-]; reflexivity|discriminate].
  - destruct (cast_scalar _ _); cbn; [intros [= <-]; reflexivity|discriminate].
  - destruct (cast_scalar _ _); cbn; [intros [= <-]; reflexivity|discriminate].
  - destruct (cast_all _ _); cbn; [intros [= <-]; reflexivity|discriminate].
Qed.

Lemma cast_all_lookup k l r i a :
  cast_all k l = Ok r → l !! i = Some a → ∃ a', cast_elt k a = Ok a' ∧ r !! i = Some a'.
Proof.
  revert r i. induction l as [|x l IH]; intros r i; cbn; [intros _ H; inversion H|].
  destruct (cast_elt k x) as [x'|] eqn:Ex; [|discriminate]. cbn.
  destruct (cast_all k l) as [r'|]; [|discriminate]. cbn.
  intros [= <-]. destruct i as [|i]; cbn.
  - intros [= <-]. eauto.
  - apply IH. reflexivity.
Qed.

Lemma cast_all_total k l :
  (∀ a, a ∈ l → is_ok (cast_elt k a) = true) → ∃ r, cast_all k l = Ok r.
Proof.
  induction l as [|x l IH]; intros H; [eexists; reflexivity|].
  cbn. pose proof (H x ltac:(left)) as Hx.
  destruct (cast_elt k x); [|discriminate]. cbn.
  destruct IH as [r ->]; [intros y Hy; apply H; right; exact Hy|].
  eexists. reflexivity.
Qed.

(** X14. When standardisation returns, the result has the element type of
    [x] if that is a floating-point type and [float64] otherwise, whatever
    the constants are (they are cast to the element type of [x] first, so a
    [float32] input is never widened); and [x] is not a boolean array. *)
Theorem standardise_result_dtype sub div x r :
  standardise sub div x = Ok r →
  kind_of (arr_dtype x) ≠ KBool ∧
  arr_dtype r =
    match kind_of (arr_dtype x) with KFloat _ _ => arr_dtype x | _ => float64 end.
Proof.
  unfold standardise.
  destruct (np_asarray sub (arr_dtype x)) as [s|] eqn:Es; [|discriminate].
  destruct (np_asarray div (arr_dtype x)) as [d|] eqn:Ed; [|discriminate].
  apply np_asarray_dtype in Es, Ed. cbn [mbind result_bind].
  unfold np_subtract. rewrite decide_True by congruence.
  destruct (kind_of (arr_dtype x)) eqn:Ek; [discriminate|..];
    (destruct (broadcast2 _ x s) as [[sh dat]|]; [|discriminate]);
    cbn [mbind result_bind]; unfold np_true_divide; cbn [arr_dtype];
    rewrite decide_True by congruence; rewrite Ek;
    (destruct (broadcast2 _ _ d) as [[sh' dat']|]; [|discriminate]);
    cbn [mbind result_bind]; intros [= <-]; (split; [discriminate|reflexivity]).
Qed.

(** X15. A boolean input is refused only when there is something to
    subtract: with a standardisation pair of numbers or arrays the step casts
    both constants and then raises [TypeError] at the subtraction, before any
    division; without a pair the boolean input is returned as it is. *)
Theorem boolean_input_is_refused_by_the_subtraction self x w :
  arr_dtype x = bool_ →
  (∀ sub div, preprocessing self = Some [sub; div] →
     is_bound sub = true → is_bound div = true →
     ∃ s, np_asarray sub bool_ = Ok s ∧
       _apply_preprocessing_standardisation self x w =
         (Raise TypeError, w, [EvAsarray sub bool_; EvAsarray div bool_; EvSubtract x s])) ∧
  (preprocessing self = None →
     _apply_preprocessing_standardisation self x w = (Ok x, w, [])).
Proof.
  intros Hx. unfold _apply_preprocessing_standardisation. rewrite Hx. split.
  - intros sub div -> Hs Hd.
    assert (Ha : ∀ v, is_bound v = true → ∃ a, np_asarray v bool_ = Ok a).
    { intros [] Hv; try discriminate; try (eexists; reflexivity).
      cbn [np_asarray].
      destruct (cast_all_total (kind_of bool_) (arr_data a)) as [r ->];
        [reflexivity|eexists; reflexivity]. }
    destruct (Ha _ Hs) as [s Es], (Ha _ Hd) as [d Ed]. exists s. split; [exact Es|].
    run. rewrite Es, Ed. cbn.
    pose proof (np_asarray_dtype _ _ _ Es) as Hdt.
    unfold np_subtract. rewrite Hx, Hdt. reflexivity.
  - intros ->. reflexivity.
Qed.

(** X16. Signed integer data and a divisor below one: the constants are cast
    to the integer element type of [x] before use, which truncates them, so a
    [divide] with [int(divide) = 0] becomes the integer 0 and every element
    of the result is an infinity or a NaN ([subtract] being a float whose
    integer part is in the range of the element type). *)
Theorem integer_input_with_fractional_divisor self x (subtract divide : spec_float)
    bits (s : elt) w :
  preprocessing self = Some [PyFloat subtract; PyFloat divide] →
  kind_of (arr_dtype x) = KInt bits →
  length (arr_data x) = numel (arr_shape x) →
  cast_scalar (KInt bits) (EFloat subtract) = Ok s →
  py_int divide = Ok 0 →
  ∃ r, outcome (_apply_preprocessing_standardisation self x w) = Ok r ∧
    arr_dtype r = float64 ∧ arr_shape r = arr_shape x ∧
    length (arr_data r) = length (arr_data x) ∧
    Forall (λ v, not_finite v = true) (arr_data r).
Proof.
  intros Hp Hk Hwf Hs Hd.
  assert (Hsg : is_signed_numeric (arr_dtype x)).
  { unfold is_signed_numeric. destruct (arr_dtype x); try discriminate Hk;
      repeat (first [left; reflexivity | right]). }
  rewrite (proj1 (standardisation_signed self _ _ x w Hp Hsg)).
  assert (Hz : cast_scalar (KInt bits) (EFloat divide) = Ok (EInt 0)).
  { unfold cast_scalar. rewrite Hd. cbn [mbind result_bind].
    destruct (arr_dtype x); try discriminate Hk; injection Hk as <-; reflexivity. }
  unfold standardise, np_asarray. rewrite Hk, Hs, Hz.
  cbn [fmap result_fmap mbind result_bind].
  rewrite np_subtract_scalar by (rewrite ?Hk; done). cbn [mbind result_bind].
  set (r := mk_ndarray _ _ _).
  change (scalar_array (arr_dtype x) (EInt 0)) with (scalar_array (arr_dtype r) (EInt 0)).
  rewrite np_true_divide_scalar by (subst r; cbn; rewrite length_fmap; exact Hwf).
  subst r. cbn [arr_dtype arr_shape arr_data]. rewrite Hk.
  eexists. split; [reflexivity|]. cbn [arr_dtype arr_shape arr_data].
  split; [reflexivity|]. split; [reflexivity|].
  split; [rewrite !length_fmap; reflexivity|].
  rewrite <- list_fmap_compose. apply Forall_fmap, Forall_forall. intros v _.
  cbn. destruct (float_of_Z 53 1024 _); reflexivity.
Qed.

(** ** Standardisation with one constant per element *)

Lemma broadcast_rev_same sh : broadcast_rev sh sh = Some sh.
Proof.
  induction sh as [|n sh IH]; [reflexivity|].
  cbn. rewrite Nat.eqb_refl, IH. reflexivity.
Qed.

Lemma broadcast2_same {A} (f : elt → elt → A) a b :
  arr_shape b = arr_shape a →
  broadcast2 f a b =
    Ok (arr_shape a,
        (λ i, f (item a (arr_shape a) i) (item b (arr_shape a) i))
          <$> seq 0 (numel (arr_shape a))).
Proof.
  intros Hb. unfold broadcast2, broadcast_shapes.
  rewrite Hb, broadcast_rev_same. cbn. rewrite reverse_involutive. reflexivity.
Qed.

Lemma item_lookup a i v :
  (i < numel (arr_shape a))%nat → arr_data a !! i = Some v → item a (arr_shape a) i = v.
Proof. intros Hi Hv. rewrite item_same by exact Hi. rewrite Hv. reflexivity. Qed.

(** X17. Standardisation with one mean and one scale per element (a pair
    of arrays [s] and [d] of the shape of the signed-numeric input [x], with
    elements that the cast to the element type of [x] is defined on): the
    result has the shape of [x], and its element at each position is
    [(v - a') / b'] for the element [v] of [x] and the elements [a'] and [b']
    that the elements of [s] and [d] at that position are cast to. *)
Theorem standardise_per_element self x (s d : ndarray) w :
  preprocessing self = Some [PyArr s; PyArr d] →
  is_signed_numeric (arr_dtype x) →
  length (arr_data x) = numel (arr_shape x) →
  arr_shape s = arr_shape x →
  arr_shape d = arr_shape x →
  (∀ a, a ∈ arr_data s → is_ok (cast_elt (kind_of (arr_dtype x)) a) = true) →
  (∀ b, b ∈ arr_data d → is_ok (cast_elt (kind_of (arr_dtype x)) b) = true) →
  ∃ r, outcome (_apply_preprocessing_standardisation self x w) = Ok r ∧
    arr_shape r = arr_shape x ∧
    length (arr_data r) = length (arr_data x) ∧
    ∀ i v a b a' b',
      arr_data x !! i = Some v → arr_data s !! i = Some a → arr_data d !! i = Some b →
      cast_elt (kind_of (arr_dtype x)) a = Ok a' →
      cast_elt (kind_of (arr_dtype x)) b = Ok b' →
      arr_data r !! i =
        Some (div_elt (kind_of (arr_dtype x)) (sub_elt (kind_of (arr_dtype x)) v a') b').
Proof.
  intros Hp Hsg Hwf Hs Hd Hcs Hcd.
  rewrite (proj1 (standardisation_signed self _ _ x w Hp Hsg)).
  pose proof (signed_not_bool _ Hsg) as Hk.
  unfold standardise, np_asarray.
  set (k := kind_of (arr_dtype x)) in *.
  destruct (cast_all_total k (arr_data s) Hcs) as [ds Eds].
  destruct (cast_all_total k (arr_data d) Hcd) as [dd Edd].
  rewrite Eds, Edd. cbn [fmap result_fmap mbind result_bind].
  set (s' := mk_ndarray (arr_dtype x) (arr_shape s) ds).
  set (d' := mk_ndarray (arr_dtype x) (arr_shape d) dd).
  assert (Hsub : np_subtract x s' =
    Ok (mk_ndarray (arr_dtype x) (arr_shape x)
          ((λ i, sub_elt k (item x (arr_shape x) i) (item s' (arr_shape x) i))
             <$> seq 0 (numel (arr_shape x))))).
  { unfold np_subtract. rewrite decide_True by reflexivity. fold k.
    destruct k; [done|..]; rewrite (broadcast2_same _ x s') by exact Hs; reflexivity. }
  rewrite Hsub. cbn [mbind result_bind].
  set (r := mk_ndarray (arr_dtype x) (arr_shape x) _).
  assert (Hdiv : np_true_divide r d' =
    Ok (mk_ndarray (match k with KFloat _ _ => arr_dtype x | _ => float64 end)
          (arr_shape x)
          ((λ i, div_elt k (item r (arr_shape x) i) (item d' (arr_shape x) i))
             <$> seq 0 (numel (arr_shape x))))).
  { unfold np_true_divide. rewrite decide_True by reflexivity.
    rewrite (broadcast2_same _ r d') by exact Hd. reflexivity. }
  rewrite Hdiv. eexists. split; [reflexivity|]. cbn [arr_shape arr_data].
  split; [reflexivity|]. split; [rewrite length_fmap, length_seq; lia|].
  intros i v a b a' b' Hv Ha Hb Ha' Hb'.
  assert (Hi : (i < numel (arr_shape x))%nat).
  { rewrite <- Hwf. apply lookup_lt_is_Some. eauto. }
  destruct (cast_all_lookup _ _ _ _ _ Eds Ha) as (a1 & Ea1 & Hds).
  destruct (cast_all_lookup _ _ _ _ _ Edd Hb) as (b1 & Eb1 & Hdd).
  assert (a1 = a') as -> by congruence. assert (b1 = b') as -> by congruence.
  rewrite list_lookup_fmap, lookup_seq_lt by exact Hi. cbn [fmap option_fmap option_map Nat.add].
  f_equal. f_equal.
  - apply (item_lookup r i (sub_elt k v a')); [exact Hi|].
    subst r. cbn [arr_data].
    rewrite list_lookup_fmap, lookup_seq_lt by exact Hi. cbn. f_equal. f_equal.
    + apply item_lookup; assumption.
    + rewrite <- Hs. change (arr_shape s) with (arr_shape s').
      apply item_lookup; [cbn; rewrite Hs; exact Hi|exact Hds].
  - rewrite <- Hd. change (arr_shape d) with (arr_shape d').
    apply item_lookup; [cbn; rewrite Hd; exact Hi|exact Hdd].
Qed.

(** ** The constructor at its edges *)

Lemma ge_elt_nan x :
  ge_elt (EFloat S754_nan) x = false ∧ ge_elt x (EFloat S754_nan) = false.
Proof.
  split.
  - destruct x as [z|f]; cbn; unfold SFleb;
      [destruct (float_of_Z 53 1024 z)|destruct (round_float 53 1024 f)]; reflexivity.
  - destruct x as [z|f]; cbn; unfold SFleb;
      [destruct (float_of_Z 53 1024 z)|destruct (round_float 53 1024 f)]; reflexivity.
Qed.

(** X18. The constructor accepts a clip range with a NaN bound: the test is
    [min >= max], which is false whenever one side is NaN, so [(nan, v)] and
    [(v, nan)] pass for every number [v] and are stored as given. *)
Theorem nan_clip_bound_is_accepted (k : @Subclass B) v pre post prep :
  is_Some (number v) →
  (∀ p, prep = Some p → length p = 2%nat) →
  Classifier__init__ k (Some [PyFloat S754_nan; v]) pre post prep =
    Ok {| cls := k; _clip_values := Some [PyFloat S754_nan; v];
          preprocessing_defences := as_list pre;
          postprocessing_defences := as_list post;
          preprocessing := prep |} ∧
  Classifier__init__ k (Some [v; PyFloat S754_nan]) pre post prep =
    Ok {| cls := k; _clip_values := Some [v; PyFloat S754_nan];
          preprocessing_defences := as_list pre;
          postprocessing_defences := as_list post;
          preprocessing := prep |}.
Proof.
  intros [y Hy] Hlen. rewrite !init_run. unfold pairs. rewrite Hy.
  cbn [number existsb fst snd orb].
  rewrite (proj1 (ge_elt_nan y)), (proj2 (ge_elt_nan y)).
  destruct prep as [p|]; [|done]. rewrite (Hlen p eq_refl). done.
Qed.

(** X19. Clip bounds given as two arrays whose shapes cannot be broadcast
    against each other make the constructor raise [ValueError], from the
    comparison [min >= max] itself. *)
Theorem clip_bounds_that_do_not_broadcast_raise (k : @Subclass B) a b pre post prep :
  broadcast_shapes (arr_shape a) (arr_shape b) = None →
  Classifier__init__ k (Some [PyArr a; PyArr b]) pre post prep = Raise ValueError.
Proof.
  intros Hsh. rewrite init_run. unfold pairs, broadcast2. cbn [number operand mbind result_bind].
  rewrite Hsh. reflexivity.
Qed.

(** ** The metaclass in general *)

(** X20. The metaclass neither adds nor removes an attribute, and it leaves
    every attribute other than [predict], [get_activations], [class_gradient],
    [fit] and [loss_gradient] exactly as the class defines it. *)
Theorem input_filter_keeps_other_attributes (clsdict : gmap string (@method B)) name :
  (is_Some (input_filter clsdict !! name) ↔ is_Some (clsdict !! name)) ∧
  (name ∉ replacement_list_no_y ++ replacement_list_has_y →
   input_filter clsdict !! name = clsdict !! name).
Proof.
  unfold input_filter, replacement_list_no_y, replacement_list_has_y.
  cbn [foldl app]. split.
  - assert (Hstep : ∀ (attrs : gmap string (@method B)) item (m : @method B),
      (is_Some (attrs !! name) ↔ is_Some (clsdict !! name)) →
      (is_Some ((if bool_decide (is_Some (clsdict !! item))
                 then <[item := m]> attrs else attrs) !! name)
       ↔ is_Some (clsdict !! name))).
    { intros attrs item m Hi. case_bool_decide as Hc; [|exact Hi].
      destruct (decide (item = name)) as [->|Hne].
      - rewrite lookup_insert_eq. split; [intros _; exact Hc|eauto].
      - rewrite lookup_insert_ne by exact Hne. exact Hi. }
    do 5 apply Hstep. reflexivity.
  - intros Hn.
    assert (Hstep : ∀ (attrs : gmap string (@method B)) item (m : @method B),
      item ∈ ["predict"; "get_activations"; "class_gradient"; "fit"; "loss_gradient"]%string →
      attrs !! name = clsdict !! name →
      (if bool_decide (is_Some (clsdict !! item))
       then <[item := m]> attrs else attrs) !! name = clsdict !! name).
    { intros attrs item m Hin Hi. case_bool_decide as Hc; [|exact Hi].
      rewrite lookup_insert_ne; [exact Hi|]. intros ->. exact (Hn Hin). }
    do 5 (apply Hstep; [apply list_elem_of_In; cbn; tauto|]). reflexivity.
Qed.

(** X21. A call without the primary input does not reach the class's
    method: with no positional argument and no keyword [x] the replacement
    function raises [IndexError]; so does the replacement of [fit] and
    [loss_gradient] when the input is an array and the labels are given
    neither by the keyword [y] nor as the second positional argument. *)
Theorem wrapper_without_input_raises (fdict : gmap string (@method B)) name
    has_y args kwargs w :
  (kwargs !! "x" = None → args = [] →
   make_replacement fdict name has_y args kwargs w = (Raise IndexError, w, [])) ∧
  (has_y = true → kwargs !! "y" = None → (length args ≤ 1)%nat →
   ∀ xa, found_x args kwargs = Some (PyArr xa) →
   make_replacement fdict name has_y args kwargs w = (Raise IndexError, w, [])).
Proof.
  split.
  - intros Hx ->. unfold make_replacement. run. rewrite Hx. reflexivity.
  - intros -> Hy Hlen xa Hfound. unfold make_replacement, found_x in *.
    assert (H1 : args !! 1%nat = None) by (apply lookup_ge_None; lia).
    destruct (kwargs !! "x") as [vx|] eqn:Hx.
    + injection Hfound as ->. run. rewrite Hy.
      unfold getitem. rewrite H1. reflexivity.
    + run. unfold getitem. rewrite Hfound. cbn. rewrite Hy. cbn.
      rewrite H1. reflexivity.
Qed.

Lemma make_replacement_transparent (fdict : gmap string (@method B)) name
    (f : @method B) has_y args kwargs w :
  fdict !! name = Some f →
  nothing_to_coerce has_y args kwargs = true →
  make_replacement fdict name has_y args kwargs w = f args kwargs w.
Proof.
  intros Hf Hn.
  assert (Hf' : @lookup string (list pyval → gmap string pyval → M pyval) _ _
                  name fdict = Some f) by exact Hf.
  apply andb_true_iff in Hn as [Hx Hy]. unfold found_x in Hx.
  unfold make_replacement.
  destruct (kwargs !! "x") as [vx|] eqn:Ex.
  - run. rewrite ?Ex, Hx. cbn.
    destruct (kwargs !! "y") as [vy|] eqn:Ey.
    + rewrite ?Ey. destruct (is_none vy), (isinstance_ndarray vy); try discriminate;
        cbn; rewrite Hf'; destruct (length args); by destruct (f args kwargs w) as [[? ?] ?].
    + rewrite ?Ey. destruct has_y.
      * destruct (args !! 1%nat) as [v1|] eqn:E1; [|discriminate].
        unfold getitem. rewrite ?E1, Hy. cbn. rewrite Hf'. destruct (length args); by destruct (f args kwargs w) as [[? ?] ?].
      * cbn. rewrite Hf'. destruct (length args); by destruct (f args kwargs w) as [[? ?] ?].
  - destruct (args !! 0%nat) as [v0|] eqn:E0; [|discriminate].
    run. rewrite ?Ex. unfold getitem. rewrite ?E0, Hx. cbn.
    destruct (kwargs !! "y") as [vy|] eqn:Ey.
    + rewrite ?Ey. destruct (is_none vy), (isinstance_ndarray vy); try discriminate;
        cbn; rewrite Hf'; destruct (length args); by destruct (f args kwargs w) as [[? ?] ?].
    + rewrite ?Ey. destruct has_y.
      * destruct (args !! 1%nat) as [v1|] eqn:E1; [|discriminate].
        rewrite ?E1, Hy. cbn. rewrite Hf'. destruct (length args); by destruct (f args kwargs w) as [[? ?] ?].
      * cbn. rewrite Hf'. destruct (length args); by destruct (f args kwargs w) as [[? ?] ?].
Qed.

(** X22. An installed method is transparent when there is nothing to
    convert: for each of the five names a class defines, if the primary input
    of a call is an array already and the labels are an array or the keyword
    value [None], the call of the method the metaclass installs is the call
    of the class's own method on the very same positional and keyword
    arguments. *)
Theorem wrapper_is_transparent_on_arrays (clsdict : gmap string (@method B)) name
    (f : @method B) has_y :
  clsdict !! name = Some f →
  (has_y = false ∧ name ∈ replacement_list_no_y) ∨
  (has_y = true ∧ name ∈ replacement_list_has_y) →
  ∃ m, input_filter clsdict !! name = Some m ∧
    ∀ args kwargs w, nothing_to_coerce has_y args kwargs = true →
      m args kwargs w = f args kwargs w.
Proof.
  intros Hf Hname. exists (make_replacement clsdict name has_y). split.
  - destruct Hname as [[-> Hin]|[-> Hin]];
      [eapply input_filter_no_y|eapply input_filter_has_y]; eassumption.
  - intros args kwargs w Hn. apply make_replacement_transparent; assumption.
Qed.

(** ** Standardisation with the neutral pair

    Rounding a float that is already in the format gives it back, and so
    does dividing it by one. *)

Lemma binary_round_aux_canonical prec emax s m e :
  bounded prec emax m e = true →
  binary_round_aux prec emax s (Zpos m) e loc_Exact = S754_finite s m e.
Proof.
  unfold bounded, canonical_mantissa. intros [Hc He]%andb_true_iff.
  apply Z.eqb_eq in Hc.
  unfold binary_round_aux, shr_fexp. cbn [Zdigits2]. rewrite Hc, Z.sub_diag.
  cbn [shr shr_record_of_loc shr_m shr_r shr_s loc_of_shr_record round_nearest_even Zdigits2].
  rewrite Hc, Z.sub_diag. cbn [shr shr_record_of_loc shr_m]. rewrite He. reflexivity.
Qed.

Lemma round_float_valid prec emax f :
  valid_binary prec emax f = true → round_float prec emax f = f.
Proof.
  destruct f as [| | |s m e]; try reflexivity. cbn [round_float valid_binary]. intros Hb.
  assert (Hc : fexp prec emax (Z.pos (digits2_pos m) + e) = e).
  { unfold bounded, canonical_mantissa in Hb. apply andb_true_iff in Hb as [Hc _].
    apply Z.eqb_eq in Hc. exact Hc. }
  destruct s; cbn [cond_Zopp]; [change (- Z.pos m) with (Z.neg m)|];
    cbn [binary_normalize]; unfold binary_round, shl_align;
    rewrite Hc, Z.sub_diag; apply binary_round_aux_canonical, Hb.
Qed.

Lemma div_by_one prec emax s m e (one : positive) :
  0 < prec →
  Zpos one = 2 ^ (prec - 1) →
  bounded prec emax m e = true →
  SFdiv prec emax (S754_finite s m e) (S754_finite false one (1 - prec))
    = S754_finite s m e.
Proof.
  intros Hprec Hone Hb.
  assert (Hc : fexp prec emax (Z.pos (digits2_pos m) + e) = e).
  { unfold bounded, canonical_mantissa in Hb. apply andb_true_iff in Hb as [Hc _].
    apply Z.eqb_eq in Hc. exact Hc. }
  assert (Hd2 : Zdigits2 (Zpos one) = prec).
  { apply Zdigits2_unique; [|lia]. rewrite Hone. split; [lia|].
    apply Z.pow_lt_mono_r; lia. }
  cbn [SFdiv]. unfold SFdiv_core_binary. rewrite Hd2. cbn [Zdigits2].
  set (d1 := Z.pos (digits2_pos m)) in *.
  rewrite xorb_false_r.
  assert (Hdiv : ∀ a, Z.div_eucl a (Zpos one) = (a / Zpos one, a mod Zpos one)).
  { intros a. unfold Z.div, Z.modulo. destruct (Z.div_eucl a (Zpos one)). reflexivity. }
  assert (Hp : 0 < 2 ^ (prec - 1)) by (apply Z.pow_pos_nonneg; lia).
  assert (Hnl : new_location (Zpos one) 0 = loc_Exact).
  { unfold new_location. destruct (Z.even _); reflexivity. }
  unfold fexp in Hc |- *.
  destruct (Z.le_gt_cases (d1 + e - prec) (emin prec emax)) as [Hsub|Hnorm].
  - (* at the smallest exponent: the quotient digits are those of [m] *)
    assert (He : e = emin prec emax) by lia.
    replace (Z.min (Z.max (d1 + e - (prec + (1 - prec)) - prec) (emin prec emax))
               (e - (1 - prec))) with e by lia.
    replace (e - (1 - prec) - e) with (prec - 1) by lia.
    assert (Hm : match prec - 1 with
                 | 0 => Z.pos m
                 | Z.pos _ => Z.shiftl (Z.pos m) (prec - 1)
                 | Z.neg _ => 0
                 end = Z.pos m * 2 ^ (prec - 1)).
    { destruct (prec - 1) eqn:E; try lia. apply Z.shiftl_mul_pow2. lia. }
    rewrite Hm, Hdiv, Hone, Z.div_mul, Z.mod_mul by lia. rewrite <- Hone, Hnl.
    apply binary_round_aux_canonical, Hb.
  - (* a normal number: the quotient digits are those of [2 * m] *)
    assert (Hd1 : d1 = prec) by lia.
    replace (Z.min (Z.max (d1 + e - (prec + (1 - prec)) - prec) (emin prec emax))
               (e - (1 - prec))) with (e - 1) by lia.
    replace (e - (1 - prec) - (e - 1)) with prec by lia.
    assert (Hm : match prec with
                 | 0 => Z.pos m
                 | Z.pos _ => Z.shiftl (Z.pos m) prec
                 | Z.neg _ => 0
                 end = Z.pos m~0 * 2 ^ (prec - 1)).
    { assert (Hsh : Z.shiftl (Z.pos m) prec = Z.pos m~0 * 2 ^ (prec - 1)).
      { rewrite Z.shiftl_mul_pow2 by lia. change (Z.pos m~0) with (2 * Z.pos m).
        replace (2 ^ prec) with (2 * 2 ^ (prec - 1)); [ring|].
        rewrite <- Z.pow_succ_r by lia. f_equal. lia. }
      destruct prec; [lia|exact Hsh|lia]. }
    rewrite Hm, Hdiv, Hone, Z.div_mul, Z.mod_mul by lia. rewrite <- Hone, Hnl.
    unfold binary_round_aux, shr_fexp. cbn [Zdigits2 digits2_pos].
    rewrite Pos2Z.inj_succ. fold d1. unfold fexp.
    replace (Z.max (Z.succ d1 + (e - 1) - prec) (emin prec emax) - (e - 1)) with 1 by lia.
    cbn [shr SpecFloat.iter_pos shr_record_of_loc shr_1 shr_m shr_r shr_s orb
         loc_of_shr_record round_nearest_even Zdigits2].
    fold d1. replace (e - 1 + 1) with e by lia.
    replace (Z.max (d1 + e - prec) (emin prec emax) - e) with 0 by lia.
    cbn [shr shr_record_of_loc shr_m].
    unfold bounded in Hb. apply andb_true_iff in Hb as [_ ->]. reflexivity.
Qed.

(** The elements of an array are numbers of the format [(prec, emax)]. *)
Lemma fmap_valid_id prec emax (g : elt → elt) (dat : list elt) :
  (∀ f, valid_binary prec emax f = true → g (EFloat f) = EFloat f) →
  Forall (λ v, ∃ f, v = EFloat f ∧ valid_binary prec emax f = true) dat →
  g <$> dat = dat.
Proof.
  intros Hg. induction 1 as [|v dat (f & -> & Hf) _ IH]; [reflexivity|].
  cbn [fmap list_fmap]. rewrite Hg by exact Hf. f_equal. exact IH.
Qed.

Lemma subtract_zero_array x prec emax :
  kind_of (arr_dtype x) = KFloat prec emax →
  length (arr_data x) = numel (arr_shape x) →
  Forall (λ v, ∃ f, v = EFloat f ∧ valid_binary prec emax f = true) (arr_data x) →
  np_subtract x (scalar_array (arr_dtype x) (EFloat (S754_zero false))) = Ok x.
Proof.
  intros Hk Hwf Hvalid. rewrite np_subtract_scalar by (rewrite ?Hk; done). rewrite Hk.
  rewrite (fmap_valid_id prec emax) by
    (try exact Hvalid; intros f Hf; cbn [sub_elt elt_float];
     rewrite (round_float_valid _ _ f) by exact Hf; by destruct f as [[]|[]| |]).
  by destruct x.
Qed.

Lemma true_divide_by_one_array x prec emax (one : positive) :
  kind_of (arr_dtype x) = KFloat prec emax →
  length (arr_data x) = numel (arr_shape x) →
  Forall (λ v, ∃ f, v = EFloat f ∧ valid_binary prec emax f = true) (arr_data x) →
  0 < prec →
  Zpos one = 2 ^ (prec - 1) →
  bounded prec emax one (1 - prec) = true →
  np_true_divide x (scalar_array (arr_dtype x) (EFloat (S754_finite false one (1 - prec))))
    = Ok x.
Proof.
  intros Hk Hwf Hvalid Hprec Hone Hb1. rewrite np_true_divide_scalar by exact Hwf.
  rewrite Hk.
  rewrite (fmap_valid_id prec emax); [by destruct x| |exact Hvalid].
  intros f Hf. cbn [div_elt elt_float].
  rewrite (round_float_valid _ _ f) by exact Hf.
  rewrite (round_float_valid _ _ (S754_finite false one (1 - prec))) by exact Hb1.
  f_equal. destruct f as [[]|[]| |s m e]; try reflexivity.
  apply div_by_one; assumption.
Qed.

(** The neutral divisor, 1 as a Python int or float, in the element type of
    a floating-point array. *)
Lemma asarray_one dt prec emax div :
  kind_of dt = KFloat prec emax →
  div ∈ [PyInt 1; PyFloat (f64 1 0)] →
  ∃ one : positive,
    np_asarray div dt = Ok (scalar_array dt (EFloat (S754_finite false one (1 - prec)))) ∧
    0 < prec ∧ Zpos one = 2 ^ (prec - 1) ∧ bounded prec emax one (1 - prec) = true.
Proof.
  intros Hk Hdiv. apply list_elem_of_In in Hdiv. cbn in Hdiv.
  destruct dt; try discriminate Hk; injection Hk as <- <-;
    destruct Hdiv as [<-|[<-|[]]];
    (eexists; split; [vm_compute; reflexivity|]; split; [lia|]; split; reflexivity).
Qed.

(** X23. Standardisation with the neutral pair, [subtract] 0 and [divide] 1
    given as Python ints or floats, returns floating-point data unchanged:
    on an array of a floating-point element type whose elements are numbers
    of that format (NaN, the infinities and both zeros included), the result
    is the array itself, in value, shape and element type. *)
Theorem neutral_standardisation_returns_the_data x prec emax sub div :
  kind_of (arr_dtype x) = KFloat prec emax →
  length (arr_data x) = numel (arr_shape x) →
  Forall (λ v, ∃ f, v = EFloat f ∧ valid_binary prec emax f = true) (arr_data x) →
  sub ∈ [PyInt 0; PyFloat (S754_zero false)] →
  div ∈ [PyInt 1; PyFloat (f64 1 0)] →
  standardise sub div x = Ok x.
Proof.
  intros Hk Hwf Hvalid Hsub Hdiv.
  assert (Hs : np_asarray sub (arr_dtype x)
               = Ok (scalar_array (arr_dtype x) (EFloat (S754_zero false)))).
  { apply list_elem_of_In in Hsub. cbn in Hsub.
    destruct Hsub as [<-|[<-|[]]]; unfold np_asarray; rewrite Hk; reflexivity. }
  destruct (asarray_one _ _ _ _ Hk Hdiv) as (one & Hd & Hprec & Hone & Hb1).
  unfold standardise. rewrite Hs, Hd. cbn [mbind result_bind].
  rewrite (subtract_zero_array x prec emax) by assumption. cbn [mbind result_bind].
  apply (true_divide_by_one_array x prec emax); assumption.
Qed.

(** X24. The backward step with the neutral divisor returns floating-point
    gradients unchanged, whatever [subtract] is: with [divide] 1 as a Python
    int or float, gradients of a floating-point element type come back as
    they went in, and the world is left as it was. *)
Theorem neutral_divisor_returns_the_gradients self g prec emax sub div w :
  preprocessing self = Some [sub; div] →
  kind_of (arr_dtype g) = KFloat prec emax →
  length (arr_data g) = numel (arr_shape g) →
  Forall (λ v, ∃ f, v = EFloat f ∧ valid_binary prec emax f = true) (arr_data g) →
  div ∈ [PyInt 1; PyFloat (f64 1 0)] →
  outcome (_apply_preprocessing_normalization_gradient self g w) = Ok g ∧
  final (_apply_preprocessing_normalization_gradient self g w) = w.
Proof.
  intros Hp Hk Hwf Hvalid Hdiv.
  destruct (asarray_one _ _ _ _ Hk Hdiv) as (one & Hd & Hprec & Hone & Hb1).
  unfold _apply_preprocessing_normalization_gradient. rewrite Hp. run.
  rewrite Hd. cbn.
  rewrite (true_divide_by_one_array g prec emax) by assumption. done.
Qed.

(** ** The order of the stages *)

Lemma for_each_guarded_events_prefix {A S} (sel : A → bool) (ev : A → @event B)
    (act : A → S → ext S) (l : list A) s w :
  ∃ l', events (for_each l (guarded sel ev act) s w) = ev <$> l' ∧
        l' `prefix_of` filter (λ a, sel a = true) l.
Proof.
  revert s w. induction l as [|a l IH]; intros s w.
  - exists []. split; [reflexivity|apply prefix_nil].
  - cbn [for_each]. rewrite events_bind, guarded_run, filter_cons.
    destruct (sel a) eqn:Ha.
    + rewrite decide_True by reflexivity.
      destruct (act a s w) as [[s'|e] w'] eqn:Hact; cbn [outcome final events fst snd].
      * destruct (IH s' w') as (l' & -> & Hpre). exists (a :: l').
        split; [reflexivity|]. apply prefix_cons, Hpre.
      * exists [a]. split; [reflexivity|]. apply prefix_cons, prefix_nil.
    + rewrite decide_False by discriminate. cbn [outcome final events fst snd app].
      apply IH.
Qed.

(** X25. The stages of the two pipelines mirror each other, in every run.
    The forward pipeline asks for the number of classes, then calls defences
    (a prefix of those selected for the mode, in list order), and only then
    does the arithmetic of standardisation; the backward pipeline does its
    arithmetic first and then calls [estimate_gradient] (on a prefix of the
    defences applied at prediction, in reverse list order). *)
Theorem pipeline_stages_mirror self x y g fit w :
  (∃ l a,
     events (_apply_preprocessing label_format self x y fit w)
       = EvNbClasses :: (EvDefence <$> l) ++ a ∧
     l `prefix_of` filter (λ d, pre_selected fit d = true) (defences_of self) ∧
     Forall (λ e, is_arithmetic e = true) a) ∧
  (∃ a l,
     events (_apply_preprocessing_gradient self x g w)
       = a ++ (EvEstimateGradient <$> l) ∧
     Forall (λ e, is_arithmetic e = true) a ∧
     l `prefix_of` reverse (filter (λ d, pre_apply_predict d = true) (defences_of self))).
Proof.
  split.
  - unfold _apply_preprocessing. rewrite events_bind.
    assert (Hc : events (call EvNbClasses (impl_nb_classes (cls self)) w) = [EvNbClasses]).
    { unfold call. destruct (impl_nb_classes (cls self) w). reflexivity. }
    rewrite Hc. cbn [app].
    destruct (outcome _) as [n|];
      [|exists [], []; split; [reflexivity|split; [apply prefix_nil|constructor]]].
    rewrite events_bind. cbn [events lift snd app].
    destruct (outcome _) as [y1|];
      [|exists [], []; split; [reflexivity|split; [apply prefix_nil|constructor]]].
    rewrite events_bind, forward_loop.
    set (w1 := final _).
    destruct (for_each_guarded_events_prefix (pre_selected fit) EvDefence
                (λ d '(x, y), pre_call d x y) (defences_of self) (x, y1) w1)
      as (l & -> & Hpre).
    exists l. destruct (outcome _) as [[x' y']|].
    + eexists. split; [reflexivity|]. split; [exact Hpre|].
      rewrite events_bind. apply Forall_app. split; [apply standardisation_events|].
      destruct (outcome _); constructor.
    + exists []. split; [reflexivity|]. split; [exact Hpre|constructor].
  - unfold _apply_preprocessing_gradient. rewrite events_bind.
    exists (events (_apply_preprocessing_normalization_gradient self g w)).
    destruct (outcome _) as [g'|].
    + rewrite events_bind, backward_loop. set (w1 := final _).
      destruct (for_each_guarded_events_prefix (pre_selected false) EvEstimateGradient
                  (λ d g, pre_estimate_gradient d x g) (reverse (defences_of self)) g' w1)
        as (l & -> & Hpre).
      exists l. split; [|split; [apply normalization_gradient_events|]].
      * destruct (outcome _); cbn; rewrite app_nil_r; reflexivity.
      * rewrite <- filter_reverse. exact Hpre.
    + exists []. split; [reflexivity|].
      split; [apply normalization_gradient_events|apply prefix_nil].
Qed.

(** ** Where the gradient estimates are taken *)

Lemma for_each_guarded_agree {A S} (sel sel' : A → bool) (ev ev' : A → @event B)
    (act act' : A → S → ext S) (l l' : list A) s w :
  Forall2 (λ a a', sel a = sel' a' ∧ ∀ s w, act a s w = act' a' s w) l l' →
  outcome (for_each l (guarded sel ev act) s w)
    = outcome (for_each l' (guarded sel' ev' act') s w) ∧
  final (for_each l (guarded sel ev act) s w)
    = final (for_each l' (guarded sel' ev' act') s w).
Proof.
  intros Hl. revert s w. induction Hl as [|a a' l l' [Hsel Hact] _ IH]; intros s w.
  - done.
  - cbn [for_each]. rewrite !outcome_bind, !final_bind, !guarded_run, <- Hsel, <- Hact.
    destruct (sel a); [|apply IH].
    destruct (act a s w) as [[s'|e] w']; cbn [outcome final fst snd]; [apply IH|done].
Qed.

(** X28. The backward loop takes every gradient estimate at the input [x]
    it was called with, not at what an earlier defence made of it: the
    result and the world it leaves depend on the [estimate_gradient] of the
    defences only through their values at [x], so two lists of defences with
    the same flags whose estimates agree at [x] give the same run. *)
Theorem gradient_estimates_are_taken_at_the_raw_input self
    (ds ds' : list (@Preprocessor B)) x g fit w :
  Forall2 (λ d d', pre_selected fit d = pre_selected fit d' ∧
             ∀ g' w', pre_estimate_gradient d x g' w' = pre_estimate_gradient d' x g' w')
    ds ds' →
  outcome (_apply_preprocessing_defences_gradient (with_defences self ds) x g fit w)
    = outcome (_apply_preprocessing_defences_gradient (with_defences self ds') x g fit w) ∧
  final (_apply_preprocessing_defences_gradient (with_defences self ds) x g fit w)
    = final (_apply_preprocessing_defences_gradient (with_defences self ds') x g fit w).
Proof.
  intros Hds. rewrite !backward_loop, !defences_of_with.
  apply for_each_guarded_agree, Forall2_reverse, Hds.
Qed.

(** ** Wrapping a wrapped method *)

Lemma lift_bind {A A'} (r : result A) (K : A → @M B A') w :
  (lift r ≫= K) w = match r with Ok a => K a w | Raise e => (Raise e, w, []) end.
Proof.
  rewrite run_bind. unfold lift. destruct r as [a|e]; [|reflexivity].
  by destruct (K a w) as [[? ?] ?].
Qed.

Lemma make_replacement_factor (fdict : gmap string (@method B)) name (f : @method B)
    has_y args kwargs w :
  fdict !! name = Some f →
  make_replacement fdict name has_y args kwargs w =
  match coerced has_y args kwargs with
  | Ok (args', kwargs') => f args' kwargs' w
  | Raise e => (Raise e, w, [])
  end.
Proof.
  intros Hf.
  assert (Hf' : @lookup string (list pyval → gmap string pyval → M pyval) _ _
                  name fdict = Some f) by exact Hf.
  assert (H1 : ∀ w',
    (match kwargs !! "x" with
     | Some vx =>
         if negb (isinstance_ndarray vx)
         then a ← lift (np_array vx); mret (args, <["x" := PyArr a]> kwargs)
         else mret (args, kwargs)
     | None =>
         a0 ← lift (getitem args 0);
         if negb (isinstance_ndarray a0)
         then a ← lift (np_array a0); mret (<[0%nat := PyArr a]> args, kwargs)
         else mret (args, kwargs)
     end : @M B _) w' = lift (coerced_x args kwargs) w').
  { intros w'. unfold coerced_x. destruct (kwargs !! "x") as [vx|].
    - destruct (isinstance_ndarray vx); [reflexivity|].
      run. by destruct (np_array vx).
    - run. destruct (getitem args 0) as [a0|]; [|reflexivity].
      cbn. destruct (isinstance_ndarray a0); [reflexivity|].
      cbn. by destruct (np_array a0). }
  assert (H2 : ∀ lst kw w',
    (match kw !! "y" with
     | Some vy =>
         if negb (is_none vy) && negb (isinstance_ndarray vy)
         then a ← lift (np_array vy); mret (lst, <["y" := PyArr a]> kw)
         else mret (lst, kw)
     | None =>
         if has_y then
           a1 ← lift (getitem args 1);
           if negb (isinstance_ndarray a1)
           then a ← lift (np_array a1); mret (<[1%nat := PyArr a]> lst, kw)
           else mret (lst, kw)
         else mret (lst, kw)
     end : @M B _) w' = lift (coerced_y has_y args lst kw) w').
  { intros lst kw w'. unfold coerced_y. destruct (kw !! "y") as [vy|].
    - destruct (is_none vy), (isinstance_ndarray vy); try reflexivity.
      run. by destruct (np_array vy).
    - destruct has_y; [|reflexivity].
      run. destruct (getitem args 1) as [a1|]; [|reflexivity].
      cbn. destruct (isinstance_ndarray a1); [reflexivity|].
      cbn. by destruct (np_array a1). }
  unfold make_replacement, coerced.
  rewrite run_bind, H1, <- run_bind, lift_bind.
  destruct (coerced_x args kwargs) as [[lst kw]|e] eqn:Ex; [|reflexivity].
  cbn [mbind result_bind].
  rewrite run_bind, H2, <- run_bind, lift_bind.
  destruct (coerced_y has_y args lst kw) as [[lst' kw']|e] eqn:Ey; [|reflexivity].
  rewrite Hf'.
  assert (Hl1 : length lst = length args).
  { unfold coerced_x, mbind, result_bind in Ex.
    repeat case_match; simplify_eq; rewrite ?length_insert; reflexivity. }
  assert (Hl2 : length lst' = length lst).
  { unfold coerced_y, mbind, result_bind in Ey.
    repeat case_match; simplify_eq; rewrite ?length_insert; reflexivity. }
  replace (if (0 <? length args)%nat then lst' else args) with lst'; [reflexivity|].
  destruct args; [|reflexivity]. apply nil_length_inv. rewrite Hl2, Hl1. reflexivity.
Qed.

Lemma coerced_x_found args kwargs lst kw :
  coerced_x args kwargs = Ok (lst, kw) →
  (∃ a, found_x lst kw = Some (PyArr a)) ∧
  kw !! "y" = kwargs !! "y" ∧ lst !! 1%nat = args !! 1%nat ∧ length lst = length args.
Proof.
  unfold coerced_x, found_x, getitem. intros H.
  destruct (kwargs !! "x") as [vx|] eqn:Ex.
  - destruct (isinstance_ndarray vx) eqn:Ix.
    + injection H as <- <-. destruct vx; try discriminate. rewrite Ex. eauto.
    + destruct (np_array vx) as [a|]; [|discriminate]. cbn in H. injection H as <- <-.
      rewrite lookup_insert_eq, lookup_insert_ne by done. eauto.
  - destruct (args !! 0%nat) as [v0|] eqn:E0; [|discriminate]. cbn in H.
    destruct (isinstance_ndarray v0) eqn:I0.
    + injection H as <- <-. destruct v0; try discriminate. rewrite Ex, E0. eauto.
    + destruct (np_array v0) as [a|]; [|discriminate]. cbn in H. injection H as <- <-.
      rewrite Ex, (list_lookup_insert_ne _ 0 1), length_insert by done.
      rewrite list_lookup_insert_eq by (apply lookup_lt_is_Some; eauto). eauto.
Qed.

Lemma coerced_nothing_left has_y args kwargs args' kwargs' :
  coerced has_y args kwargs = Ok (args', kwargs') →
  nothing_to_coerce has_y args' kwargs' = true.
Proof.
  unfold coerced. destruct (coerced_x args kwargs) as [[lst kw]|] eqn:Hx; [|discriminate].
  cbn [mbind result_bind]. intros Hy.
  destruct (coerced_x_found _ _ _ _ Hx) as ([a Ha] & Hky & H1 & Hlen).
  unfold nothing_to_coerce.
  unfold coerced_y, getitem in Hy. rewrite Hky in Hy.
  assert (Hfound : ∀ v, found_x lst (<["y" := v]> kw) = found_x lst kw).
  { intros v. unfold found_x. rewrite lookup_insert_ne by done. reflexivity. }
  assert (Hfound1 : ∀ v, found_x (<[1%nat := v]> lst) kw = found_x lst kw).
  { intros v. unfold found_x. rewrite list_lookup_insert_ne by done. reflexivity. }
  destruct (kwargs !! "y") as [vy|] eqn:Ey.
  - destruct (is_none vy || isinstance_ndarray vy) eqn:Hv.
    + injection Hy as <- <-. rewrite Ha, Hky, Hv. reflexivity.
    + destruct (np_array vy) as [ay|]; [|discriminate]. injection Hy as <- <-.
      rewrite Hfound, Ha, lookup_insert_eq. reflexivity.
  - destruct has_y.
    + destruct (args !! 1%nat) as [v1|] eqn:E1; [|discriminate]. cbn in Hy.
      destruct (isinstance_ndarray v1) eqn:I1.
      * injection Hy as <- <-. rewrite Ha, Hky, H1, I1. reflexivity.
      * destruct (np_array v1) as [a1|]; [|discriminate]. injection Hy as <- <-.
        rewrite Hfound1, Ha, Hky.
        rewrite list_lookup_insert_eq; [reflexivity|].
        rewrite Hlen. apply lookup_lt_is_Some. eauto.
    + injection Hy as <- <-. rewrite Ha, Hky. reflexivity.
Qed.

(** X27. Wrapping a wrapped method changes nothing: a replacement function
    put around a replacement function of the same method behaves, on every
    call, like the inner one alone, since what the outer one converts the
    inner one finds already converted. *)
Theorem wrapping_twice_is_wrapping_once (fdict gdict : gmap string (@method B)) name
    (f : @method B) has_y args kwargs w :
  fdict !! name = Some f →
  gdict !! name = Some (make_replacement fdict name has_y) →
  make_replacement gdict name has_y args kwargs w
    = make_replacement fdict name has_y args kwargs w.
Proof.
  intros Hf Hg.
  rewrite (make_replacement_factor gdict name _ has_y args kwargs w Hg).
  rewrite (make_replacement_factor fdict name f has_y args kwargs w Hf).
  destruct (coerced has_y args kwargs) as [[args' kwargs']|] eqn:Hc; [|reflexivity].
  apply make_replacement_transparent; [exact Hf|].
  eapply coerced_nothing_left, Hc.
Qed.

(** ** The abstract methods behind the metaclass *)


End Properties.

(** * The properties on concrete inputs *)

Lemma uint8_unsigned : is_unsigned (arr_dtype ex_uint8).
Proof. apply list_elem_of_In. left. reflexivity. Qed.

Lemma float64_signed : is_signed_numeric (arr_dtype scenario_x).
Proof. apply list_elem_of_In. do 6 right. left. reflexivity. Qed.

(** The scenario with two defences [D1], [D2] active in predict mode: forward
    applies [D1] then [D2], the gradient pass [D2] then [D1]. *)
Lemma backward_order_reverses_forward_witness :
  applied (events (_apply_preprocessing_defences ex_two_defences
                     scenario_x None false ex_world))
    = [scenario_D1; scenario_D2] ∧
  estimated (events (_apply_preprocessing_gradient ex_two_defences
                       scenario_x scenario_x ex_world))
    = reverse (applied (events (_apply_preprocessing_defences ex_two_defences
                                  scenario_x None false ex_world))).
Proof.
  apply (backward_order_reverses_forward ex_two_defences scenario_x None
           scenario_x false ex_world ex_world); reflexivity.
Defined.

Lemma gradient_skips_defences_not_applied_at_predict_witness :
  EvEstimateGradient ex_fit_only ∉
    events (_apply_preprocessing_gradient ex_mixed_defences scenario_x scenario_x ex_world).
Proof.
  apply (gradient_skips_defences_not_applied_at_predict ex_mixed_defences
           scenario_x scenario_x ex_world ex_fit_only).
  reflexivity.
Defined.

Lemma unsigned_input_raises_before_arithmetic_witness :
  _apply_preprocessing_standardisation scenario_classifier ex_uint8 ex_world
    = (Raise TypeError, ex_world, []) ∧
  outcome (_apply_preprocessing check_and_transform_label_format
             scenario_classifier ex_uint8 None false ex_world) = Raise TypeError.
Proof.
  destruct (unsigned_input_raises_before_arithmetic
              check_and_transform_label_format scenario_classifier
              [PyFloat (f64 1 (-1)); PyFloat (f64 1 (-1))] ex_uint8
              eq_refl uint8_unsigned) as [Hstep Hpipe].
  split; [apply Hstep|].
  apply (Hpipe ex_uint8 None false ex_world 2 ex_world None None); reflexivity.
Defined.

Lemma unsigned_input_raises_without_standardisation_witness :
  _apply_preprocessing_standardisation ex_plain_classifier ex_uint8 ex_world
    = (Raise TypeError, ex_world, []).
Proof.
  apply (unsigned_input_raises_without_standardisation ex_plain_classifier
           ex_uint8 ex_world eq_refl uint8_unsigned).
Defined.

Lemma standardisation_of_signed_input_witness :
  outcome (_apply_preprocessing_standardisation scenario_classifier scenario_x ex_world)
    = Ok scenario_expected ∧
  outcome (_apply_preprocessing check_and_transform_label_format
             scenario_classifier scenario_x None false ex_world)
    = Ok (scenario_expected, None).
Proof.
  destruct (proj1 (standardisation_of_signed_input check_and_transform_label_format)
              ex_backend (Some [PyFloat (S754_zero false); PyFloat (f64 1 0)])
              None None [PyFloat (f64 1 (-1)); PyFloat (f64 1 (-1))]
              scenario_classifier scenario_x eq_refl float64_signed)
    as (subtract & divide & Hp & Hstep & Hpipe).
  injection Hp as <- <-. split.
  - rewrite (proj1 (Hstep ex_world)). reflexivity.
  - rewrite (Hpipe scenario_x None false ex_world 2 ex_world None None
               eq_refl eq_refl eq_refl).
    reflexivity.
Defined.

Lemma constructor_validates_configuration_witness :
  Classifier__init__ ex_backend (Some [PyFloat (f64 1 0)]) None None None
    = Raise ValueError ∧
  Classifier__init__ ex_backend (Some [PyFloat (f64 1 0); PyFloat (f64 1 0)])
    None None None = Raise ValueError ∧
  Classifier__init__ ex_backend None None None (Some [PyFloat (f64 1 (-1))])
    = Raise ValueError ∧
  Classifier__init__ ex_backend
    (Some [PyFloat (S754_zero false); PyFloat (f64 1 0)]) None None
    (Some [PyFloat (f64 1 (-1)); PyFloat (f64 1 (-1))]) = Ok scenario_classifier ∧
  is_ok (Classifier__init__ ex_backend
           (Some [PyInt (2 ^ 53 + 3); PyFloat (f64 (2 ^ 53 + 4) 0)]) None None None)
    = true.
Proof.
  split; [|split; [|split; [|split]]].
  - apply (proj1 (constructor_validates_configuration ex_backend
                    (Some [PyFloat (f64 1 0)]) None None None)
             [PyFloat (f64 1 0)] eq_refl).
    cbn. lia.
  - apply (proj1 (proj2 (constructor_validates_configuration ex_backend
                    (Some [PyFloat (f64 1 0); PyFloat (f64 1 0)]) None None None))
             (PyFloat (f64 1 0)) (PyFloat (f64 1 0))
             [(EFloat (f64 1 0), EFloat (f64 1 0))] eq_refl eq_refl).
    exists (EFloat (f64 1 0), EFloat (f64 1 0)). split; [left|reflexivity].
  - apply (proj1 (proj2 (proj2 (constructor_validates_configuration ex_backend
                    None None None (Some [PyFloat (f64 1 (-1))]))))
             [PyFloat (f64 1 (-1))] eq_refl).
    + cbn. lia.
    + intros lo hi Hcv. discriminate Hcv.
  - apply (proj2 (proj2 (proj2 (constructor_validates_configuration ex_backend
                    (Some [PyFloat (S754_zero false); PyFloat (f64 1 0)]) None None
                    (Some [PyFloat (f64 1 (-1)); PyFloat (f64 1 (-1))]))))
             (PyFloat (S754_zero false)) (PyFloat (f64 1 0))
             [(EFloat (S754_zero false), EFloat (f64 1 0))] eq_refl eq_refl).
    + intros p Hp. apply list_elem_of_singleton in Hp as ->. reflexivity.
    + intros p [= <-]. reflexivity.
  - rewrite (proj2 (proj2 (proj2 (constructor_validates_configuration ex_backend
                    (Some [PyInt (2 ^ 53 + 3); PyFloat (f64 (2 ^ 53 + 4) 0)])
                    None None None)))
             (PyInt (2 ^ 53 + 3)) (PyFloat (f64 (2 ^ 53 + 4) 0))
             [(EInt (2 ^ 53 + 3), EFloat (f64 (2 ^ 53 + 4) 0))] eq_refl eq_refl).
    + reflexivity.
    + intros p Hp. apply list_elem_of_singleton in Hp as ->. vm_compute. reflexivity.
    + intros p Hp. discriminate Hp.
Defined.

Lemma input_filter_coerces_inputs_witness :
  (∃ m, input_filter ex_clsdict !! "predict" = Some m ∧
        m [scenario_input] ∅ ex_world = (Ok (PyArr scenario_x), ex_world, [])) ∧
  (∃ m, input_filter ex_clsdict !! "fit" = Some m ∧
        m [] (<["x" := scenario_input]> (<["y" := ex_labels_input]> ∅)) ex_world
          = (Ok (PyArr scenario_x), ex_world, [])).
Proof.
  split.
  - destruct (proj1 (input_filter_coerces_inputs ex_clsdict "predict" ex_method eq_refl))
      as (m & Hm & Hcall).
    { apply list_elem_of_In. left. reflexivity. }
    exists m. split; [exact Hm|].
    destruct (Hcall Positional
                [PySeq [PyFloat (f64 1 0); PyFloat (S754_zero false)]]
                scenario_x [] ∅ ex_world eq_refl (lookup_empty _) (lookup_empty _))
      as [H1 H2].
    cbn [call_x fst snd] in H1, H2. unfold scenario_input.
    rewrite H1, H2. reflexivity.
  - destruct (proj2 (input_filter_coerces_inputs ex_clsdict "fit" ex_method eq_refl))
      as (m & Hm & Hcall).
    { apply list_elem_of_In. left. reflexivity. }
    exists m. split; [exact Hm|].
    destruct (Hcall BothKeyword
                [PySeq [PyFloat (f64 1 0); PyFloat (S754_zero false)]] [PyInt 1]
                scenario_x ex_labels [] ∅ ex_world eq_refl eq_refl
                (lookup_empty _) (lookup_empty _)) as [H1 H2].
    cbn [call_xy fst snd] in H1, H2. unfold scenario_input, ex_labels_input.
    rewrite H1, H2. reflexivity.
Defined.

Lemma fit_generator_rounds_witness :
  (pulls (events (fit_generator check_and_transform_label_format
                    scenario_classifier ex_generator 2 ∅ ex_world)) = 6%nat ∧
   fits (events (fit_generator check_and_transform_label_format
                   scenario_classifier ex_generator 2 ∅ ex_world))
     = replicate 6 (3, 1)) ∧
  (is_ok (outcome (fit_generator check_and_transform_label_format
                     scenario_classifier ex_generator 2 {[ "batch_size" := PyInt 5 ]}
                     ex_world)) = false ∧
   pulls (events (fit_generator check_and_transform_label_format
                    scenario_classifier ex_generator 2 {[ "batch_size" := PyInt 5 ]}
                    ex_world)) = 1%nat ∧
   fits (events (fit_generator check_and_transform_label_format
                   scenario_classifier ex_generator 2 {[ "batch_size" := PyInt 5 ]}
                   ex_world)) = []).
Proof.
  assert (Hsize : 0 <= gen_size ex_generator < 2 ^ 53)
    by (cbn; split; [lia|reflexivity]).
  assert (Hbatch : 0 < gen_batch_size ex_generator < 2 ^ 53)
    by (cbn; split; [lia|reflexivity]).
  split.
  - apply (proj1 (proj2 (fit_generator_rounds check_and_transform_label_format
             scenario_classifier ex_generator 2 ∅ ex_world Hsize Hbatch))).
    reflexivity.
  - apply (proj2 (proj2 (fit_generator_rounds check_and_transform_label_format
             scenario_classifier ex_generator 2 {[ "batch_size" := PyInt 5 ]} ex_world
             Hsize Hbatch))); [|vm_compute; lia].
    right. exists (PyInt 5). reflexivity.
Defined.

Lemma ex_round_ok (w : @world unit) :
  is_ok (outcome (train_on_batch check_and_transform_label_format
                    scenario_classifier ex_huge_generator ∅ w)) = true.
Proof. destruct w as [h []]. reflexivity. Qed.

(** C6. With 13510798882111490 samples in batches of 3 and [nb_epochs=1],
    the loop bound [int(generator.size / generator.batch_size)] is
    4503599627370497, because the binary64 quotient rounds up, while
    [floor(size / batch_size)] is 4503599627370496: [fit_generator] pulls one
    batch more than the floor of the quotient. *)
Theorem fit_generator_overshoots_the_floor :
  nb_batches ex_huge_generator = Ok 4503599627370497 ∧
  gen_size ex_huge_generator / gen_batch_size ex_huge_generator = 4503599627370496 ∧
  pulls (events (fit_generator check_and_transform_label_format
                   scenario_classifier ex_huge_generator 1 ∅ ex_world))
    = Z.to_nat 4503599627370497 ∧
  Z.to_nat 4503599627370497
    ≠ Z.to_nat (gen_size ex_huge_generator / gen_batch_size ex_huge_generator).
Proof.
  assert (Hk : nb_batches ex_huge_generator = Ok 4503599627370497)
    by (vm_compute; reflexivity).
  assert (Hq : gen_size ex_huge_generator / gen_batch_size ex_huge_generator
               = 4503599627370496) by (vm_compute; reflexivity).
  split; [exact Hk|]. split; [exact Hq|]. split.
  - pose proof (fit_generator_flat check_and_transform_label_format
        scenario_classifier ex_huge_generator 1 ∅ 4503599627370497 ex_world Hk) as Hflat.
    pose proof (repeatM_counts (Z.to_nat 1 * Z.to_nat 4503599627370497)
        (train_on_batch check_and_transform_label_format scenario_classifier
           ex_huge_generator ∅)
        (gen_batch_size ex_huge_generator, 1) ex_world
        (λ w, train_on_batch_counts check_and_transform_label_format
                scenario_classifier ex_huge_generator ∅ w)
        (repeatM_ok _ _ ex_round_ok _)) as [Hc _].
    rewrite <- Hflat in Hc. rewrite Hc. apply Nat.mul_1_l.
  - rewrite Hq. intros H. apply Z2Nat.inj in H; [discriminate H|lia|lia].
Qed.

(** C4. A neural-network classifier is constructed without any validation:
    [ClassifierNeuralNetwork.__init__] takes the configuration in [kwargs]
    and calls [super().__init__()] without it, so [Classifier.__init__] runs
    on its defaults and the construction succeeds with no configuration set,
    whatever was passed.  With [clip_values=(1.0, 0.0)], and with
    [clip_values=(0.0, 1.0, 2.0), preprocessing=(0.5,)], the construction
    returns, where [Classifier.__init__] called with the same configuration
    raises [ValueError]. *)
Theorem neural_network_constructor_skips_validation :
  (∀ channel_index kwargs,
     ClassifierNeuralNetwork__init__ ex_backend channel_index kwargs =
       Ok {| classifier := ex_plain_classifier; _channel_index := channel_index |}) ∧
  (ClassifierNeuralNetwork__init__ ex_backend None ex_reversed_bounds =
     Ok {| classifier := ex_plain_classifier; _channel_index := None |} ∧
   Classifier__init__ ex_backend (kw_clip_values ex_reversed_bounds)
     (kw_preprocessing_defences ex_reversed_bounds)
     (kw_postprocessing_defences ex_reversed_bounds)
     (kw_preprocessing ex_reversed_bounds) = Raise ValueError) ∧
  (ClassifierNeuralNetwork__init__ ex_backend None ex_wrong_lengths =
     Ok {| classifier := ex_plain_classifier; _channel_index := None |} ∧
   Classifier__init__ ex_backend (kw_clip_values ex_wrong_lengths)
     (kw_preprocessing_defences ex_wrong_lengths)
     (kw_postprocessing_defences ex_wrong_lengths)
     (kw_preprocessing ex_wrong_lengths) = Raise ValueError ∧
   Classifier__init__ ex_backend None None None (kw_preprocessing ex_wrong_lengths)
     = Raise ValueError).
Proof.
  split; [intros channel_index kwargs; reflexivity|].
  split; [split; reflexivity|]. split; [reflexivity|]. split; reflexivity.
Qed.

Lemma ex_in_place_keeps_to_argument : keeps_to_argument ex_in_place.
Proof.
  intros l w. split.
  - intros k Hk _. cbn. apply lookup_alter_ne. congruence.
  - intros l' [= <-]. left. reflexivity.
Qed.

(** A defence that zeroes its argument in place changes the copy, array
    object 2, and not the prediction, array object 1. *)
Lemma postprocessing_leaves_preds_unchanged_witness :
  w_heap (final (_apply_postprocessing ex_post_classifier 1%positive false
                   ex_preds_world)) !! 1%positive = Some scenario_x ∧
  outcome (_apply_postprocessing ex_post_classifier 1%positive false ex_preds_world)
    = Ok 2%positive ∧
  w_heap (final (_apply_postprocessing ex_post_classifier 1%positive false
                   ex_preds_world)) !! 2%positive = Some (zero_out scenario_x) ∧
  post_applied (events (_apply_postprocessing ex_post_classifier 1%positive false
                          ex_preds_world)) = [ex_in_place].
Proof.
  destruct (postprocessing_leaves_preds_unchanged ex_post_classifier 1%positive
              false ex_preds_world scenario_x eq_refl) as [Hkept Hret].
  { constructor; [exact ex_in_place_keeps_to_argument|constructor]. }
  split; [exact Hkept|]. split; [reflexivity|]. split; [reflexivity|].
  apply (Hret 2%positive eq_refl).
Defined.

Lemma layer_names_of_base_class_raises_witness :
  layer_names scenario_classifier ex_world = (Raise NotImplementedError, ex_world, []).
Proof.
  apply (proj1 (layer_names_of_base_class_raises scenario_classifier) eq_refl).
Defined.

(** Reading [layer_names] of a classifier that does not override it returns
    no list, empty or partial: it raises. *)
Lemma layer_names_counterexample :
  outcome (layer_names scenario_classifier ex_world) = Raise NotImplementedError ∧
  ¬ ∃ names, outcome (layer_names scenario_classifier ex_world) = Ok names.
Proof.
  split; [reflexivity|]. intros [names H]. discriminate H.
Qed.

Lemma standardise_elementwise_witness :
  outcome (_apply_preprocessing_standardisation scenario_classifier scenario_x ex_world)
    = Ok scenario_expected.
Proof.
  rewrite (standardise_elementwise scenario_classifier scenario_x (f64 1 (-1)) (f64 1 (-1))
             (EFloat (f64 1 (-1))) (EFloat (f64 1 (-1))) ex_world);
    [reflexivity|reflexivity|exact float64_signed|reflexivity|reflexivity|reflexivity].
Defined.

Lemma init_wraps_single_defence_witness :
  preprocessing_defences ex_single_defences = Some [scenario_D1] ∧
  postprocessing_defences ex_single_defences = Some [ex_in_place].
Proof.
  apply (init_wraps_single_defence ex_backend None scenario_D1 ex_in_place None
           ex_single_defences eq_refl).
Defined.

(** The gradient [[[1.0, 0.0]]] pulled back through the scenario's
    standardisation is [[[2.0, 0.0]]]. *)
Lemma normalization_gradient_divides_witness :
  outcome (_apply_preprocessing_normalization_gradient scenario_classifier
             scenario_x ex_world)
    = Ok (mk_ndarray float64 [1; 2]%nat [EFloat (f64 1 1); EFloat (S754_zero false)]).
Proof.
  rewrite (proj1 (proj1 (normalization_gradient_divides scenario_classifier
                           scenario_x ex_world)
                    (PyFloat (f64 1 (-1))) (PyFloat (f64 1 (-1))) eq_refl)).
  reflexivity.
Defined.

(** ** The further properties on concrete inputs *)

(** With [D1] active in both modes and a second defence active at fit time
    only, prediction applies [D1] alone; with [D1] and [D2] active in both
    modes, the backward loop in fit mode goes through [D2] and then [D1]. *)
Lemma defence_loops_follow_flags_witness :
  events (_apply_preprocessing_defences ex_mixed_defences scenario_x None false ex_world)
    = [EvDefence scenario_D1] ∧
  events (_apply_preprocessing_defences_gradient ex_two_defences scenario_x scenario_x
            true ex_world)
    = [EvEstimateGradient scenario_D2; EvEstimateGradient scenario_D1].
Proof.
  split.
  - apply (proj1 (defence_loops_follow_flags ex_mixed_defences scenario_x None
                    scenario_x false ex_world)).
    reflexivity.
  - apply (proj2 (defence_loops_follow_flags ex_two_defences scenario_x None
                    scenario_x true ex_world)).
    reflexivity.
Defined.

Lemma failing_defence_stops_the_pipeline_witness :
  _apply_preprocessing_defences
    (with_defences ex_plain_classifier ([scenario_D1] ++ ex_failing :: [scenario_D2]))
    scenario_x None false ex_world
    = (Raise ValueError, ex_world, [EvDefence scenario_D1] ++ [EvDefence ex_failing]).
Proof.
  apply (failing_defence_stops_the_pipeline ex_plain_classifier [scenario_D1]
           [scenario_D2] ex_failing scenario_x None false ex_world scenario_x None
           ex_world [EvDefence scenario_D1] ValueError ex_world); reflexivity.
Defined.

Lemma forward_skips_unselected_defences_witness :
  (EvDefence ex_fit_only ∉
     events (_apply_preprocessing check_and_transform_label_format ex_mixed_defences
               scenario_x None false ex_world)) ∧
  (EvDefence ex_predict_only ∉
     events (fit_generator check_and_transform_label_format ex_predict_only_classifier
               ex_generator 2 ∅ ex_world)).
Proof.
  split.
  - apply (proj1 (forward_skips_unselected_defences check_and_transform_label_format
                    ex_mixed_defences ex_fit_only)).
    reflexivity.
  - apply (proj2 (forward_skips_unselected_defences check_and_transform_label_format
                    ex_predict_only_classifier ex_predict_only)).
    reflexivity.
Defined.

Lemma preprocessing_checks_labels_first_witness :
  _apply_preprocessing check_and_transform_label_format ex_unfinished_classifier
    scenario_x None false ex_world
    = (Raise NotImplementedError, ex_world, [EvNbClasses]) ∧
  _apply_preprocessing check_and_transform_label_format ex_two_defences
    scenario_x (Some ex_bad_labels) false ex_world
    = (Raise ValueError, ex_world, [EvNbClasses]).
Proof.
  split.
  - apply (proj1 (preprocessing_checks_labels_first check_and_transform_label_format
                    ex_unfinished_classifier scenario_x None false ex_world)).
    reflexivity.
  - apply (proj2 (preprocessing_checks_labels_first check_and_transform_label_format
                    ex_two_defences scenario_x (Some ex_bad_labels) false ex_world)
             2 ex_world ValueError); reflexivity.
Defined.

Lemma float64_not_unsigned : ¬ is_unsigned (arr_dtype scenario_x).
Proof. apply signed_not_unsigned, float64_signed. Qed.

Lemma unconfigured_pipelines_return_their_input_witness :
  _apply_preprocessing check_and_transform_label_format ex_predict_only_classifier
    scenario_x None true ex_world = (Ok (scenario_x, None), ex_world, [EvNbClasses]) ∧
  _apply_preprocessing_gradient ex_plain_classifier scenario_x scenario_x ex_world
    = (Ok scenario_x, ex_world, []).
Proof.
  split.
  - apply (proj1 (unconfigured_pipelines_return_their_input
                    check_and_transform_label_format ex_predict_only_classifier eq_refl)
             scenario_x None true ex_world 2 ex_world None);
      [repeat constructor|exact float64_not_unsigned|reflexivity|reflexivity].
  - apply (proj2 (unconfigured_pipelines_return_their_input
                    check_and_transform_label_format ex_plain_classifier eq_refl)).
    constructor.
Defined.

(** At fit time the defence of [ex_post_classifier] is off: the prediction,
    array object 1, is copied to array object 2 and nothing else happens. *)
Lemma postprocessing_without_selected_defence_copies_witness :
  _apply_postprocessing ex_post_classifier 1%positive true ex_preds_world
    = (Ok 2%positive,
       mk_world (<[2%positive := scenario_x]> (w_heap ex_preds_world)) (), []).
Proof.
  apply (postprocessing_without_selected_defence_copies ex_post_classifier 1%positive
           true ex_preds_world scenario_x eq_refl).
  repeat constructor.
Defined.

Lemma postprocessing_skips_unselected_defences_witness :
  EvPostDefence ex_in_place ∉
    events (_apply_postprocessing ex_post_classifier 1%positive true ex_preds_world).
Proof.
  apply (postprocessing_skips_unselected_defences ex_post_classifier 1%positive true
           ex_preds_world ex_in_place).
  reflexivity.
Defined.

Lemma fit_generator_trains_on_nothing_witness :
  fit_generator check_and_transform_label_format scenario_classifier
    ex_zero_batch_generator 0 ∅ ex_world = (Ok (), ex_world, []) ∧
  fit_generator check_and_transform_label_format scenario_classifier
    ex_zero_batch_generator 2 ∅ ex_world = (Raise ZeroDivisionError, ex_world, []) ∧
  fit_generator check_and_transform_label_format scenario_classifier
    ex_small_generator 2 ∅ ex_world = (Ok (), ex_world, []).
Proof.
  split; [|split].
  - apply (proj1 (fit_generator_trains_on_nothing check_and_transform_label_format
                    scenario_classifier ex_zero_batch_generator 0 ∅ ex_world)).
    lia.
  - apply (proj1 (proj2 (fit_generator_trains_on_nothing
                           check_and_transform_label_format scenario_classifier
                           ex_zero_batch_generator 2 ∅ ex_world)));
      [lia|reflexivity].
  - apply (proj2 (proj2 (fit_generator_trains_on_nothing
                           check_and_transform_label_format scenario_classifier
                           ex_small_generator 2 ∅ ex_world)));
      cbn; lia.
Defined.

Lemma fit_generator_stops_at_unsigned_batch_witness :
  fit_generator check_and_transform_label_format scenario_classifier
    ex_uint8_generator 2 ∅ ex_world
    = (Raise TypeError, ex_world, [EvGetBatch; EvNbClasses]).
Proof.
  eapply (fit_generator_stops_at_unsigned_batch check_and_transform_label_format
            scenario_classifier ex_uint8_generator 2 ∅ ex_world 3 ex_uint8 ex_labels
            ex_world 2 ex_world);
    [lia|vm_compute; reflexivity|lia|reflexivity|reflexivity|reflexivity
    |constructor|exact uint8_unsigned].
Defined.

Lemma standardise_result_dtype_witness :
  kind_of (arr_dtype scenario_x) ≠ KBool ∧ arr_dtype scenario_expected = float64.
Proof.
  apply (standardise_result_dtype (PyFloat (f64 1 (-1))) (PyFloat (f64 1 (-1)))
           scenario_x scenario_expected).
  reflexivity.
Defined.

Lemma boolean_input_is_refused_by_the_subtraction_witness :
  outcome (_apply_preprocessing_standardisation scenario_classifier ex_bool ex_world)
    = Raise TypeError ∧
  _apply_preprocessing_standardisation ex_plain_classifier ex_bool ex_world
    = (Ok ex_bool, ex_world, []).
Proof.
  split.
  - destruct (proj1 (boolean_input_is_refused_by_the_subtraction scenario_classifier
                       ex_bool ex_world eq_refl)
                (PyFloat (f64 1 (-1))) (PyFloat (f64 1 (-1))) eq_refl eq_refl eq_refl)
      as (s & _ & ->).
    reflexivity.
  - apply (proj2 (boolean_input_is_refused_by_the_subtraction ex_plain_classifier
                    ex_bool ex_world eq_refl) eq_refl).
Defined.

(** [[[1, 0]]] as 32-bit integers with [preprocessing=(0.5, 0.5)]: both
    constants become 0, and no element of the result is finite. *)
Lemma integer_input_with_fractional_divisor_witness :
  ∃ r, outcome (_apply_preprocessing_standardisation scenario_classifier ex_int32 ex_world)
         = Ok r ∧
    arr_dtype r = float64 ∧ arr_shape r = arr_shape ex_int32 ∧
    length (arr_data r) = length (arr_data ex_int32) ∧
    Forall (λ v, not_finite v = true) (arr_data r).
Proof.
  apply (integer_input_with_fractional_divisor scenario_classifier ex_int32
           (f64 1 (-1)) (f64 1 (-1)) 32 (EInt 0) ex_world); reflexivity.
Defined.

Lemma ex_half_casts (a : elt) :
  a ∈ arr_data ex_half → is_ok (cast_elt (kind_of (arr_dtype scenario_x)) a) = true.
Proof. intros _. destruct a; reflexivity. Qed.

Lemma standardise_per_element_witness :
  ∃ r, outcome (_apply_preprocessing_standardisation ex_per_feature_classifier
                  scenario_x ex_world) = Ok r ∧
    arr_shape r = arr_shape scenario_x ∧
    length (arr_data r) = length (arr_data scenario_x) ∧
    ∀ i v a b a' b',
      arr_data scenario_x !! i = Some v → arr_data ex_half !! i = Some a →
      arr_data ex_half !! i = Some b →
      cast_elt (kind_of (arr_dtype scenario_x)) a = Ok a' →
      cast_elt (kind_of (arr_dtype scenario_x)) b = Ok b' →
      arr_data r !! i =
        Some (div_elt (kind_of (arr_dtype scenario_x))
                (sub_elt (kind_of (arr_dtype scenario_x)) v a') b').
Proof.
  apply (standardise_per_element ex_per_feature_classifier scenario_x ex_half ex_half
           ex_world);
    [reflexivity|exact float64_signed|reflexivity|reflexivity|reflexivity
    |exact ex_half_casts|exact ex_half_casts].
Defined.

Lemma nan_clip_bound_is_accepted_witness :
  is_ok (Classifier__init__ ex_backend (Some [PyFloat S754_nan; PyFloat (f64 1 0)])
           None None None) = true ∧
  is_ok (Classifier__init__ ex_backend (Some [PyFloat (f64 1 0); PyFloat S754_nan])
           None None None) = true.
Proof.
  destruct (nan_clip_bound_is_accepted ex_backend (PyFloat (f64 1 0)) None None None)
    as [-> ->]; [eexists; reflexivity|intros p Hp; discriminate Hp|].
  split; reflexivity.
Defined.

Lemma clip_bounds_that_do_not_broadcast_raise_witness :
  Classifier__init__ ex_backend (Some [PyArr ex_bounds2; PyArr ex_bounds3])
    None None None = Raise ValueError.
Proof.
  apply (clip_bounds_that_do_not_broadcast_raise ex_backend ex_bounds2 ex_bounds3).
  reflexivity.
Defined.

Lemma save_is_not_replaced :
  "save"%string ∉ replacement_list_no_y ++ replacement_list_has_y.
Proof. rewrite list_elem_of_In. cbn. intuition discriminate. Qed.

Lemma input_filter_keeps_other_attributes_witness :
  input_filter ex_abstract_clsdict !! "save" = ex_abstract_clsdict !! "save".
Proof.
  apply (proj2 (input_filter_keeps_other_attributes ex_abstract_clsdict "save")).
  exact save_is_not_replaced.
Defined.

Lemma wrapper_without_input_raises_witness :
  make_replacement ex_clsdict "predict" false [] ∅ ex_world
    = (Raise IndexError, ex_world, []) ∧
  make_replacement ex_clsdict "fit" true [PyArr scenario_x] ∅ ex_world
    = (Raise IndexError, ex_world, []).
Proof.
  split.
  - apply (proj1 (wrapper_without_input_raises ex_clsdict "predict" false [] ∅ ex_world));
      [apply lookup_empty|reflexivity].
  - apply (proj2 (wrapper_without_input_raises ex_clsdict "fit" true
                    [PyArr scenario_x] ∅ ex_world) eq_refl (lookup_empty _)
             (le_n 1) scenario_x).
    reflexivity.
Defined.

Lemma fit_is_replaced : "fit"%string ∈ replacement_list_has_y.
Proof. apply list_elem_of_In. left. reflexivity. Qed.

(** [fit(x, y=None)] with an array [x] reaches the class's [fit] as it is. *)
Lemma wrapper_is_transparent_on_arrays_witness :
  ∃ m, input_filter ex_clsdict !! "fit" = Some m ∧
    m [PyArr scenario_x] (<["y" := PyNone]> ∅) ex_world
      = ex_method [PyArr scenario_x] (<["y" := PyNone]> ∅) ex_world.
Proof.
  destruct (wrapper_is_transparent_on_arrays ex_clsdict "fit" ex_method true
              eq_refl (or_intror (conj eq_refl fit_is_replaced))) as (m & Hm & Hcall).
  exists m. split; [exact Hm|]. apply Hcall. reflexivity.
Defined.

Lemma scenario_x_valid :
  Forall (λ v, ∃ f, v = EFloat f ∧ valid_binary 53 1024 f = true) (arr_data scenario_x).
Proof. repeat constructor; eexists; (split; [reflexivity|reflexivity]). Qed.

Lemma neutral_standardisation_returns_the_data_witness :
  standardise (PyInt 0) (PyFloat (f64 1 0)) scenario_x = Ok scenario_x.
Proof.
  apply (neutral_standardisation_returns_the_data scenario_x 53 1024);
    [reflexivity|reflexivity|exact scenario_x_valid
    |apply list_elem_of_In; left; reflexivity
    |apply list_elem_of_In; right; left; reflexivity].
Defined.

Lemma neutral_divisor_returns_the_gradients_witness :
  outcome (_apply_preprocessing_normalization_gradient ex_neutral_classifier
             scenario_x ex_world) = Ok scenario_x ∧
  final (_apply_preprocessing_normalization_gradient ex_neutral_classifier
           scenario_x ex_world) = ex_world.
Proof.
  apply (neutral_divisor_returns_the_gradients ex_neutral_classifier scenario_x
           53 1024 (PyInt 0) (PyInt 1) ex_world);
    [reflexivity|reflexivity|reflexivity|exact scenario_x_valid
    |apply list_elem_of_In; left; reflexivity].
Defined.



Lemma wrapping_twice_is_wrapping_once_witness :
  make_replacement (input_filter ex_clsdict) "predict" false [scenario_input] ∅ ex_world
    = make_replacement ex_clsdict "predict" false [scenario_input] ∅ ex_world.
Proof.
  apply (wrapping_twice_is_wrapping_once ex_clsdict (input_filter ex_clsdict)
           "predict" ex_method false [scenario_input] ∅ ex_world); reflexivity.
Defined.

(** After [scenario_D2], which casts the input to [float32], a defence
    whose estimate is defined at the [float64] input only still works: it is
    asked at the raw input. *)
Lemma gradient_estimates_are_taken_at_the_raw_input_witness :
  outcome (_apply_preprocessing_defences_gradient
             (with_defences ex_plain_classifier [scenario_D2; ex_estimate_at_scenario])
             scenario_x scenario_x false ex_world)
    = outcome (_apply_preprocessing_defences_gradient
                 (with_defences ex_plain_classifier [scenario_D2; scenario_D1])
                 scenario_x scenario_x false ex_world) ∧
  final (_apply_preprocessing_defences_gradient
           (with_defences ex_plain_classifier [scenario_D2; ex_estimate_at_scenario])
           scenario_x scenario_x false ex_world)
    = final (_apply_preprocessing_defences_gradient
               (with_defences ex_plain_classifier [scenario_D2; scenario_D1])
               scenario_x scenario_x false ex_world).
Proof.
  apply (gradient_estimates_are_taken_at_the_raw_input ex_plain_classifier
           [scenario_D2; ex_estimate_at_scenario] [scenario_D2; scenario_D1]
           scenario_x scenario_x false ex_world).
  repeat constructor.
Defined.
